(** * Vehicle-registration pipeline: cleaning and growth metrics

    A shallow embedding of [process_data.py] (functions [load_data],
    [clean_data], [calculate_growth_metrics], [save_to_sqlite] and
    [process_data]) together with the properties of its specification.

    Conventions of the embedding.
    - A frame read from CSV is a table of text cells: a cell is either
      missing or the text found in the file.  Whether [pd.read_csv] gives a
      column texts or numbers decides whether the [.str] accessor exists
      ([has_str_accessor]); [clean_data] is the frame that the function
      computes and [clean_data_raises] the exception that it raises
      instead.  The frame [clean_data] is what the code computes when the
      labels stay distinct once standardized ([distinct_labels]), as
      pandas' single-label column assignment requires; the value of a
      number read from a numeric column is that of the text of the file.
    - Strings are ASCII: [upper], [lower], [title] and [strip] act on the
      ASCII letters and ASCII white space only ([is_ascii_text]).
    - Numbers are exact rationals: a sum is the exact sum, which is what a
      column of whole numbers gives as long as it stays within 64 bits
      ([sums_fit_int64]) and what a column of floats gives up to rounding.
      The results of pandas' float division are rationals extended with NaN
      and the two infinities, so that the division by zero of [pct_change]
      is modelled as IEEE 754 defines it; rounding of finite results is not
      modelled.
    - [pd.to_datetime] is a parameter of the development (a partial function
      from text to calendar dates, what the function makes of a value of
      the column, the time of day left out); the concrete scenarios
      instantiate it with a parser of ISO dates [YYYY-MM-DD].
    - A directory is what [os.listdir] finds at the path: its entries, or
      nothing, on which it raises [FileNotFoundError]. *)

From Stdlib Require Import ZArith QArith Qabs List String Ascii Bool Lia.
From Stdlib Require Import Sorting.Sorted Sorting.Permutation.
From Stdlib Require Import Relations.Relation_Definitions.
Import ListNotations.

Local Open Scope Z_scope.
Local Open Scope string_scope.

(* ================================================================== *)
(** ** Python string operations (ASCII) *)

Module Py.

Definition code (c : ascii) : N := N_of_ascii c.

Definition is_lower (c : ascii) : bool := ((97 <=? code c) && (code c <=? 122))%N.
Definition is_upper (c : ascii) : bool := ((65 <=? code c) && (code c <=? 90))%N.
Definition is_cased (c : ascii) : bool := is_lower c || is_upper c.
Definition is_digit (c : ascii) : bool := ((48 <=? code c) && (code c <=? 57))%N.

(** [str.isspace] on ASCII: TAB, LF, VT, FF, CR, FS, GS, RS, US and SPACE. *)
Definition is_space (c : ascii) : bool :=
  (((9 <=? code c) && (code c <=? 13)) || ((28 <=? code c) && (code c <=? 32)))%N.

Definition upper_char (c : ascii) : ascii :=
  if is_lower c then ascii_of_N (code c - 32) else c.
Definition lower_char (c : ascii) : ascii :=
  if is_upper c then ascii_of_N (code c + 32) else c.

Fixpoint map_chars (f : ascii -> ascii) (s : string) : string :=
  match s with
  | EmptyString => EmptyString
  | String c t => String (f c) (map_chars f t)
  end.

Definition upper : string -> string := map_chars upper_char.
Definition lower : string -> string := map_chars lower_char.

(** [str.title]: a cased character is upper-cased when the character before
    it is not cased, and lower-cased otherwise. *)
Fixpoint title_from (prev_cased : bool) (s : string) : string :=
  match s with
  | EmptyString => EmptyString
  | String c t =>
      if is_cased c
      then String (if prev_cased then lower_char c else upper_char c) (title_from true t)
      else String c (title_from false t)
  end.
Definition title : string -> string := title_from false.

Fixpoint lstrip (s : string) : string :=
  match s with
  | EmptyString => EmptyString
  | String c t => if is_space c then lstrip t else s
  end.

Fixpoint rstrip (s : string) : string :=
  match s with
  | EmptyString => EmptyString
  | String c t =>
      match rstrip t with
      | EmptyString => if is_space c then EmptyString else String c EmptyString
      | t' => String c t'
      end
  end.

Definition strip (s : string) : string := rstrip (lstrip s).

(** [s.replace(a, b)] for single characters. *)
Definition replace_char (a b : ascii) : string -> string :=
  map_chars (fun c => if Ascii.eqb c a then b else c).

(** [sub in s]. *)
Fixpoint contains (sub s : string) : bool :=
  String.prefix sub s ||
  match s with
  | EmptyString => false
  | String _ t => contains sub t
  end.

Fixpoint endswith (s suffix : string) : bool :=
  String.eqb s suffix ||
  match s with
  | EmptyString => false
  | String _ t => endswith t suffix
  end.

Fixpoint filter_chars (p : ascii -> bool) (s : string) : string :=
  match s with
  | EmptyString => EmptyString
  | String c t => if p c then String c (filter_chars p t) else filter_chars p t
  end.

(** [re.sub(r'[^\d.]', '', s)]: keep the digits and the points. *)
Definition keep_digits_and_points : string -> string :=
  filter_chars (fun c => is_digit c || Ascii.eqb c "."%char).

(** Value of a string of decimal digits, most significant first. *)
Fixpoint digits_value (acc : Z) (s : string) : Z :=
  match s with
  | EmptyString => acc
  | String c t => digits_value (10 * acc + (Z.of_N (code c) - 48)) t
  end.

Fixpoint all_chars (p : ascii -> bool) (s : string) : bool :=
  match s with
  | EmptyString => true
  | String c t => p c && all_chars p t
  end.

(** Split at the first point: the text before it and, when there is a
    point, the text after it. *)
Fixpoint split_point (s : string) : string * option string :=
  match s with
  | EmptyString => (EmptyString, None)
  | String c t =>
      if Ascii.eqb c "."%char then (EmptyString, Some t)
      else let '(a, b) := split_point t in (String c a, b)
  end.

End Py.

(* ================================================================== *)
(** ** Numbers: exact totals and the results of float division *)

(** The value of a float that results from a division: not-a-number, an
    infinity with its sign ([true] is negative), or a finite rational. *)
Inductive fnum : Type :=
| NaN
| Inf (negative : bool)
| Fin (q : Q).

Definition Qneg (q : Q) : bool := match Qcompare q 0%Q with Lt => true | _ => false end.
Definition Qzero (q : Q) : bool := Qeq_bool q 0%Q.

Definition fdiv (a b : fnum) : fnum :=
  match a, b with
  | NaN, _ | _, NaN => NaN
  | Inf _, Inf _ => NaN
  | Inf s, Fin q => Inf (xorb s (Qneg q))
  | Fin q, Inf _ => Fin 0%Q
  | Fin x, Fin y =>
      if Qzero y then (if Qzero x then NaN else Inf (Qneg x))
      else Fin (x / y)%Q
  end.

Definition fsub (a b : fnum) : fnum :=
  match a, b with
  | NaN, _ | _, NaN => NaN
  | Inf s, Inf s' => if Bool.eqb s s' then NaN else Inf s
  | Inf s, Fin _ => Inf s
  | Fin _, Inf s => Inf (negb s)
  | Fin x, Fin y => Fin (x - y)%Q
  end.

Definition fmul (a b : fnum) : fnum :=
  match a, b with
  | NaN, _ | _, NaN => NaN
  | Inf s, Inf s' => Inf (xorb s s')
  | Inf s, Fin q | Fin q, Inf s => if Qzero q then NaN else Inf (xorb s (Qneg q))
  | Fin x, Fin y => Fin (x * y)%Q
  end.

(** Equality of float values up to the representation of the rational. *)
Definition feq (a b : fnum) : Prop :=
  match a, b with
  | NaN, NaN => True
  | Inf s, Inf s' => s = s'
  | Fin x, Fin y => (x == y)%Q
  | _, _ => False
  end.

Definition isna (a : fnum) : bool := match a with NaN => true | _ => false end.
Definition isinf (a : fnum) : bool := match a with Inf _ => true | _ => false end.

(* ================================================================== *)
(** ** Frames *)

Record date : Type := mkDate { year : Z; month : Z; day : Z }.

(** [date.dt.quarter] *)
Definition quarter (d : date) : Z := (month d - 1) / 3 + 1.

(** A cell of a cleaned frame. *)
Inductive cell : Type :=
| NA
| Str (s : string)
| Num (q : Q)
| Date (d : date).

(** A frame as read from CSV: every cell is missing or text. *)
Record RawFrame : Type := mkRaw {
  raw_columns : list string;
  raw_rows : list (list (option string))
}.

Record DataFrame : Type := mkFrame {
  columns : list string;
  rows : list (list cell)
}.

Definition in_columns (name : string) (cols : list string) : bool :=
  existsb (String.eqb name) cols.

(** Position of a column label. *)
Fixpoint col_index (name : string) (cols : list string) : option nat :=
  match cols with
  | [] => None
  | c :: t => if String.eqb name c then Some O
              else option_map S (col_index name t)
  end.

Definition get_cell (i : nat) (r : list cell) : cell := nth i r NA.

(** Apply [f], which is given the label of the column, to the cells of a
    row; cells beyond the labels are left as they are. *)
Fixpoint map_row (f : string -> cell -> cell) (cols : list string) (r : list cell)
  : list cell :=
  match r with
  | [] => []
  | x :: xs =>
      match cols with
      | [] => x :: xs
      | c :: cs => f c x :: map_row f cs xs
      end
  end.

(** [df[col] = f(df[col])], cell by cell. *)
Definition assign_column (col : string) (f : cell -> cell) (df : DataFrame) : DataFrame :=
  mkFrame (columns df)
    (map (map_row (fun name c => if String.eqb name col then f c else c) (columns df))
         (rows df)).

(* ================================================================== *)
(** ** [clean_data] *)

(** [col.strip().lower().replace(' ', '_')] *)
Definition standardize_column (col : string) : string :=
  Py.replace_char " "%char "_"%char (Py.lower (Py.strip col)).

Definition is_date_col (col : string) : bool := Py.contains "date" col.

Definition numeric_words : list string :=
  ["registration"; "value"; "number"; "count"; "sales"].

Definition is_numeric_col (col : string) : bool :=
  existsb (fun word => Py.contains word (Py.lower col)) numeric_words.

(** [pd.to_numeric(errors='coerce')] on a text made of digits and points,
    which is what the stripping leaves: an integer, or a decimal with at
    least one digit around a single point. *)
Definition to_numeric (s : string) : option Q :=
  if negb (Py.all_chars (fun c => Py.is_digit c || Ascii.eqb c "."%char) s) then None
  else
    let '(ip, rest) := Py.split_point s in
    match rest with
    | None =>
        match ip with
        | EmptyString => None
        | _ => Some (inject_Z (Py.digits_value 0 ip))
        end
    | Some fp =>
        if Py.all_chars Py.is_digit fp
           && negb (Nat.eqb (String.length ip + String.length fp) 0)
        then Some (inject_Z (Py.digits_value 0 ip)
                   + Qmake (Py.digits_value 0 fp)
                           (Z.to_pos (10 ^ Z.of_nat (String.length fp))))%Q
        else None
    end.

Definition digit_char (n : Z) : ascii := ascii_of_N (Z.to_N (48 + n mod 10)).
Definition two_digits (n : Z) : string :=
  String (digit_char (n / 10)) (String (digit_char n) EmptyString).
Definition four_digits (n : Z) : string :=
  String (digit_char (n / 1000)) (String (digit_char (n / 100)) (two_digits n)).

(** The text of a timestamp at day granularity, [YYYY-MM-DD]. *)
Definition isoformat (d : date) : string :=
  four_digits (year d) ++ "-" ++ two_digits (month d) ++ "-" ++ two_digits (day d).

(** [pd.to_numeric(errors='coerce')] after the stripping of what is not a
    digit or a point. *)
Definition strip_and_parse (s : string) : cell :=
  match to_numeric (Py.keep_digits_and_points s) with
  | Some q => Num q
  | None => NA
  end.

(** Lines 63-64 on one cell: [astype(str)] gives the text of the cell, [nan]
    for a missing value ([NaT] in a datetime column; both are stripped to
    the empty text) and [YYYY-MM-DD] for a date.  A cell that is a number
    already is kept; none occurs in a frame read as text.  The text is that
    of the file, which is what [astype(str)] gives in a column read as text
    and, up to the value, for a number written with digits and a point; a
    number that [pd.read_csv] has read is printed with an exponent when it
    is very small or very large, and stripped to other digits. *)
Definition to_numeric_cell (c : cell) : cell :=
  match c with
  | NA => strip_and_parse "nan"
  | Str s => strip_and_parse s
  | Date d => strip_and_parse (isoformat d)
  | Num q => Num q
  end.

(** [series.replace(table)]: a value equal to a key becomes its image. *)
Fixpoint replace_value (table : list (string * string)) (s : string) : string :=
  match table with
  | [] => s
  | (k, v) :: t => if String.eqb s k then v else replace_value t s
  end.

Definition category_aliases : list (string * string) :=
  [ ("TWO WHEELER", "2W"); ("THREE WHEELER", "3W"); ("FOUR WHEELER", "4W");
    ("2 WHEELER", "2W"); ("3 WHEELER", "3W"); ("4 WHEELER", "4W") ].

Definition manufacturer_aliases : list (string * string) :=
  [ ("Hero", "Hero MotoCorp"); ("Bajaj", "Bajaj Auto"); ("Tata", "Tata Motors");
    ("Mahindra", "Mahindra & Mahindra");
    ("Mahindra And Mahindra", "Mahindra & Mahindra") ].

(** Lines 70-78 on one value. *)
Definition normalize_category (s : string) : string :=
  replace_value category_aliases (Py.upper s).

(** Lines 82-89 on one value. *)
Definition normalize_manufacturer (s : string) : string :=
  replace_value manufacturer_aliases (Py.title s).

(** The [.str] accessor gives a missing value on what is not text, in a
    column that holds texts; on a column that holds none it raises, which is
    [clean_data_raises] below. *)
Definition str_cell (f : string -> string) (c : cell) : cell :=
  match c with
  | Str s => Str (f s)
  | _ => NA
  end.

Definition of_raw (c : option string) : cell :=
  match c with
  | Some s => Str s
  | None => NA
  end.

(** [row.isna().all()] *)
Definition all_missing (r : list (option string)) : bool :=
  forallb (fun c => match c with None => true | Some _ => false end) r.

Section Cleaning.

(** [pd.to_datetime] on one text value; [None] when it is not a date. *)
Variable to_datetime : string -> option date.

(** [pd.to_datetime(series, errors='coerce')] on a cell. *)
Definition to_datetime_cell (c : cell) : cell :=
  match c with
  | Str s => match to_datetime s with Some d => Date d | None => NA end
  | Date d => Date d
  | _ => NA
  end.

(** The frame that [clean_data] returns; the exception that it raises
    instead of returning, at lines 70 and 82, is [clean_data_raises]. *)
Definition clean_data (df : RawFrame) : DataFrame :=
  (* df.copy(); dropna(how='all') *)
  let kept := filter (fun r => negb (all_missing r)) (raw_rows df) in
  (* standardize column names *)
  let df_clean := mkFrame (map standardize_column (raw_columns df))
                          (map (map of_raw) kept) in
  (* date columns *)
  let date_cols := filter is_date_col (columns df_clean) in
  let df_clean :=
    fold_left (fun d col => assign_column col to_datetime_cell d) date_cols df_clean in
  (* numeric columns *)
  let numeric_cols := filter is_numeric_col (columns df_clean) in
  let df_clean :=
    fold_left (fun d col => assign_column col to_numeric_cell d) numeric_cols df_clean in
  (* category names *)
  let df_clean :=
    if in_columns "category" (columns df_clean)
    then assign_column "category" (str_cell normalize_category) df_clean
    else df_clean in
  (* manufacturer names *)
  let df_clean :=
    if in_columns "manufacturer" (columns df_clean)
    then assign_column "manufacturer" (str_cell normalize_manufacturer) df_clean
    else df_clean in
  df_clean.

End Cleaning.

(** A parser of ISO dates [YYYY-MM-DD], one of the formats that
    [pd.to_datetime] reads. *)
Definition days_in_month (y m : Z) : Z :=
  if Z.eqb m 2 then
    (if (Z.eqb (y mod 4) 0 && negb (Z.eqb (y mod 100) 0)) || Z.eqb (y mod 400) 0
     then 29 else 28)
  else if Z.eqb m 4 || Z.eqb m 6 || Z.eqb m 9 || Z.eqb m 11 then 30 else 31.

Definition iso_date (s : string) : option date :=
  match s with
  | String y1 (String y2 (String y3 (String y4 (String "-"
      (String m1 (String m2 (String "-" (String d1 (String d2 EmptyString))))))))) =>
      let ys := String y1 (String y2 (String y3 (String y4 EmptyString))) in
      let ms := String m1 (String m2 EmptyString) in
      let ds := String d1 (String d2 EmptyString) in
      if Py.all_chars Py.is_digit (ys ++ ms ++ ds) then
        let y := Py.digits_value 0 ys in
        let m := Py.digits_value 0 ms in
        let d := Py.digits_value 0 ds in
        if ((1 <=? m) && (m <=? 12) && (1 <=? d) && (d <=? days_in_month y m))%Z
        then Some (mkDate y m d) else None
      else None
  | _ => None
  end.


(* ================================================================== *)
(** ** Keys and their order *)

(** The order in which [groupby] sorts its keys. *)
Class Cmp (K : Type) : Type := cmp : K -> K -> comparison.

#[export] Instance cmp_Z : Cmp Z := Z.compare.

Definition ascii_compare (a b : ascii) : comparison :=
  N.compare (N_of_ascii a) (N_of_ascii b).

(** Text is ordered by code point, character by character. *)
Fixpoint string_compare (a b : string) : comparison :=
  match a, b with
  | EmptyString, EmptyString => Eq
  | EmptyString, String _ _ => Lt
  | String _ _, EmptyString => Gt
  | String x a', String y b' =>
      match ascii_compare x y with
      | Eq => string_compare a' b'
      | c => c
      end
  end.

#[export] Instance cmp_string : Cmp string := string_compare.

(** Several keys are compared lexicographically. *)
#[export] Instance cmp_pair {A B : Type} `{Cmp A} `{Cmp B} : Cmp (A * B) :=
  fun x y =>
    match cmp (fst x) (fst y) with
    | Eq => cmp (snd x) (snd y)
    | c => c
    end.

Definition cmp_eqb {K : Type} `{Cmp K} (a b : K) : bool :=
  match cmp a b with Eq => true | _ => false end.

(* ================================================================== *)
(** ** [groupby(keys)[value].sum().reset_index()] *)

Section GroupBySum.

Context {K : Type} `{Cmp K}.

(** Add one row to the cell of its key, in the list of cells sorted by key.
    A missing value is skipped: it opens the cell when the key is new (the
    sum of no value is zero) and leaves an existing total as it is. *)
Fixpoint add_to_cell (k : K) (v : option Q) (cells : list (K * Q)) : list (K * Q) :=
  match cells with
  | [] => [(k, match v with Some x => x | None => 0%Q end)]
  | (k', t) :: rest =>
      match cmp k k' with
      | Lt => (k, match v with Some x => x | None => 0%Q end) :: cells
      | Eq => (k', match v with Some x => (t + x)%Q | None => t end) :: rest
      | Gt => (k', t) :: add_to_cell k v rest
      end
  end.

(** Rows whose key has a missing component are dropped. *)
Definition groupby_sum (items : list (option K * option Q)) : list (K * Q) :=
  fold_left
    (fun cells it =>
       match fst it with
       | Some k => add_to_cell k (snd it) cells
       | None => cells
       end)
    items [].

End GroupBySum.

(* ================================================================== *)
(** ** [groupby(by)[value].pct_change()] *)

Section PctChange.

Context {R G : Type} `{Cmp G}.
Variable by_ : R -> G.
Variable value : R -> Q.

(** The value shifted by one position within the group of [r]: the value
    of the latest earlier row of the same group; [seen] holds the earlier
    rows, latest first. *)
Definition shifted (seen : list R) (r : R) : fnum :=
  match find (fun p => cmp_eqb (by_ p) (by_ r)) seen with
  | Some p => Fin (value p)
  | None => NaN
  end.

(** [(filled / shifted) - 1], row by row. *)
Fixpoint pct_change_from (seen : list R) (l : list R) : list fnum :=
  match l with
  | [] => []
  | r :: tl =>
      fsub (fdiv (Fin (value r)) (shifted seen r)) (Fin 1%Q)
        :: pct_change_from (r :: seen) tl
  end.

Definition pct_change (l : list R) : list fnum := pct_change_from [] l.

End PctChange.

(* ================================================================== *)
(** ** [calculate_growth_metrics] *)

Inductive exn : Type :=
| KeyError (key : string)
| UnboundLocalError (name : string)
| FileNotFoundError
| AttributeError (column : string).

(** One row of a growth table: the period, the value of the grouping
    column, the summed value column and the growth column ([mom_growth],
    [yoy_growth] or [qoq_growth]). *)
Record GrowthRow (P : Type) : Type := mkGrowth {
  period : P;
  group_value : string;
  total_registrations : Q;
  growth_pct : fnum
}.
Arguments mkGrowth {P} _ _ _ _.
Arguments period {P} _.
Arguments group_value {P} _.
Arguments total_registrations {P} _.
Arguments growth_pct {P} _.

(** What [calculate_growth_metrics] reads of a row: the date, the group
    label and the value.  Group labels are text and values are numbers,
    which is what [clean_data] leaves in the columns the callers name. *)
Record Observation : Type := mkObs {
  ob_date : option date;
  ob_group : option string;
  ob_value : option Q
}.

Definition date_of (c : cell) : option date :=
  match c with Date d => Some d | _ => None end.
Definition label_of (c : cell) : option string :=
  match c with Str s => Some s | _ => None end.
Definition number_of (c : cell) : option Q :=
  match c with Num q => Some q | _ => None end.

(** The three columns, or the [KeyError] of the first one that is absent,
    in the order in which the function reads them (lines 101, 107).  The
    date column is a datetime column, as [clean_data] makes every date-named
    column: a cell that is no date has no year, quarter or month. *)
Definition observations (df : DataFrame) (date_col value_col group_col : string)
  : exn + list Observation :=
  match col_index date_col (columns df) with
  | None => inl (KeyError date_col)
  | Some di =>
      match col_index group_col (columns df) with
      | None => inl (KeyError group_col)
      | Some gi =>
          match col_index value_col (columns df) with
          | None => inl (KeyError value_col)
          | Some vi =>
              inr (map (fun r => mkObs (date_of (get_cell di r))
                                       (label_of (get_cell gi r))
                                       (number_of (get_cell vi r)))
                       (rows df))
          end
      end
  end.

(** The key of a row for [groupby(period_columns + [group_col])]. *)
Definition keyed {P : Type} (period_of : date -> P) (o : Observation)
  : option (P * string) * option Q :=
  (match ob_date o, ob_group o with
   | Some d, Some g => Some (period_of d, g)
   | _, _ => None
   end,
   ob_value o).

(** [table[growth] = table.groupby(by)[value].pct_change() * 100] *)
Definition with_growth {P G : Type} `{Cmp G} (by_ : P * string -> G)
    (cells : list ((P * string) * Q)) : list (GrowthRow P) :=
  map (fun cg => mkGrowth (fst (fst (fst cg))) (snd (fst (fst cg))) (snd (fst cg))
                          (fmul (snd cg) (Fin 100%Q)))
      (combine cells (pct_change (fun c => by_ (fst c)) snd cells)).

(** [groupby(group_col)]: the monthly and the yearly change are taken
    within the group value. *)
Definition by_group {P : Type} (k : P * string) : string := snd k.

(** [groupby([group_col, 'year'])]: the quarterly change is taken within
    the group value and the year. *)
Definition by_group_and_year (k : (Z * Z) * string) : string * Z := (snd k, fst (fst k)).

Definition year_month (d : date) : Z * Z := (year d, month d).
Definition year_quarter (d : date) : Z * Z := (year d, quarter d).

(** Line 107-111. The period [year_month] is turned into the timestamp of
    its first day when the table is built; it is kept here as the pair. *)
Definition monthly_growth (obs : list Observation) : list (GrowthRow (Z * Z)) :=
  with_growth by_group (groupby_sum (map (keyed year_month) obs)).

(** Lines 114-117. *)
Definition yearly_growth (obs : list Observation) : list (GrowthRow Z) :=
  with_growth by_group (groupby_sum (map (keyed year) obs)).

(** Lines 120-123: the change is taken within [group_col] and ['year']. *)
Definition quarterly_growth (obs : list Observation) : list (GrowthRow (Z * Z)) :=
  with_growth by_group_and_year (groupby_sum (map (keyed year_quarter) obs)).

Record GrowthTables : Type := mkTables {
  monthly : list (GrowthRow (Z * Z));
  yearly : list (GrowthRow Z);
  quarterly : list (GrowthRow (Z * Z))
}.

Definition growth_tables (obs : list Observation) : GrowthTables :=
  mkTables (monthly_growth obs) (yearly_growth obs) (quarterly_growth obs).

Definition calculate_growth_metrics (df : DataFrame)
    (date_col value_col group_col : string) : exn + GrowthTables :=
  match observations df date_col value_col group_col with
  | inl e => inl e
  | inr obs => inr (growth_tables obs)
  end.

(* ================================================================== *)
(** ** The world of the pipeline: database, output files, standard output *)

(** What a relation or a CSV file holds. *)
Inductive Table : Type :=
| TFrame (df : DataFrame)
| TMonthly (l : list (GrowthRow (Z * Z)))
| TYearly (l : list (GrowthRow Z))
| TQuarterly (l : list (GrowthRow (Z * Z))).

(** The database and the output directory are kept as the writes made to
    them, latest first: a relation or a file is read with [lookup], which
    finds the latest write under the name, so that a write replaces what the
    name held before. *)
Record World : Type := mkWorld {
  db : list (string * Table);       (* the SQLite database, by relation name *)
  files : list (string * Table);    (* the files written, by path *)
  stdout : list string              (* the lines printed, oldest first *)
}.

Fixpoint lookup {A : Type} (name : string) (l : list (string * A)) : option A :=
  match l with
  | [] => None
  | (n, a) :: t => if String.eqb name n then Some a else lookup name t
  end.

(** A computation that reads and writes the world and may raise. *)
Definition M (A : Type) : Type := World -> (exn + A) * World.

Definition ret {A : Type} (a : A) : M A := fun w => (inr a, w).
Definition raise {A : Type} (e : exn) : M A := fun w => (inl e, w).
Definition bind {A B : Type} (c : M A) (k : A -> M B) : M B :=
  fun w =>
    match c w with
    | (inl e, w') => (inl e, w')
    | (inr a, w') => k a w'
    end.
Definition lift {A : Type} (r : exn + A) : M A :=
  match r with
  | inl e => raise e
  | inr a => ret a
  end.

Notation "x <- c ;; k" := (bind c (fun x => k))
  (at level 61, c at next level, right associativity).
Notation "c ;;; k" := (bind c (fun _ => k))
  (at level 61, right associativity).

Definition print (line : string) : M unit :=
  fun w => (inr tt, mkWorld (db w) (files w) (stdout w ++ [line])%list).

(** [table.to_sql(name, conn, if_exists='replace')] *)
Definition to_sql (name : string) (t : Table) : M unit :=
  fun w => (inr tt, mkWorld ((name, t) :: db w) (files w) (stdout w)).

(** [table.to_csv(path)] *)
Definition to_csv (path : string) (t : Table) : M unit :=
  fun w => (inr tt, mkWorld (db w) ((path, t) :: files w) (stdout w)).

(* ================================================================== *)
(** ** [load_data] *)

(** The entries of a directory: the names that [os.listdir] gives, each
    with what [pd.read_csv] does on it, the frame read or the message of the
    exception raised. *)
Definition Listing : Type := list (string * (string + RawFrame)).

(** What is at the path [data_dir]: the entries of the directory, or
    nothing, in which case [os.listdir] raises [FileNotFoundError]. *)
Definition Directory : Type := option Listing.

(** The labels of [pd.concat]: those of the frames, in order of first
    occurrence. *)
Definition union_columns (dfs : list RawFrame) : list string :=
  fold_left
    (fun acc df => (acc ++ filter (fun c => negb (in_columns c acc)) (raw_columns df))%list)
    dfs [].

(** A row under the labels [cols_to]; a label its frame lacks is missing. *)
Definition reindex_row (cols_from cols_to : list string) (r : list (option string))
  : list (option string) :=
  map (fun c => match col_index c cols_from with
                | Some i => nth i r None
                | None => None
                end)
      cols_to.

(** [pd.concat(dfs, ignore_index=True)] *)
Definition concat_frames (dfs : list RawFrame) : RawFrame :=
  let cols := union_columns dfs in
  mkRaw cols
        (flat_map (fun df => map (reindex_row (raw_columns df) cols) (raw_rows df)) dfs).

(** The loop of lines 18-25 on one file. *)
Definition load_file (acc : M (list RawFrame)) (f : string * (string + RawFrame))
  : M (list RawFrame) :=
  dfs <- acc ;;
  match snd f with
  | inr df => print ("Loaded " ++ fst f) ;;; ret (dfs ++ [df])%list
  | inl e => print ("Error loading " ++ fst f ++ ": " ++ e) ;;; ret dfs
  end.

Definition load_data (data_dir : Directory) : M (option RawFrame) :=
  match data_dir with
  | None => raise FileNotFoundError   (* line 11: [os.listdir(data_dir)] *)
  | Some entries =>
      let all_files := filter (fun f => Py.endswith (fst f) ".csv") entries in
      match all_files with
      | [] => print "No data files found." ;;; ret None
      | _ =>
          dfs <- fold_left load_file all_files (ret []) ;;
          match dfs with
          | [] => ret None
          | _ => ret (Some (concat_frames dfs))
          end
      end
  end.

(* ================================================================== *)
(** ** The columns as [pd.read_csv] types them, and the [.str] accessor *)

Fixpoint skip_digits (s : string) : string :=
  match s with
  | String c t => if Py.is_digit c then skip_digits t else s
  | EmptyString => EmptyString
  end.

Definition starts_with_digit (s : string) : bool :=
  match s with
  | String c _ => Py.is_digit c
  | EmptyString => false
  end.

Definition drop_sign (s : string) : string :=
  match s with
  | String c t => if Ascii.eqb c "+"%char || Ascii.eqb c "-"%char then t else s
  | EmptyString => EmptyString
  end.

(** A field that [pd.read_csv] reads as a number: with white space around
    it and a sign before it, digits with at most one point among them and
    an exponent after them, or an infinity. *)
Definition is_number_text (s : string) : bool :=
  let body := drop_sign (Py.strip s) in
  let after_int := skip_digits body in
  let mantissa :=
    match after_int with
    | String "."%char t => (starts_with_digit body || starts_with_digit t, skip_digits t)
    | _ => (starts_with_digit body, after_int)
    end in
  let exponent_ok :=
    match snd mantissa with
    | EmptyString => true
    | String c t =>
        (Ascii.eqb c "e"%char || Ascii.eqb c "E"%char)
        && starts_with_digit (drop_sign t)
        && String.eqb (skip_digits (drop_sign t)) ""
    end in
  (fst mantissa && exponent_ok)
  || existsb (String.eqb (Py.lower body)) ["inf"; "infinity"].

(** A field that [pd.read_csv] reads as a boolean. *)
Definition is_bool_text (s : string) : bool :=
  existsb (String.eqb s) ["True"; "TRUE"; "true"; "False"; "FALSE"; "false"].

(** The fields of the column at position [i]. *)
Definition raw_column (i : nat) (df : RawFrame) : list (option string) :=
  map (fun r => nth i r None) (raw_rows df).

(** Whether a column has the [.str] accessor: it has when it holds texts,
    that is when its fields are neither all numbers nor all booleans, the
    missing ones apart (a column of numbers has the dtype int64 or float64,
    as has a column without any value, and a column of booleans holds
    booleans); the columns of a frame without rows hold texts. *)
Definition has_str_accessor (col : list (option string)) : bool :=
  match col with
  | [] => true
  | _ =>
      negb (forallb (fun c => match c with Some s => is_number_text s | None => true end)
                    col)
      && negb (forallb (fun c => match c with Some s => is_bool_text s | None => true end)
                       col)
  end.

(** [df_clean[label].str] (lines 70 and 82), under the guard that the label
    is one of the frame: [AttributeError] when the label is that of several
    columns, [df_clean[label]] being a frame then, and when its column has
    no [.str] accessor. *)
Definition str_accessor_error (label : string) (df : RawFrame) : option exn :=
  let cols := map standardize_column (raw_columns df) in
  match col_index label cols with
  | None => None
  | Some i =>
      if (1 <? List.length (filter (String.eqb label) cols))%nat
      then Some (AttributeError label)
      else if has_str_accessor (raw_column i df) then None
           else Some (AttributeError label)
  end.

(** The exception that [clean_data] raises, if any; the two conversion
    loops raise none (lines 51-54 and 61-66 catch what is raised). *)
Definition clean_data_raises (df : RawFrame) : option exn :=
  match str_accessor_error "category" df with
  | Some e => Some e
  | None => str_accessor_error "manufacturer" df
  end.

(* ================================================================== *)
(** ** [save_to_sqlite] and [process_data] *)

Definition save_growth (write : string -> Table -> M unit)
    (monthly_name yearly_name quarterly_name : string) (t : GrowthTables) : M unit :=
  write monthly_name (TMonthly (monthly t)) ;;;
  write yearly_name (TYearly (yearly t)) ;;;
  write quarterly_name (TQuarterly (quarterly t)).

Definition save_to_sqlite (df : DataFrame) (db_path : string) : M unit :=
  to_sql "vehicle_registrations" (TFrame df) ;;;
  (if in_columns "category" (columns df) then
     t <- lift (calculate_growth_metrics df "date" "registrations" "category") ;;
     save_growth to_sql "monthly_category_growth" "yearly_category_growth"
                 "quarterly_category_growth" t
   else ret tt) ;;;
  (if in_columns "manufacturer" (columns df) then
     t <- lift (calculate_growth_metrics df "date" "registrations" "manufacturer") ;;
     save_growth to_sql "monthly_manufacturer_growth" "yearly_manufacturer_growth"
                 "quarterly_manufacturer_growth" t
   else ret tt) ;;;
  print ("Data saved to SQLite database: " ++ db_path).

Section Pipeline.

Variable to_datetime : string -> option date.

(** The growth tables of one dimension, written to CSV under [output_dir];
    [None] when the column is absent, in which case the local variables of
    the tables stay unbound. *)
Definition growth_to_csv (df_clean : DataFrame) (dimension output_dir timestamp : string)
  : M (option GrowthTables) :=
  if in_columns dimension (columns df_clean) then
    t <- lift (calculate_growth_metrics df_clean "date" "registrations" dimension) ;;
    save_growth to_csv
      (output_dir ++ "/monthly_" ++ dimension ++ "_growth_" ++ timestamp ++ ".csv")
      (output_dir ++ "/yearly_" ++ dimension ++ "_growth_" ++ timestamp ++ ".csv")
      (output_dir ++ "/quarterly_" ++ dimension ++ "_growth_" ++ timestamp ++ ".csv")
      t ;;;
    print ("Saved " ++ dimension ++ " growth metrics to " ++ output_dir ++ "/") ;;;
    ret (Some t)
  else ret None.

(** [process_data]; [timestamp] is the text of [datetime.now()] at line 172.
    The value returned is [None] (no data) or the cleaned frame with the
    growth tables of the two dimensions.  The creation of the output
    directory (lines 159-160) writes no table and is left out. *)
Definition process_data (data_dir : Directory) (output_dir timestamp : string)
  : M (option (DataFrame * GrowthTables * GrowthTables)) :=
  df <- load_data data_dir ;;
  match df with
  | None => print "No data to process." ;;; ret None
  | Some df =>
      match clean_data_raises df with
      | Some e => raise e   (* line 169: [clean_data] raises *)
      | None =>
          let df_clean := clean_data to_datetime df in
          to_csv (output_dir ++ "/cleaned_data_" ++ timestamp ++ ".csv")
                 (TFrame df_clean) ;;;
          print ("Saved cleaned data to " ++ output_dir ++ "/cleaned_data_"
                 ++ timestamp ++ ".csv") ;;;
          save_to_sqlite df_clean "vehicle_data.db" ;;;
          cat <- growth_to_csv df_clean "category" output_dir timestamp ;;
          man <- growth_to_csv df_clean "manufacturer" output_dir timestamp ;;
          (* line 201: the tuple is built from the local variables, left to right *)
          match cat, man with
          | None, _ => raise (UnboundLocalError "monthly_cat")
          | Some _, None => raise (UnboundLocalError "monthly_man")
          | Some c, Some m => ret (Some (df_clean, c, m))
          end
      end
  end.

End Pipeline.

Definition empty_world : World := mkWorld [] [] [].

(* ================================================================== *)
(** ** Notions used to state the properties *)

Definition is_csv (f : string * (string + RawFrame)) : bool := Py.endswith (fst f) ".csv".

(** The frames of the files that [pd.read_csv] reads. *)
Definition frames_of (fs : list (string * (string + RawFrame))) : list RawFrame :=
  flat_map (fun f => match snd f with inr df => [df] | inl _ => [] end) fs.

(** The CSV files of a directory, none when no directory is there. *)
Definition csv_files (data_dir : Directory) : Listing :=
  match data_dir with
  | Some entries => filter is_csv entries
  | None => []
  end.

(** The frames of the CSV files of a directory that can be read. *)
Definition readable_frames (data_dir : Directory) : list RawFrame :=
  frames_of (csv_files data_dir).

(** The line that loading a file prints. *)
Definition load_line (f : string * (string + RawFrame)) : string :=
  match snd f with
  | inr _ => "Loaded " ++ fst f
  | inl e => "Error loading " ++ fst f ++ ": " ++ e
  end.

(** Cells are kept in the order of their keys. *)
Definition key_lt {K : Type} `{Cmp K} (a b : K * Q) : Prop := cmp (fst a) (fst b) = Lt.

Definition sumQ (l : list Q) : Q := fold_right Qplus 0%Q l.

(** The values that the rows of key [k] have: a row whose value is missing
    has none. *)
Definition cell_values {K : Type} `{Cmp K} (k : K) (items : list (option K * option Q))
  : list Q :=
  flat_map (fun it => match fst it, snd it with
                      | Some k', Some v => if cmp_eqb k' k then [v] else []
                      | _, _ => []
                      end) items.

(** The values of the rows of key [k] when a missing value is filled with
    zero. *)
Definition cell_values_zero_filled {K : Type} `{Cmp K} (k : K)
    (items : list (option K * option Q)) : list Q :=
  flat_map (fun it => match fst it with
                      | Some k' => if cmp_eqb k' k
                                   then [match snd it with Some v => v | None => 0%Q end]
                                   else []
                      | None => []
                      end) items.

(** What [groupby_sum] has made of the rows read so far: the cells are in
    the order of their keys, each holds the sum of the values of the rows of
    its key, and every key read has its cell. *)
Definition cells_of {K : Type} `{Cmp K} (cells : list (K * Q))
    (items : list (option K * option Q)) : Prop :=
  StronglySorted key_lt cells
  /\ (forall k t, In (k, t) cells ->
        (t == sumQ (cell_values k items))%Q /\ exists v, In (Some k, v) items)
  /\ (forall k v, In (Some k, v) items -> In k (map fst cells)).

(** The growth in percent of the value [t] over the shifted value [s]:
    [(t / s - 1) * 100]. *)
Definition pct100 (t : Q) (s : fnum) : fnum :=
  fmul (fsub (fdiv (Fin t) s) (Fin 1%Q)) (Fin 100%Q).

Definition row_key {P : Type} (r : GrowthRow P) : P * string :=
  (period r, group_value r).

Definition cell_of_row {P : Type} (r : GrowthRow P) : (P * string) * Q :=
  (row_key r, total_registrations r).

(** The rows of a growth table built one after the other; [seen] holds the
    cells above, latest first. *)
Fixpoint growth_rows {P G : Type} `{Cmp G} (by_ : P * string -> G)
    (seen cells : list ((P * string) * Q)) : list (GrowthRow P) :=
  match cells with
  | [] => []
  | c :: tl =>
      mkGrowth (fst (fst c)) (snd (fst c)) (snd c)
               (pct100 (snd c) (shifted (fun c => by_ (fst c)) snd seen c))
        :: growth_rows by_ (c :: seen) tl
  end.

(** Two rows of a table are in one group of [pct_change]. *)
Definition same_by {P G : Type} `{Cmp G} (by_ : P * string -> G) (p r : GrowthRow P)
  : bool :=
  cmp_eqb (by_ (row_key p)) (by_ (row_key r)).

(** [r] is the first row of its group in the table. *)
Definition first_in_group {P : Type} (same : GrowthRow P -> GrowthRow P -> bool)
    (table : list (GrowthRow P)) (r : GrowthRow P) : Prop :=
  exists above below,
    table = (above ++ r :: below)%list
    /\ forallb (fun m => negb (same m r)) above = true.

(** [p] is the row of the group of [r] that comes just before [r] in the
    table: no row of the group lies between them. *)
Definition precedes {P : Type} (same : GrowthRow P -> GrowthRow P -> bool)
    (table : list (GrowthRow P)) (p r : GrowthRow P) : Prop :=
  exists above between below,
    table = (above ++ p :: between ++ r :: below)%list
    /\ same p r = true
    /\ forallb (fun m => negb (same m r)) between = true.

(** The value before the first row of group [g], given the cells seen. *)
Definition prev_of {P G : Type} `{Cmp G} (by_ : P * string -> G) (g : G)
    (seen : list ((P * string) * Q)) : fnum :=
  match find (fun p => cmp_eqb (by_ (fst p)) g) seen with
  | Some p => Fin (snd p)
  | None => NaN
  end.

(** The changes of a sequence of totals, each over the one before it. *)
Fixpoint chained_growth (previous : fnum) (totals : list Q) : list fnum :=
  match totals with
  | [] => []
  | t :: rest => pct100 t previous :: chained_growth (Fin t) rest
  end.

(** The growth of the specification: absent for the first total and
    [(total[i] - total[i-1]) / total[i-1] * 100] for the others. *)
Fixpoint growth_formula (previous : option Q) (totals : list Q) : list fnum :=
  match totals with
  | [] => []
  | t :: rest =>
      match previous with
      | None => NaN
      | Some p => Fin ((t - p) / p * 100)%Q
      end :: growth_formula (Some t) rest
  end.

(** The registrations of the rows that fall in the period and group of the
    key [k] and have a date, a group value and a value. *)
Definition present_values {P : Type} `{Cmp P} (period_of : date -> P)
    (k : P * string) (obs : list Observation) : list Q :=
  flat_map (fun o => match ob_date o, ob_group o, ob_value o with
                     | Some d, Some g, Some v =>
                         if cmp_eqb (period_of d, g) k then [v] else []
                     | _, _, _ => []
                     end) obs.

(** The registrations of the rows that fall in the period and group of the
    key [k], a missing value counted as zero. *)
Definition zero_filled_values {P : Type} `{Cmp P} (period_of : date -> P)
    (k : P * string) (obs : list Observation) : list Q :=
  flat_map (fun o => match ob_date o, ob_group o with
                     | Some d, Some g =>
                         if cmp_eqb (period_of d, g) k
                         then [match ob_value o with Some v => v | None => 0%Q end]
                         else []
                     | _, _ => []
                     end) obs.

(** [df[col] = df[col].fillna(0)] *)
Definition fillna_zero (col : string) (df : DataFrame) : DataFrame :=
  assign_column col (fun c => match c with NA => Num 0 | _ => c end) df.

(** What [clean_data] makes of one cell, given the label of its column:
    the four passes of lines 48-89 in their order. *)
Definition clean_cell (to_datetime : string -> option date) (name : string) (c : cell)
  : cell :=
  let c := if is_date_col name then to_datetime_cell to_datetime c else c in
  let c := if is_numeric_col name then to_numeric_cell c else c in
  let c := if String.eqb name "category" then str_cell normalize_category c else c in
  if String.eqb name "manufacturer" then str_cell normalize_manufacturer c else c.

(** [c] returns [v], makes the writes [W] to the database and writes the
    tables [F] to files, whatever the world it starts from. *)
Definition effect {A : Type} (c : M A) (v : exn + A)
    (W : list (string * Table)) (F : list Table) : Prop :=
  forall w,
    fst (c w) = v
    /\ db (snd (c w)) = (W ++ db w)%list
    /\ map snd (files (snd (c w))) = (F ++ map snd (files w))%list.

(** Two computations with one effect: they may differ in the lines they
    print and in the paths of the files they write. *)
Definition agree {A : Type} (c1 c2 : M A) : Prop :=
  exists v W F, effect c1 v W F /\ effect c2 v W F.

(* ================================================================== *)
(** ** Inputs of the scenarios *)

(** Two rows of one month whose categories are an alias and its canonical
    value. *)
Definition alias_scenario : RawFrame :=
  mkRaw ["date"; "category"; "registrations"]
        [ [Some "2023-01-15"; Some "TWO WHEELER"; Some "100"];
          [Some "2023-01-20"; Some "2W"; Some "50"] ].

(** Two rows of one month, the manufacturer once as an alias and once as
    the canonical name that cleaning gives it. *)
Definition hero_scenario : RawFrame :=
  mkRaw ["date"; "manufacturer"; "registrations"]
        [ [Some "2023-01-15"; Some "Hero"; Some "100"];
          [Some "2023-01-20"; Some "Hero MotoCorp"; Some "50"] ].

(** A directory with one file that has a date and a count and neither a
    category nor a manufacturer. *)
Definition date_count_dir : Directory :=
  Some [ ("vahan.csv",
          inr (mkRaw ["Date"; "Count"] [ [Some "2023-01-15"; Some "100"] ])) ].

(** Monthly totals 100, 150 and 0 of one category. *)
Definition growth_scenario : RawFrame :=
  mkRaw ["date"; "category"; "registrations"]
        [ [Some "2023-01-10"; Some "2W"; Some "100"];
          [Some "2023-02-10"; Some "2W"; Some "150"];
          [Some "2023-03-10"; Some "2W"; Some "0"] ].

Definition no_tables : GrowthTables := mkTables [] [] [].

(** The tables that [calculate_growth_metrics] returns on a cleaned
    scenario, by category. *)
Definition tables_by_category (raw : RawFrame) : GrowthTables :=
  match calculate_growth_metrics (clean_data iso_date raw)
                                 "date" "registrations" "category" with
  | inr t => t
  | inl _ => no_tables
  end.

Definition growth_scenario_tables : GrowthTables :=
  Eval vm_compute in tables_by_category growth_scenario.

(** A month whose total is zero, followed by a month whose total is not. *)
Definition zero_scenario : RawFrame :=
  mkRaw ["date"; "category"; "registrations"]
        [ [Some "2023-01-10"; Some "2W"; Some "0"];
          [Some "2023-02-10"; Some "2W"; Some "100"] ].

Definition zero_scenario_tables : GrowthTables :=
  Eval vm_compute in tables_by_category zero_scenario.

(** The last quarter of a year followed by the first quarter of the next. *)
Definition new_year_scenario : RawFrame :=
  mkRaw ["date"; "category"; "registrations"]
        [ [Some "2022-11-10"; Some "2W"; Some "100"];
          [Some "2023-02-10"; Some "2W"; Some "150"] ].

Definition new_year_scenario_tables : GrowthTables :=
  Eval vm_compute in tables_by_category new_year_scenario.

(** Two rows of one month and category, one without registrations. *)
Definition missing_scenario : RawFrame :=
  mkRaw ["date"; "category"; "registrations"]
        [ [Some "2023-01-15"; Some "2W"; Some "100"];
          [Some "2023-01-20"; Some "2W"; None] ].

Definition missing_scenario_tables : GrowthTables :=
  Eval vm_compute in tables_by_category missing_scenario.

(** A row whose count carries a minus sign. *)
Definition signed_scenario : RawFrame :=
  mkRaw ["Date"; "Category"; "Registrations"]
        [ [Some "2023-01-15"; Some "2W"; Some "-250"] ].

(** A growth that is absent, positive infinity, or a number not below
    -100: what the change of a total that is not negative over a total that
    is not negative can be. *)
Definition not_below_minus_100 (x : fnum) : Prop :=
  match x with
  | NaN => True
  | Inf negative => negative = false
  | Fin q => (-100 <= q)%Q
  end.

(** The first character of a text is no white space. *)
Definition head_ok (s : string) : bool :=
  match s with
  | EmptyString => true
  | String c _ => negb (Py.is_space c)
  end.

(** The last character of a text is no white space. *)
Fixpoint last_ok (s : string) : bool :=
  match s with
  | EmptyString => true
  | String c EmptyString => negb (Py.is_space c)
  | String _ t => last_ok t
  end.

(** What line 46 makes of one character that [strip] has kept. *)
Definition standardize_char (c : ascii) : ascii :=
  if Ascii.eqb (Py.lower_char c) " "%char then "_"%char else Py.lower_char c.


(** A file with the four columns that the pipeline reads. *)
Definition full_dir : Directory :=
  Some [ ("vahan.csv",
          inr (mkRaw ["Date"; "Category"; "Manufacturer"; "Registrations"]
                     [ [Some "2023-01-15"; Some "2W"; Some "Hero"; Some "100"] ])) ].

(* ================================================================== *)
(** ** The dashboard ([app.py]): the filters of the side bar *)

(** [series.isin(selected)] on a text. *)
Definition isin (selected : list string) (s : string) : bool :=
  existsb (String.eqb s) selected.

(** A cell that is no text is none of the selected texts. *)
Definition isin_cell (selected : list string) (c : cell) : bool :=
  match c with
  | Str s => isin selected s
  | _ => false
  end.

(** [df[df[col].isin(selected)]] (lines 196 and 208). *)
Definition select_rows (col : string) (selected : list string) (df : DataFrame)
  : exn + DataFrame :=
  match col_index col (columns df) with
  | None => inl (KeyError col)
  | Some i =>
      inr (mkFrame (columns df)
                   (filter (fun r => isin_cell selected (get_cell i r)) (rows df)))
  end.

(** [table[table[group_col].isin(selected)]] (lines 227, 248, 272, 295). *)
Definition select_groups {P : Type} (selected : list string)
    (table : list (GrowthRow P)) : list (GrowthRow P) :=
  filter (fun r => isin selected (group_value r)) table.

(** The three tables, each with the rows of the selected group values. *)
Definition select_tables (selected : list string) (t : GrowthTables) : GrowthTables :=
  mkTables (select_groups selected (monthly t))
           (select_groups selected (yearly t))
           (select_groups selected (quarterly t)).

(** Registrations of three months in two categories. *)
Definition two_category_scenario : RawFrame :=
  mkRaw ["date"; "category"; "registrations"]
        [ [Some "2023-01-10"; Some "2W"; Some "100"];
          [Some "2023-01-12"; Some "4W"; Some "40"];
          [Some "2023-02-10"; Some "2W"; Some "150"];
          [Some "2023-02-11"; Some "4W"; Some "30"];
          [Some "2023-04-10"; Some "2W"; Some "120"] ].

(* ================================================================== *)
(** ** The dashboard ([app.py]): market share *)

(** A row of the table of lines 359-360 (377-378 for the manufacturers):
    the group value, its registrations and its share in percent. *)
Record ShareRow : Type := mkShare {
  share_group : string;
  share_registrations : Q;
  share : fnum
}.

(** Lines 357-360: [groupby(group_col)['registrations'].sum()], and each
    sum over the sum of the sums, times 100.  No table is made when one of
    the two columns is absent (the guard of line 357). *)
Definition market_share (df : DataFrame) (group_col : string) : option (list ShareRow) :=
  match col_index group_col (columns df), col_index "registrations" (columns df) with
  | Some gi, Some vi =>
      let sums :=
        groupby_sum (map (fun r => (label_of (get_cell gi r), number_of (get_cell vi r)))
                         (rows df)) in
      let whole := sumQ (map snd sums) in
      Some (map (fun c => mkShare (fst c) (snd c)
                                  (fmul (fdiv (Fin (snd c)) (Fin whole)) (Fin 100%Q)))
                sums)
  | _, _ => None
  end.

(** No number of the column is negative. *)
Definition column_not_negative (col : string) (df : DataFrame) : Prop :=
  forall i r q,
    col_index col (columns df) = Some i -> In r (rows df) -> get_cell i r = Num q ->
    (0 <= q)%Q.

(* ================================================================== *)
(** ** The dashboard ([app.py]): the chart of the latest quarter *)

(** [series.max()] on whole numbers: absent when there is no value. *)
Definition series_max (l : list Z) : option Z :=
  match l with
  | [] => None
  | x :: t => Some (fold_left Z.max t x)
  end.

(** Lines 271-278 (and 294-301): the rows of the quarterly table that the
    bar chart of the quarter-over-quarter growth shows, those of the
    selected group values in the latest quarter of the latest year.  No
    chart is drawn when nothing is selected; a maximum that is absent
    equals no year and no quarter. *)
Definition qoq_latest (selected : list string) (quarterly_table : list (GrowthRow (Z * Z)))
  : option (list (GrowthRow (Z * Z))) :=
  match selected with
  | [] => None
  | _ =>
      let filtered := select_groups selected quarterly_table in
      Some
        match series_max (map (fun r => fst (period r)) filtered) with
        | None => []
        | Some latest_year =>
            match series_max
                    (map (fun r => snd (period r))
                         (filter (fun r => Z.eqb (fst (period r)) latest_year) filtered))
            with
            | None => []
            | Some latest_quarter =>
                filter (fun r => Z.eqb (fst (period r)) latest_year
                                 && Z.eqb (snd (period r)) latest_quarter)
                       filtered
            end
        end
  end.

(** The quarter of [p] is not after the quarter of [r]. *)
Definition not_after (p r : GrowthRow (Z * Z)) : Prop :=
  fst (period p) < fst (period r)
  \/ (fst (period p) = fst (period r) /\ snd (period p) <= snd (period r)).

(** Totals 100, 150 and 0 of one category in three months of two years,
    beside a row of another category. *)
Definition two_year_scenario : RawFrame :=
  mkRaw ["date"; "category"; "registrations"]
        [ [Some "2022-12-10"; Some "2W"; Some "100"];
          [Some "2023-01-10"; Some "2W"; Some "150"];
          [Some "2023-01-12"; Some "4W"; Some "40"];
          [Some "2023-02-10"; Some "2W"; Some "0"] ].

Definition two_year_scenario_tables : GrowthTables :=
  Eval vm_compute in tables_by_category two_year_scenario.

(** The registrations that the rows read from the frame have. *)
Definition values_of (obs : list Observation) : list Q :=
  flat_map (fun o => match ob_value o with Some v => [v] | None => [] end) obs.

(** A number within the range of a 64-bit integer. *)
Definition int64_range (q : Q) : Prop :=
  (- inject_Z (2 ^ 63) <= q)%Q /\ (q < inject_Z (2 ^ 63))%Q.

(** The registrations add up, in absolute value, to less than 2^63: no sum
    of some of them leaves the range of a 64-bit integer, in which the sum
    of a column of whole numbers is taken (beyond it the sum wraps
    around). *)
Definition sums_fit_int64 (obs : list Observation) : Prop :=
  (sumQ (map Qabs (values_of obs)) < inject_Z (2 ^ 63))%Q.

(** The labels of the frame stay distinct when [clean_data] standardizes
    them (line 46): no two columns of the cleaned frame share a label, so
    that [df_clean[col]] is one column. *)
Definition distinct_labels (df : RawFrame) : Prop :=
  NoDup (map standardize_column (raw_columns df)).

(** A text of ASCII characters, on which [str.upper], [str.lower] and
    [str.title] change the letters a-z and A-Z only. *)
Definition is_ascii_text (s : string) : bool :=
  Py.all_chars (fun c => (Py.code c <? 128)%N) s.



(* ================================================================== *)
(** * Properties *)

(** ** Text *)

Lemma upper_char_idem (c : ascii) : Py.upper_char (Py.upper_char c) = Py.upper_char c.
Proof.
  destruct c as [b0 b1 b2 b3 b4 b5 b6 b7].
  destruct b0, b1, b2, b3, b4, b5, b6, b7; reflexivity.
Qed.

Lemma upper_idem (s : string) : Py.upper (Py.upper s) = Py.upper s.
Proof.
  unfold Py.upper.
  induction s as [|c t IH]; simpl; [reflexivity|].
  now rewrite upper_char_idem, IH.
Qed.

Lemma replace_value_miss (table : list (string * string)) (s : string) :
  forallb (fun kv => negb (String.eqb s (fst kv))) table = true ->
  replace_value table s = s.
Proof.
  induction table as [|[k v] t IH]; simpl; [reflexivity|].
  intros H. apply andb_prop in H as [Hk Ht].
  apply negb_true_iff in Hk. rewrite Hk. now apply IH.
Qed.

Lemma replace_value_hit_or_miss (table : list (string * string)) (s : string) :
  forallb (fun kv => negb (String.eqb s (fst kv))) table = true
  \/ In (replace_value table s) (map snd table).
Proof.
  induction table as [|[k v] t IH]; simpl; [now left|].
  destruct (String.eqb s k); simpl.
  - right. now left.
  - destruct IH as [IH|IH]; [now left | right; now right].
Qed.

(** C7. Normalizing a category twice is the same as normalizing it once; a
    canonical value (2W, 3W, 4W) is returned unchanged; the alias
    TWO WHEELER has the canonical value of 2W; and two rows of one month
    labelled TWO WHEELER (100) and 2W (50) are both cleaned to 2W and make a
    single monthly cell whose total is 150 and whose growth is absent. *)
Theorem category_aliasing_idempotent :
  (forall s, normalize_category (normalize_category s) = normalize_category s)
  /\ normalize_category "2W" = "2W"
  /\ normalize_category "3W" = "3W"
  /\ normalize_category "4W" = "4W"
  /\ normalize_category "TWO WHEELER" = normalize_category "2W"
  /\ (let df := clean_data iso_date alias_scenario in
      rows df = [ [Date (mkDate 2023 1 15); Str "2W"; Num 100];
                  [Date (mkDate 2023 1 20); Str "2W"; Num 50] ]
      /\ exists t, calculate_growth_metrics df "date" "registrations" "category" = inr t
                   /\ monthly t = [mkGrowth (2023, 1) "2W" 150 NaN]).
Proof.
  split; [|repeat split; try reflexivity].
  - intros s. unfold normalize_category.
    destruct (replace_value_hit_or_miss category_aliases (Py.upper s)) as [Hmiss|Hhit].
    + rewrite (replace_value_miss _ _ Hmiss), upper_idem.
      now rewrite (replace_value_miss _ _ Hmiss).
    + change (map snd category_aliases)
        with ["2W"; "3W"; "4W"; "2W"; "3W"; "4W"] in Hhit.
      cbn [In] in Hhit.
      repeat (destruct Hhit as [Hhit|Hhit]; [rewrite <- Hhit; reflexivity|]).
      contradiction.
  - eexists. split; reflexivity.
Qed.

(** C10. Cleaning a manufacturer twice is not cleaning it once: the alias
    Hero is cleaned to Hero MotoCorp, and Hero MotoCorp is title-cased to
    Hero Motocorp, which is no key of the alias table and stays; so rows
    labelled Hero and Hero MotoCorp in one month are cleaned to two labels
    and make two cells. *)
Theorem manufacturer_normalization_not_idempotent :
  normalize_manufacturer "Hero" = "Hero MotoCorp"
  /\ normalize_manufacturer "Hero MotoCorp" = "Hero Motocorp"
  /\ normalize_manufacturer (normalize_manufacturer "Hero") <> normalize_manufacturer "Hero"
  /\ lookup "Hero Motocorp" manufacturer_aliases = None
  /\ (let df := clean_data iso_date hero_scenario in
      map (fun r => nth 1 r NA) (rows df) = [Str "Hero MotoCorp"; Str "Hero Motocorp"]
      /\ exists t, calculate_growth_metrics df "date" "registrations" "manufacturer" = inr t
                   /\ monthly t = [ mkGrowth (2023, 1) "Hero MotoCorp" 100 NaN;
                                    mkGrowth (2023, 1) "Hero Motocorp" 50 NaN ]).
Proof.
  repeat split; try reflexivity.
  - intros H. vm_compute in H. discriminate H.
  - eexists. split; reflexivity.
Qed.

(** ** The pipeline and its world *)

Lemma lookup_app {A : Type} (name : string) (l1 l2 : list (string * A)) :
  lookup name (l1 ++ l2) =
  match lookup name l1 with Some a => Some a | None => lookup name l2 end.
Proof.
  induction l1 as [|[n a] t IH]; simpl; [reflexivity|].
  destruct (String.eqb name n); [reflexivity | exact IH].
Qed.

Lemma fold_load_file (fs : list (string * (string + RawFrame))) :
  forall (acc : M (list RawFrame)) w a w1,
    acc w = (inr a, w1) ->
    fold_left load_file fs acc w =
    (inr (a ++ frames_of fs)%list,
     mkWorld (db w1) (files w1) (stdout w1 ++ map load_line fs)%list).
Proof.
  induction fs as [|f fs IH]; intros acc w a w1 Hacc; simpl.
  - rewrite Hacc, !app_nil_r. now destruct w1.
  - rewrite (IH (load_file acc f) w (a ++ frames_of [f])%list
               (mkWorld (db w1) (files w1) (stdout w1 ++ [load_line f])%list)).
    + simpl. rewrite app_nil_r, <- !app_assoc. reflexivity.
    + unfold load_file, bind, frames_of, load_line. rewrite Hacc.
      destruct f as [name [e|df]]; simpl; [now rewrite app_nil_r | reflexivity].
Qed.

Lemma load_data_spec (data_dir : Directory) (w : World) :
  load_data data_dir w =
  match data_dir with
  | None => (inl FileNotFoundError, w)
  | Some _ =>
      (inr (match readable_frames data_dir with
            | [] => None
            | l => Some (concat_frames l)
            end),
       mkWorld (db w) (files w)
               (stdout w ++ match csv_files data_dir with
                            | [] => ["No data files found."]
                            | fs => map load_line fs
                            end)%list)
  end.
Proof.
  destruct data_dir as [entries|]; [|reflexivity].
  unfold load_data, readable_frames, csv_files.
  change (filter (fun f => Py.endswith (fst f) ".csv") entries)
    with (filter is_csv entries).
  destruct (filter is_csv entries) as [|f fs] eqn:E; [reflexivity|].
  unfold bind at 1.
  rewrite (fold_load_file (f :: fs) (ret []) w [] w eq_refl).
  simpl app at 1.
  now destruct (frames_of (f :: fs)).
Qed.

(** C3. On a directory whose only file has a date and a count, and neither
    a category nor a manufacturer, [process_data] persists the relation
    vehicle_registrations with the row retained and writes no growth
    relation, and then raises [UnboundLocalError] at its return statement
    instead of completing; the relation persisted has no category and no
    manufacturer column at all. *)
Theorem process_data_raises_without_category :
  let r := process_data iso_date date_count_dir "processed_data" "20230115_120000"
                        empty_world in
  fst r = inl (UnboundLocalError "monthly_cat")
  /\ db (snd r) =
     [ ("vehicle_registrations",
        TFrame (mkFrame ["date"; "count"] [ [Date (mkDate 2023 1 15); Num 100] ])) ]
  /\ lookup "monthly_category_growth" (db (snd r)) = None
  /\ lookup "monthly_manufacturer_growth" (db (snd r)) = None.
Proof.
  repeat split; reflexivity.
Qed.

Lemma bind_inr {A B : Type} (c : M A) (k : A -> M B) (w : World) (b : B) :
  fst (bind c k w) = inr b ->
  exists a w', c w = (inr a, w') /\ fst (k a w') = inr b.
Proof.
  unfold bind. destruct (c w) as [[e|a] w']; simpl; [discriminate|].
  intros H. now exists a, w'.
Qed.

Lemma growth_to_csv_some (df : DataFrame) (dimension output_dir timestamp : string)
    (w w' : World) (t : GrowthTables) :
  growth_to_csv df dimension output_dir timestamp w = (inr (Some t), w') ->
  in_columns dimension (columns df) = true
  /\ calculate_growth_metrics df "date" "registrations" dimension = inr t.
Proof.
  unfold growth_to_csv.
  destruct (in_columns dimension (columns df)); [|discriminate].
  unfold bind at 1.
  destruct (calculate_growth_metrics df "date" "registrations" dimension) as [e|t0];
    [discriminate|].
  cbn. intros [= -> _]. now split.
Qed.

(** Whenever [process_data] returns tables, the cleaned frame has both a
    category and a manufacturer column (with either one absent the call
    ends in an exception), the frame returned is the cleaned concatenation
    of the frames read, and the tables returned are those of
    [calculate_growth_metrics] on it. *)
Lemma process_data_returns
    (to_datetime : string -> option date) (data_dir : Directory)
    (output_dir timestamp : string) (w : World) df tc tm :
  fst (process_data to_datetime data_dir output_dir timestamp w) = inr (Some (df, tc, tm)) ->
  df = clean_data to_datetime (concat_frames (readable_frames data_dir))
  /\ in_columns "category" (columns df) = true
  /\ in_columns "manufacturer" (columns df) = true
  /\ calculate_growth_metrics df "date" "registrations" "category" = inr tc
  /\ calculate_growth_metrics df "date" "registrations" "manufacturer" = inr tm.
Proof.
  unfold process_data. intros H.
  apply bind_inr in H as (loaded & w1 & Hload & H).
  rewrite load_data_spec in Hload.
  destruct data_dir as [entries|]; [|discriminate Hload].
  injection Hload as Hloaded _.
  destruct loaded as [raw|]; [|discriminate H].
  assert (Hraw : raw = concat_frames (readable_frames (Some entries)))
    by (destruct (readable_frames (Some entries)); [discriminate | congruence]).
  destruct (clean_data_raises raw); [discriminate H|].
  cbv zeta in H.
  apply bind_inr in H as (? & w2 & _ & H).
  apply bind_inr in H as (? & w3 & _ & H).
  apply bind_inr in H as (? & w4 & _ & H).
  apply bind_inr in H as (cat & w5 & Hcat & H).
  apply bind_inr in H as (man & w6 & Hman & H).
  destruct cat as [c|]; [|discriminate H].
  destruct man as [m|]; [|discriminate H].
  simpl in H. injection H as Hdf -> ->. subst df raw.
  apply growth_to_csv_some in Hcat as [Hc1 Hc2].
  apply growth_to_csv_some in Hman as [Hm1 Hm2].
  now repeat split.
Qed.

(** C9, as the code has it. On a data directory that exists, loading
    raises nothing: its result is made of the frames of the CSV files that
    can be read, in the order of the directory, whatever the files that
    cannot be read; each file that cannot be read is reported on standard
    output, and so is each file read; and when no CSV file can be read,
    [process_data] prints that there is no data to process and returns
    [None] without raising and without writing any relation or file.  On a
    data directory that does not exist, [load_data] raises
    [FileNotFoundError] and [process_data] with it, no line being printed
    and no relation or file written. *)
Theorem unreadable_files_are_skipped :
  forall (to_datetime : string -> option date) (entries : Listing)
         (output_dir timestamp : string) (w : World),
    let data_dir := Some entries in
    let loaded := load_data data_dir w in
    let r := process_data to_datetime data_dir output_dir timestamp w in
    let missing := process_data to_datetime None output_dir timestamp w in
    fst loaded = inr (match readable_frames data_dir with
                      | [] => None
                      | l => Some (concat_frames l)
                      end)
    /\ readable_frames data_dir
       = flat_map (fun f => match snd f with inr df => [df] | inl _ => [] end)
                  (filter (fun f => Py.endswith (fst f) ".csv") entries)
    /\ (forall name msg,
          In (name, inl msg) entries -> Py.endswith name ".csv" = true ->
          In ("Error loading " ++ name ++ ": " ++ msg) (stdout (snd loaded)))
    /\ (forall name df,
          In (name, inr df) entries -> Py.endswith name ".csv" = true ->
          In ("Loaded " ++ name) (stdout (snd loaded))
          /\ In df (readable_frames data_dir))
    /\ (readable_frames data_dir = [] ->
          fst r = inr None
          /\ db (snd r) = db w
          /\ files (snd r) = files w
          /\ last (stdout (snd r)) "" = "No data to process.")
    /\ load_data None w = (inl FileNotFoundError, w)
    /\ missing = (inl FileNotFoundError, w).
Proof.
  intros to_datetime entries output_dir timestamp w. cbv zeta.
  assert (Hline : forall f, In f entries -> is_csv f = true ->
                            In (load_line f) (stdout (snd (load_data (Some entries) w)))).
  { intros f Hin Hcsv. rewrite load_data_spec. cbn [snd stdout csv_files].
    assert (Hf : In f (filter is_csv entries)) by (apply filter_In; now split).
    apply in_or_app. right.
    destruct (filter is_csv entries) as [|f0 fs]; [contradiction|].
    now apply in_map. }
  split; [|split; [|split; [|split; [|split; [|split]]]]].
  - now rewrite load_data_spec.
  - reflexivity.
  - intros name msg Hin Hcsv. exact (Hline (name, inl msg) Hin Hcsv).
  - intros name df Hin Hcsv. split; [exact (Hline (name, inr df) Hin Hcsv)|].
    unfold readable_frames, frames_of, csv_files. apply in_flat_map.
    exists (name, inr df). split; [|now left].
    apply filter_In. split; [exact Hin | exact Hcsv].
  - intros Hnone. unfold process_data, bind.
    rewrite load_data_spec, Hnone. cbn.
    repeat split. apply last_last.
  - reflexivity.
  - reflexivity.
Qed.

(** C9 as stated fails when no data directory is there, which is a case
    of no readable input: nothing is reported, neither the line "No data
    files found." nor the line "No data to process.", and the call ends in
    [FileNotFoundError] instead of returning [None]. *)
Lemma missing_directory_raises :
  let r := process_data iso_date None "processed_data" "20230115_120000" empty_world in
  readable_frames None = []
  /\ fst (load_data None empty_world) = inl FileNotFoundError
  /\ fst r = inl FileNotFoundError
  /\ fst r <> inr None
  /\ stdout (snd r) = []
  /\ db (snd r) = []
  /\ files (snd r) = [].
Proof.
  cbv zeta. repeat split. discriminate.
Qed.

Lemma effect_ret {A : Type} (a : A) : effect (ret a) (inr a) [] [].
Proof. intros w. now repeat split. Qed.

Lemma effect_raise {A : Type} (e : exn) : effect (@raise A e) (inl e) [] [].
Proof. intros w. now repeat split. Qed.

Lemma effect_lift {A : Type} (r : exn + A) : effect (lift r) r [] [].
Proof. destruct r; [apply effect_raise | apply effect_ret]. Qed.

Lemma effect_print (line : string) : effect (print line) (inr tt) [] [].
Proof. intros w. now repeat split. Qed.

Lemma effect_to_sql (name : string) (t : Table) :
  effect (to_sql name t) (inr tt) [(name, t)] [].
Proof. intros w. now repeat split. Qed.

Lemma effect_to_csv (path : string) (t : Table) :
  effect (to_csv path t) (inr tt) [] [t].
Proof. intros w. now repeat split. Qed.

Lemma effect_load_data (data_dir : Directory) :
  effect (load_data data_dir)
         (match data_dir with
          | None => inl FileNotFoundError
          | Some _ => inr (match readable_frames data_dir with
                           | [] => None
                           | l => Some (concat_frames l)
                           end)
          end) [] [].
Proof.
  intros w. rewrite load_data_spec. destruct data_dir; now repeat split.
Qed.

Lemma effect_bind {A B : Type} (c : M A) (k : A -> M B) v W F :
  effect c v W F ->
  match v with
  | inl e => effect (bind c k) (inl e) W F
  | inr a => forall v' W' F', effect (k a) v' W' F' ->
                              effect (bind c k) v' (W' ++ W) (F' ++ F)
  end.
Proof.
  intros Hc. destruct v as [e|a].
  - intros w. destruct (Hc w) as (Hv & Hdb & Hf).
    unfold bind. destruct (c w) as [r w']. simpl in *. subst r. now repeat split.
  - intros v' W' F' Hk w. destruct (Hc w) as (Hv & Hdb & Hf).
    unfold bind. destruct (c w) as [r w']. simpl in *. subst r.
    destruct (Hk w') as (Hv' & Hdb' & Hf').
    rewrite Hv', Hdb', Hf', Hdb, Hf, <- !app_assoc. now repeat split.
Qed.

Lemma agree_of_effect {A : Type} (c1 c2 : M A) v W F :
  effect c1 v W F -> effect c2 v W F -> agree c1 c2.
Proof. intros H1 H2. now exists v, W, F. Qed.

Lemma agree_bind {A B : Type} (c1 c2 : M A) (k1 k2 : A -> M B) :
  agree c1 c2 -> (forall a, agree (k1 a) (k2 a)) -> agree (bind c1 k1) (bind c2 k2).
Proof.
  intros (v & W & F & H1 & H2) Hk. destruct v as [e|a].
  - exists (inl e), W, F. split.
    + exact (effect_bind c1 k1 _ _ _ H1).
    + exact (effect_bind c2 k2 _ _ _ H2).
  - destruct (Hk a) as (v' & W' & F' & K1 & K2).
    exists v', (W' ++ W)%list, (F' ++ F)%list. split.
    + exact (effect_bind c1 k1 _ _ _ H1 _ _ _ K1).
    + exact (effect_bind c2 k2 _ _ _ H2 _ _ _ K2).
Qed.

Ltac agree_leaf :=
  first [ eapply agree_of_effect; apply effect_ret
        | eapply agree_of_effect; apply effect_raise
        | eapply agree_of_effect; apply effect_lift
        | eapply agree_of_effect; apply effect_print
        | eapply agree_of_effect; apply effect_to_sql
        | eapply agree_of_effect; apply effect_to_csv
        | eapply agree_of_effect; apply effect_load_data ].

Ltac agree_steps :=
  repeat first [ agree_leaf | apply agree_bind; [|intros] ].

Lemma agree_save_growth (write1 write2 : string -> Table -> M unit)
    (m1 y1 q1 m2 y2 q2 : string) (t : GrowthTables) :
  (forall n1 n2 x, (n1, n2) = (m1, m2) \/ (n1, n2) = (y1, y2) \/ (n1, n2) = (q1, q2) ->
                   agree (write1 n1 x) (write2 n2 x)) ->
  agree (save_growth write1 m1 y1 q1 t) (save_growth write2 m2 y2 q2 t).
Proof.
  intros Hw. unfold save_growth.
  repeat first [ apply Hw; tauto | apply agree_bind; [|intros] ].
Qed.

Lemma agree_save_to_sqlite (df : DataFrame) (p1 p2 : string) :
  agree (save_to_sqlite df p1) (save_to_sqlite df p2).
Proof.
  unfold save_to_sqlite.
  apply agree_bind; [agree_leaf | intros].
  apply agree_bind; [|intros].
  - destruct (in_columns "category" (columns df)); [|agree_leaf].
    apply agree_bind; [agree_leaf | intros].
    apply agree_save_growth.
    intros n1 n2 x [E|[E|E]]; injection E as -> ->; agree_leaf.
  - apply agree_bind; [|intros; agree_leaf].
    destruct (in_columns "manufacturer" (columns df)); [|agree_leaf].
    apply agree_bind; [agree_leaf | intros].
    apply agree_save_growth.
    intros n1 n2 x [E|[E|E]]; injection E as -> ->; agree_leaf.
Qed.

Lemma agree_growth_to_csv (df : DataFrame) (dimension out1 ts1 out2 ts2 : string) :
  agree (growth_to_csv df dimension out1 ts1) (growth_to_csv df dimension out2 ts2).
Proof.
  unfold growth_to_csv.
  destruct (in_columns dimension (columns df)); [|agree_leaf].
  apply agree_bind; [agree_leaf | intros].
  apply agree_bind; [apply agree_save_growth; intros; agree_leaf | intros].
  agree_steps.
Qed.

Lemma agree_process_data (to_datetime : string -> option date) (data_dir : Directory)
    (out1 ts1 out2 ts2 : string) :
  agree (process_data to_datetime data_dir out1 ts1)
        (process_data to_datetime data_dir out2 ts2).
Proof.
  unfold process_data.
  apply agree_bind; [agree_leaf | intros loaded].
  destruct loaded as [raw|]; [|agree_steps].
  destruct (clean_data_raises raw); [agree_leaf|].
  cbv zeta.
  apply agree_bind; [agree_leaf | intros].
  apply agree_bind; [agree_leaf | intros].
  apply agree_bind; [apply agree_save_to_sqlite | intros].
  apply agree_bind; [apply agree_growth_to_csv | intros cat].
  apply agree_bind; [apply agree_growth_to_csv | intros man].
  destruct cat, man; agree_leaf.
Qed.

(** C6. The pipeline is a function of its input: run on the same directory
    at another time it returns the same value, leaves the same database and
    writes the same tables (the clock only names the files); run a second
    time on what the first run left it returns the same value again and
    every relation reads as after the first run.  The tables it returns are
    the value of the calculator at the cleaned frame; the calculator,
    [calculate_growth_metrics], is a function of the frame and of the three
    column names only, which neither reads nor writes the world. *)
Theorem pipeline_is_deterministic :
  forall (to_datetime : string -> option date) (data_dir : Directory)
         (output_dir ts1 ts2 : string) (w : World),
    let first := process_data to_datetime data_dir output_dir ts1 w in
    let again := process_data to_datetime data_dir output_dir ts2 w in
    let rerun := process_data to_datetime data_dir output_dir ts2 (snd first) in
    fst again = fst first
    /\ db (snd again) = db (snd first)
    /\ map snd (files (snd again)) = map snd (files (snd first))
    /\ fst rerun = fst first
    /\ (forall name, lookup name (db (snd rerun)) = lookup name (db (snd first)))
    /\ (forall df tc tm,
          fst first = inr (Some (df, tc, tm)) ->
          df = clean_data to_datetime (concat_frames (readable_frames data_dir))
          /\ calculate_growth_metrics df "date" "registrations" "category" = inr tc
          /\ calculate_growth_metrics df "date" "registrations" "manufacturer" = inr tm).
Proof.
  intros to_datetime data_dir output_dir ts1 ts2 w. cbv zeta.
  assert (Hvalue : forall df tc tm,
             fst (process_data to_datetime data_dir output_dir ts1 w)
             = inr (Some (df, tc, tm)) ->
             df = clean_data to_datetime (concat_frames (readable_frames data_dir))
             /\ calculate_growth_metrics df "date" "registrations" "category" = inr tc
             /\ calculate_growth_metrics df "date" "registrations" "manufacturer"
                = inr tm).
  { intros df tc tm Hret.
    destruct (process_data_returns _ _ _ _ _ _ _ _ Hret) as (Hdf & _ & _ & Hc & Hm).
    now repeat split. }
  destruct (agree_process_data to_datetime data_dir output_dir ts1 output_dir ts2)
    as (v & W & F & H1 & H2).
  destruct (H1 w) as (V1 & D1 & F1).
  destruct (H2 w) as (V2 & D2 & F2).
  destruct (H2 (snd (process_data to_datetime data_dir output_dir ts1 w)))
    as (V3 & D3 & _).
  split; [congruence|]. split; [congruence|]. split; [congruence|].
  split; [congruence|]. split; [|exact Hvalue].
  intros name. rewrite D3, D1, !lookup_app.
  now destruct (lookup name W).
Qed.

(** ** Cleaning, cell by cell *)



Lemma map_row_ext_in f g cols r :
  (forall name c, In name cols -> f name c = g name c) ->
  map_row f cols r = map_row g cols r.
Proof.
  revert cols. induction r as [|x xs IH]; intros [|n ns] H; simpl; try reflexivity.
  rewrite (H n x (or_introl eq_refl)). f_equal.
  apply IH. intros name c Hin. apply H. now right.
Qed.

Lemma map_row_id cols r : map_row (fun _ c => c) cols r = r.
Proof.
  revert cols. induction r as [|x xs IH]; intros [|n ns]; simpl; try reflexivity.
  now rewrite IH.
Qed.

Lemma map_row_compose f g cols r :
  map_row g cols (map_row f cols r) = map_row (fun name c => g name (f name c)) cols r.
Proof.
  revert cols. induction r as [|x xs IH]; intros [|n ns]; simpl; try reflexivity.
  now rewrite IH.
Qed.

Lemma in_columns_In name cols : in_columns name cols = true <-> In name cols.
Proof.
  unfold in_columns. rewrite existsb_exists. split.
  - intros (x & Hx & E). apply String.eqb_eq in E. now subst.
  - intros H. exists name. split; [exact H | apply String.eqb_refl].
Qed.

Lemma in_columns_filter p name cols :
  In name cols -> in_columns name (filter p cols) = p name.
Proof.
  intros Hin. destruct (p name) eqn:E.
  - apply in_columns_In, filter_In. now split.
  - destruct (in_columns name (filter p cols)) eqn:F; [|reflexivity].
    apply in_columns_In, filter_In in F. destruct F as [_ F]. congruence.
Qed.

(** The loop [for col in names: df[col] = f(df[col])], for a conversion
    that leaves alone what it has converted. *)
Lemma fold_assign_column (f : cell -> cell) (names : list string) :
  (forall c, f (f c) = f c) ->
  forall df,
    fold_left (fun d col => assign_column col f d) names df =
    mkFrame (columns df)
      (map (map_row (fun name c => if in_columns name names then f c else c)
                    (columns df))
           (rows df)).
Proof.
  intros Hidem. induction names as [|n ns IH]; intros df; simpl.
  - destruct df as [cols rs]. simpl. f_equal.
    rewrite <- (map_id rs) at 1. apply map_ext. intros r.
    symmetry. apply map_row_id.
  - rewrite IH. unfold assign_column. simpl. f_equal.
    rewrite map_map. apply map_ext. intros r.
    rewrite map_row_compose. apply map_row_ext_in. intros name c _.
    destruct (String.eqb name n), (in_columns name ns); simpl;
      try reflexivity; apply Hidem.
Qed.

Lemma to_datetime_cell_idem to_datetime c :
  to_datetime_cell to_datetime (to_datetime_cell to_datetime c)
  = to_datetime_cell to_datetime c.
Proof.
  destruct c as [|s|q|d]; simpl; try reflexivity.
  now destruct (to_datetime s).
Qed.

Lemma to_numeric_cell_idem c : to_numeric_cell (to_numeric_cell c) = to_numeric_cell c.
Proof.
  assert (HNA : to_numeric_cell NA = NA) by reflexivity.
  assert (H : forall t, to_numeric_cell (strip_and_parse t) = strip_and_parse t).
  { intros t. unfold strip_and_parse.
    destruct (to_numeric (Py.keep_digits_and_points t)); [reflexivity | exact HNA]. }
  destruct c as [|s|q|d]; try reflexivity; apply H.
Qed.

(** [clean_data] keeps the rows that are not missing everywhere, in their
    order, and cleans each of their cells by the label of its column. *)
Lemma clean_data_by_cell (to_datetime : string -> option date) (df : RawFrame) :
  clean_data to_datetime df =
  let cols := map standardize_column (raw_columns df) in
  mkFrame cols
    (map (fun r => map_row (clean_cell to_datetime) cols (map of_raw r))
         (filter (fun r => negb (all_missing r)) (raw_rows df))).
Proof.
  unfold clean_data. cbv zeta.
  set (cols := map standardize_column (raw_columns df)).
  set (kept := filter (fun r => negb (all_missing r)) (raw_rows df)).
  rewrite (fold_assign_column _ _ (to_datetime_cell_idem to_datetime)).
  cbn [columns rows].
  rewrite (fold_assign_column _ _ to_numeric_cell_idem).
  cbn [columns rows].
  assert (Hpass : forall (label : string) (f : cell -> cell) (rs : list (list cell)),
    (if in_columns label cols
     then assign_column label f (mkFrame cols rs)
     else mkFrame cols rs)
    = mkFrame cols
        (map (map_row (fun name c => if String.eqb name label then f c else c) cols) rs)).
  { intros label f rs. destruct (in_columns label cols) eqn:E; [reflexivity|].
    f_equal. rewrite <- (map_id rs) at 1. apply map_ext. intros r.
    rewrite <- (map_row_id cols r) at 1. apply map_row_ext_in.
    intros name c Hin. destruct (String.eqb_spec name label) as [->|]; [|reflexivity].
    apply in_columns_In in Hin. congruence. }
  rewrite Hpass. cbn [columns rows]. rewrite Hpass.
  f_equal. rewrite !map_map. apply map_ext. intros r.
  rewrite !map_row_compose. apply map_row_ext_in. intros name c Hin.
  unfold clean_cell. now rewrite !in_columns_filter by exact Hin.
Qed.

Lemma dimension_labels_are_plain :
  is_date_col "category" = false /\ is_numeric_col "category" = false
  /\ is_date_col "manufacturer" = false /\ is_numeric_col "manufacturer" = false.
Proof. repeat split; reflexivity. Qed.

(** Case analysis on whether a label is one of the two dimension labels;
    a case that contradicts what is known of the label is closed. *)
Ltac label_cases name :=
  destruct dimension_labels_are_plain as (?Hdc & ?Hnc & ?Hdm & ?Hnm);
  destruct (String.eqb_spec name "category") as [->|?Hcat];
  [ try congruence
  | destruct (String.eqb_spec name "manufacturer") as [->|?Hman];
    [ try congruence | ] ].

Section CleanCell.

Variable to_datetime : string -> option date.





Lemma clean_cell_number name s q :
  is_date_col name = false -> is_numeric_col name = true ->
  to_numeric (Py.keep_digits_and_points s) = Some q ->
  clean_cell to_datetime name (Str s) = Num q.
Proof.
  intros Hd Hn Hs. unfold clean_cell. rewrite Hd, Hn.
  unfold to_numeric_cell, strip_and_parse. rewrite Hs.
  label_cases name. reflexivity.
Qed.




End CleanCell.





(** ** The order of the keys *)

(** What [groupby] needs of the order of its keys. *)
Class CmpLaws (K : Type) `{Cmp K} : Prop := {
  cmp_eq : forall a b : K, cmp a b = Eq <-> a = b;
  cmp_antisym : forall a b : K, cmp b a = CompOpp (cmp a b);
  cmp_trans : forall a b c : K, cmp a b = Lt -> cmp b c = Lt -> cmp a c = Lt
}.

#[export] Instance cmp_Z_laws : CmpLaws Z.
Proof.
  split; unfold cmp, cmp_Z.
  - apply Z.compare_eq_iff.
  - intros a b. apply Z.compare_antisym.
  - intros a b c. rewrite !Z.compare_lt_iff. apply Z.lt_trans.
Qed.

Lemma ascii_compare_eq a b : ascii_compare a b = Eq <-> a = b.
Proof.
  unfold ascii_compare. rewrite N.compare_eq_iff. split; [|now intros ->].
  intros H. rewrite <- (ascii_N_embedding a), <- (ascii_N_embedding b). now rewrite H.
Qed.

Lemma string_compare_eq a b : string_compare a b = Eq <-> a = b.
Proof.
  revert b. induction a as [|x a IH]; intros [|y b]; simpl;
    try (split; [discriminate | discriminate]); [tauto|].
  destruct (ascii_compare x y) eqn:E.
  - apply ascii_compare_eq in E. subst y. rewrite IH.
    split; [now intros -> | now intros [= ->]].
  - split; [discriminate|]. intros [= -> ->].
    rewrite (proj2 (ascii_compare_eq y y) eq_refl) in E. discriminate.
  - split; [discriminate|]. intros [= -> ->].
    rewrite (proj2 (ascii_compare_eq y y) eq_refl) in E. discriminate.
Qed.

Lemma string_compare_antisym a b : string_compare b a = CompOpp (string_compare a b).
Proof.
  revert b. induction a as [|x a IH]; intros [|y b]; simpl; try reflexivity.
  unfold ascii_compare. rewrite (N.compare_antisym (N_of_ascii x) (N_of_ascii y)).
  destruct (N_of_ascii x ?= N_of_ascii y)%N; simpl; [apply IH | reflexivity | reflexivity].
Qed.

Lemma string_compare_trans a b c :
  string_compare a b = Lt -> string_compare b c = Lt -> string_compare a c = Lt.
Proof.
  revert b c. induction a as [|x a IH]; intros [|y b] [|z c]; simpl;
    try discriminate; try reflexivity.
  unfold ascii_compare.
  destruct (N_of_ascii x ?= N_of_ascii y)%N eqn:Exy;
    destruct (N_of_ascii y ?= N_of_ascii z)%N eqn:Eyz; try discriminate.
  - apply N.compare_eq_iff in Exy, Eyz. rewrite Exy, Eyz, N.compare_refl. apply IH.
  - apply N.compare_eq_iff in Exy. rewrite Exy, Eyz. reflexivity.
  - apply N.compare_eq_iff in Eyz. rewrite <- Eyz, Exy. reflexivity.
  - intros _ _. apply N.compare_lt_iff in Exy, Eyz.
    rewrite (proj2 (N.compare_lt_iff _ _) (N.lt_trans _ _ _ Exy Eyz)). reflexivity.
Qed.

#[export] Instance cmp_string_laws : CmpLaws string.
Proof.
  split; unfold cmp, cmp_string.
  - apply string_compare_eq.
  - apply string_compare_antisym.
  - apply string_compare_trans.
Qed.

#[export] Instance cmp_pair_laws {A B : Type} `{CmpLaws A} `{CmpLaws B} : CmpLaws (A * B).
Proof.
  split; unfold cmp, cmp_pair.
  - intros [a1 b1] [a2 b2]. simpl.
    destruct (cmp a1 a2) eqn:E.
    + apply cmp_eq in E. subst a2. rewrite cmp_eq.
      split; [now intros -> | now intros [= ->]].
    + split; [discriminate|]. intros [= -> ->].
      rewrite (proj2 (cmp_eq a2 a2) eq_refl) in E. discriminate.
    + split; [discriminate|]. intros [= -> ->].
      rewrite (proj2 (cmp_eq a2 a2) eq_refl) in E. discriminate.
  - intros [a1 b1] [a2 b2]. simpl.
    rewrite (cmp_antisym a1 a2). destruct (cmp a1 a2); simpl;
      [apply cmp_antisym | reflexivity | reflexivity].
  - intros [a1 b1] [a2 b2] [a3 b3]. simpl.
    destruct (cmp a1 a2) eqn:E12; destruct (cmp a2 a3) eqn:E23; try discriminate.
    + apply cmp_eq in E12, E23. subst a2 a3.
      rewrite (proj2 (cmp_eq a1 a1) eq_refl). apply cmp_trans.
    + apply cmp_eq in E12. subst a2. rewrite E23. reflexivity.
    + apply cmp_eq in E23. subst a3. rewrite E12. reflexivity.
    + intros _ _. rewrite (cmp_trans _ _ _ E12 E23). reflexivity.
Qed.

Lemma cmp_refl {K : Type} `{CmpLaws K} (a : K) : cmp a a = Eq.
Proof. now apply cmp_eq. Qed.

Lemma cmp_gt_lt {K : Type} `{CmpLaws K} (a b : K) : cmp a b = Gt -> cmp b a = Lt.
Proof. intros E. now rewrite cmp_antisym, E. Qed.

Lemma cmp_eqb_eq {K : Type} `{CmpLaws K} (a b : K) : cmp_eqb a b = true <-> a = b.
Proof.
  unfold cmp_eqb. rewrite <- cmp_eq.
  destruct (cmp a b); split; congruence.
Qed.


(** ** Grouped sums *)

Section GroupBySumFacts.

Context {K : Type} `{CmpLaws K}.

Lemma add_to_cell_keys (k : K) (v : option Q) (cells : list (K * Q)) (x : K) :
  In x (map fst (add_to_cell k v cells)) <-> x = k \/ In x (map fst cells).
Proof.
  induction cells as [|[k' t] rest IH]; simpl.
  - intuition.
  - destruct (cmp k k') eqn:E; simpl.
    + apply cmp_eq in E. subst k'. intuition.
    + intuition.
    + rewrite IH. intuition.
Qed.

Lemma key_lt_Forall (a : K * Q) (k : K) (v : option Q) (cells : list (K * Q)) (t : Q) :
  Forall (key_lt a) cells -> key_lt a (k, t) ->
  Forall (key_lt a) (add_to_cell k v cells).
Proof.
  intros Hall Hk. induction Hall as [|[k' t'] rest Hhd Htl IH]; simpl.
  - constructor; [exact Hk | constructor].
  - destruct (cmp k k') eqn:E.
    + constructor; [exact Hhd | exact Htl].
    + constructor; [exact Hk | constructor; [exact Hhd | exact Htl]].
    + constructor; [exact Hhd | exact IH].
Qed.

Lemma add_to_cell_sorted (k : K) (v : option Q) (cells : list (K * Q)) :
  StronglySorted key_lt cells -> StronglySorted key_lt (add_to_cell k v cells).
Proof.
  induction 1 as [|[k' t] rest Hs IH Hall]; simpl.
  - constructor; [constructor | constructor].
  - destruct (cmp k k') eqn:E.
    + apply cmp_eq in E. subst k'. constructor; [exact Hs | exact Hall].
    + constructor; [constructor; [exact Hs | exact Hall]|].
      constructor; [exact E|].
      eapply Forall_impl; [|exact Hall].
      intros c Hc. unfold key_lt in *. simpl in *. eapply cmp_trans; eassumption.
    + constructor; [exact IH|].
      apply key_lt_Forall with (t := 0%Q); [exact Hall|].
      unfold key_lt. simpl. now apply cmp_gt_lt.
Qed.

Lemma sorted_head_not_in (k : K) (t : Q) (rest : list (K * Q)) :
  Forall (key_lt (k, t)) rest -> ~ In k (map fst rest).
Proof.
  intros Hall Hin. apply in_map_iff in Hin as ([k' t'] & Hk & Hin). simpl in Hk. subst k'.
  rewrite Forall_forall in Hall. specialize (Hall _ Hin).
  unfold key_lt in Hall. simpl in Hall. rewrite cmp_refl in Hall. discriminate.
Qed.

Lemma sorted_lt_not_in (k k' : K) (t : Q) (rest : list (K * Q)) :
  cmp k k' = Lt -> Forall (key_lt (k', t)) rest -> ~ In k (map fst ((k', t) :: rest)).
Proof.
  intros E Hall [Hk|Hin].
  - simpl in Hk. subst k'. rewrite cmp_refl in E. discriminate.
  - apply in_map_iff in Hin as ([k2 t2] & Hk & Hin). simpl in Hk. subst k2.
    rewrite Forall_forall in Hall. specialize (Hall _ Hin).
    unfold key_lt in Hall. simpl in Hall.
    pose proof (cmp_trans _ _ _ E Hall) as Hkk. rewrite cmp_refl in Hkk. discriminate.
Qed.

(** Where a cell of the new list comes from. *)
Lemma add_to_cell_In (k : K) (v : option Q) (cells : list (K * Q)) (k1 : K) (t1 : Q) :
  StronglySorted key_lt cells ->
  In (k1, t1) (add_to_cell k v cells) ->
  (k1 <> k /\ In (k1, t1) cells)
  \/ (k1 = k /\ exists t0, In (k, t0) cells
                           /\ t1 = match v with Some x => (t0 + x)%Q | None => t0 end)
  \/ (k1 = k /\ ~ In k (map fst cells)
      /\ t1 = match v with Some x => x | None => 0%Q end).
Proof.
  induction 1 as [|[k' t] rest Hs IH Hall]; simpl.
  - intros [[= <- <-]|[]]. right. right. tauto.
  - destruct (cmp k k') eqn:E.
    + apply cmp_eq in E. subst k'. intros [[= <- <-]|Hin].
      * right. left. split; [reflexivity|]. exists t. split; [now left | reflexivity].
      * left. split; [|now right].
        intros ->. apply (sorted_head_not_in _ _ _ Hall).
        apply in_map_iff. now exists (k, t1).
    + intros [[= <- <-]|Hin].
      * right. right. split; [reflexivity|]. split; [|reflexivity].
        exact (sorted_lt_not_in _ _ _ _ E Hall).
      * left. split; [|exact Hin].
        intros ->. apply (sorted_lt_not_in _ _ _ _ E Hall).
        apply in_map_iff. now exists (k, t1).
    + intros [[= <- <-]|Hin].
      * left. split; [|now left].
        intros ->. rewrite cmp_refl in E. discriminate.
      * destruct (IH Hin) as [(Hne & Hin')|[(-> & t0 & Hin' & Ht)|(-> & Hnew & Ht)]].
        -- left. split; [exact Hne | now right].
        -- right. left. split; [reflexivity|]. exists t0. split; [now right | exact Ht].
        -- right. right. split; [reflexivity|]. split; [|exact Ht].
           intros [Hk|Hin']; [|now apply Hnew].
           simpl in Hk. subst k'. rewrite cmp_refl in E. discriminate.
Qed.

Lemma sumQ_app (a b : list Q) : (sumQ (a ++ b) == sumQ a + sumQ b)%Q.
Proof.
  induction a as [|x a IH]; simpl; [ring|]. rewrite IH. ring.
Qed.

Lemma cell_values_app (k : K) (a b : list (option K * option Q)) :
  cell_values k (a ++ b) = (cell_values k a ++ cell_values k b)%list.
Proof. unfold cell_values. apply flat_map_app. Qed.

Lemma cell_values_none (k : K) (items : list (option K * option Q)) :
  (forall v, ~ In (Some k, v) items) -> cell_values k items = [].
Proof.
  induction items as [|[[k'|] w] items IH]; simpl; intros Hno; [reflexivity| |].
  - destruct w as [x|].
    + destruct (cmp_eqb k' k) eqn:E.
      * apply cmp_eqb_eq in E. subst k'. exfalso. apply (Hno (Some x)). now left.
      * simpl. apply IH. intros v Hin. apply (Hno v). now right.
    + apply IH. intros v Hin. apply (Hno v). now right.
  - apply IH. intros v Hin. apply (Hno v). now right.
Qed.

Lemma cell_values_zero_filled_sum (k : K) (items : list (option K * option Q)) :
  (sumQ (cell_values_zero_filled k items) == sumQ (cell_values k items))%Q.
Proof.
  induction items as [|[[k'|] [x|]] items IH]; simpl; try exact IH; try reflexivity.
  - destruct (cmp_eqb k' k); simpl; [now rewrite IH | exact IH].
  - destruct (cmp_eqb k' k); simpl; [rewrite IH; ring | exact IH].
Qed.

Lemma cells_of_step (cells : list (K * Q)) (items : list (option K * option Q))
    (it : option K * option Q) :
  cells_of cells items ->
  cells_of (match fst it with Some k => add_to_cell k (snd it) cells | None => cells end)
           (items ++ [it]).
Proof.
  intros (Hsorted & Hsum & Hall). destruct it as [[k|] v]; simpl.
  - split; [now apply add_to_cell_sorted|]. split.
    + intros k1 t1 Hin. rewrite cell_values_app, sumQ_app.
      destruct (add_to_cell_In _ _ _ _ _ Hsorted Hin)
        as [(Hne & Hin')|[(-> & t0 & Hin' & ->)|(-> & Hnew & ->)]].
      * destruct (Hsum _ _ Hin') as (Ht & v' & Hv'). split.
        -- rewrite Ht. simpl.
           destruct (cmp_eqb k k1) eqn:E;
             [apply cmp_eqb_eq in E; congruence|].
           destruct v; simpl; ring.
        -- exists v'. apply in_or_app. now left.
      * destruct (Hsum _ _ Hin') as (Ht & v' & Hv'). split.
        -- simpl. rewrite (proj2 (cmp_eqb_eq k k) eq_refl).
           destruct v; simpl; rewrite Ht; ring.
        -- exists v'. apply in_or_app. now left.
      * split.
        -- rewrite (cell_values_none k items).
           ++ simpl. rewrite (proj2 (cmp_eqb_eq k k) eq_refl).
              destruct v; simpl; ring.
           ++ intros v' Hv'. apply Hnew. eapply Hall. exact Hv'.
        -- exists v. apply in_or_app. right. now left.
    + intros k1 v1 Hin. apply add_to_cell_keys.
      apply in_app_or in Hin as [Hin|[[= -> ->]|[]]].
      * right. eapply Hall. exact Hin.
      * now left.
  - split; [exact Hsorted|]. split.
    + intros k1 t1 Hin. destruct (Hsum _ _ Hin) as (Ht & v' & Hv'). split.
      * rewrite cell_values_app, sumQ_app, Ht. simpl. ring.
      * exists v'. apply in_or_app. now left.
    + intros k1 v1 Hin. apply in_app_or in Hin as [Hin|[[=]|[]]].
      eapply Hall. exact Hin.
Qed.

(** The cells of [groupby_sum]: sorted by key, one for each key that some
    row has, holding the sum of the values of the rows of the key. *)
Lemma groupby_sum_cells (items : list (option K * option Q)) :
  cells_of (groupby_sum items) items.
Proof.
  unfold groupby_sum.
  assert (Hgen : forall rest done cells,
             cells_of cells done ->
             cells_of (fold_left
                         (fun cells it =>
                            match fst it with
                            | Some k => add_to_cell k (snd it) cells
                            | None => cells
                            end) rest cells)
                      (done ++ rest)).
  { induction rest as [|it rest IH]; intros done cells Hc; simpl.
    - now rewrite app_nil_r.
    - replace (done ++ it :: rest)%list with ((done ++ [it]) ++ rest)%list
        by (now rewrite <- app_assoc).
      apply IH. now apply cells_of_step. }
  apply (Hgen items [] []).
  split; [constructor|]. split; [intros k t []|intros k v []].
Qed.

End GroupBySumFacts.

(** ** Growth tables *)

Section GrowthFacts.

Context {P G : Type} `{CmpLaws G}.
Variable by_ : P * string -> G.

Lemma with_growth_rows (cells : list ((P * string) * Q)) :
  with_growth by_ cells = growth_rows by_ [] cells.
Proof.
  unfold with_growth, pct_change. generalize (@nil ((P * string) * Q)) as seen.
  induction cells as [|c tl IH]; intros seen; simpl; [reflexivity|].
  now rewrite IH.
Qed.

Lemma growth_rows_cells (seen cells : list ((P * string) * Q)) :
  map cell_of_row (growth_rows by_ seen cells) = cells.
Proof.
  revert seen. induction cells as [|[[p g] v] tl IH]; intros seen; simpl; [reflexivity|].
  now rewrite IH.
Qed.

Lemma growth_rows_app (seen a b : list ((P * string) * Q)) :
  growth_rows by_ seen (a ++ b)
  = (growth_rows by_ seen a ++ growth_rows by_ (rev a ++ seen) b)%list.
Proof.
  revert seen. induction a as [|c a IH]; intros seen; simpl; [reflexivity|].
  rewrite IH, <- app_assoc. reflexivity.
Qed.

Lemma growth_rows_length (seen cells : list ((P * string) * Q)) :
  List.length (growth_rows by_ seen cells) = List.length cells.
Proof.
  rewrite <- (growth_rows_cells seen cells) at 2. now rewrite length_map.
Qed.

Lemma app_eq_by_length {A : Type} (a a' b b' : list A) :
  (a ++ b = a' ++ b')%list -> List.length a = List.length a' -> a = a' /\ b = b'.
Proof.
  revert a'. induction a as [|x a IH]; intros [|x' a']; simpl; try discriminate.
  - now intros.
  - intros [= -> Hab] [= Hlen]. destruct (IH _ Hab Hlen) as [-> ->]. now split.
Qed.

(** The growth of a row of the table, from the rows above it. *)
Lemma growth_of_row (cells : list ((P * string) * Q)) above r below :
  growth_rows by_ [] cells = (above ++ r :: below)%list ->
  growth_pct r
  = pct100 (total_registrations r)
           (shifted (fun c => by_ (fst c)) snd (rev (map cell_of_row above))
                    (cell_of_row r)).
Proof.
  intros Hrows.
  pose proof (growth_rows_cells [] cells) as Hcells.
  rewrite Hrows, map_app in Hcells. simpl in Hcells.
  rewrite <- Hcells, growth_rows_app in Hrows. simpl in Hrows.
  apply app_eq_by_length in Hrows as [_ Hr].
  - injection Hr as Hr _. rewrite <- Hr. simpl. rewrite app_nil_r. reflexivity.
  - now rewrite growth_rows_length, length_map.
Qed.

Lemma find_none_iff {A : Type} (f : A -> bool) (l : list A) :
  forallb (fun x => negb (f x)) l = true -> find f l = None.
Proof.
  induction l as [|x l IH]; simpl; [reflexivity|].
  intros Hall. apply andb_prop in Hall as [Hx Hl].
  apply negb_true_iff in Hx. rewrite Hx. now apply IH.
Qed.

Lemma find_app_skip {A : Type} (f : A -> bool) (a b : list A) :
  forallb (fun x => negb (f x)) a = true -> find f (a ++ b) = find f b.
Proof.
  induction a as [|x a IH]; simpl; [reflexivity|].
  intros Hall. apply andb_prop in Hall as [Hx Ha].
  apply negb_true_iff in Hx. rewrite Hx. now apply IH.
Qed.

Lemma forallb_rev_map {A B : Type} (f : B -> bool) (h : A -> B) (l : list A) :
  forallb (fun x => f (h x)) l = true -> forallb f (rev (map h l)) = true.
Proof.
  rewrite !forallb_forall. intros Hall y Hy.
  apply in_rev, in_map_iff in Hy as (x & <- & Hx). now apply Hall.
Qed.

(** The first row of a group has no growth. *)
Lemma growth_of_first (cells : list ((P * string) * Q)) (r : GrowthRow P) :
  first_in_group (same_by by_) (with_growth by_ cells) r ->
  growth_pct r = NaN.
Proof.
  intros (above & below & Htable & Hnone).
  rewrite with_growth_rows in Htable.
  rewrite (growth_of_row _ _ _ _ Htable). unfold shifted.
  rewrite find_none_iff; [reflexivity|].
  apply (forallb_rev_map
           (fun c => negb (cmp_eqb (by_ (fst c)) (by_ (fst (cell_of_row r)))))
           cell_of_row).
  exact Hnone.
Qed.

(** The growth of a later row is taken over the row of its group just
    before it. *)
Lemma growth_of_next (cells : list ((P * string) * Q)) (p r : GrowthRow P) :
  precedes (same_by by_) (with_growth by_ cells) p r ->
  growth_pct r = pct100 (total_registrations r) (Fin (total_registrations p)).
Proof.
  intros (above & between & below & Htable & Hsame & Hnone).
  rewrite with_growth_rows in Htable.
  replace (above ++ p :: between ++ r :: below)%list
    with ((above ++ p :: between) ++ r :: below)%list in Htable
    by (rewrite <- app_assoc; reflexivity).
  rewrite (growth_of_row _ _ _ _ Htable). unfold shifted.
  rewrite map_app, rev_app_distr. simpl. rewrite <- app_assoc.
  rewrite find_app_skip.
  - simpl. unfold same_by in Hsame. unfold cell_of_row at 1. simpl fst.
    rewrite Hsame. reflexivity.
  - apply (forallb_rev_map
             (fun c => negb (cmp_eqb (by_ (fst c)) (by_ (fst (cell_of_row r)))))
             cell_of_row).
    exact Hnone.
Qed.

(** The changes of the rows of one group, in the order of the table. *)
Lemma growth_of_group (g : G) (cells seen : list ((P * string) * Q)) :
  let rows_g := filter (fun r => cmp_eqb (by_ (row_key r)) g)
                       (growth_rows by_ seen cells) in
  map growth_pct rows_g
  = chained_growth (prev_of by_ g seen) (map total_registrations rows_g).
Proof.
  cbv zeta. unfold row_key. revert seen.
  induction cells as [|[[p s] v] tl IH]; intros seen; simpl; [reflexivity|].
  destruct (cmp_eqb (by_ (p, s)) g) eqn:E; simpl.
  - rewrite IH. f_equal.
    + unfold shifted, prev_of. simpl.
      apply cmp_eqb_eq in E. now rewrite E.
    + unfold prev_of at 1. simpl. now rewrite E.
  - rewrite IH. unfold prev_of at 1. simpl. now rewrite E.
Qed.

End GrowthFacts.

(** ** The arithmetic of the change *)

Lemma Qzero_iff (q : Q) : Qzero q = true <-> (q == 0)%Q.
Proof. unfold Qzero. apply Qeq_bool_iff. Qed.

Lemma Qzero_false (q : Q) : ~ (q == 0)%Q -> Qzero q = false.
Proof.
  intros Hq. destruct (Qzero q) eqn:E; [|reflexivity].
  apply Qzero_iff in E. contradiction.
Qed.

(** Over a total of zero the change is not a number when the total is zero
    too, and is infinite, with the sign of the total, otherwise. *)
Lemma pct100_over_zero (t p : Q) :
  (p == 0)%Q ->
  pct100 t (Fin p) = if Qzero t then NaN else Inf (Qneg t).
Proof.
  intros Hp. apply Qzero_iff in Hp. unfold pct100, fdiv. rewrite Hp.
  destruct (Qzero t); [reflexivity|].
  destruct (Qneg t); reflexivity.
Qed.

Lemma pct100_over_nonzero (t p : Q) :
  ~ (p == 0)%Q ->
  feq (pct100 t (Fin p)) (Fin ((t - p) / p * 100)%Q).
Proof.
  intros Hp. unfold pct100, fdiv. rewrite (Qzero_false _ Hp). simpl.
  field. exact Hp.
Qed.

Lemma chained_growth_formula (totals : list Q) :
  forall previous : option Q,
    match previous with
    | Some p => totals <> [] -> ~ (p == 0)%Q
    | None => True
    end ->
    Forall (fun x => ~ (x == 0)%Q) (removelast totals) ->
    Forall2 feq
      (chained_growth (match previous with Some p => Fin p | None => NaN end) totals)
      (growth_formula previous totals).
Proof.
  induction totals as [|t rest IH]; intros previous Hprev Hrest; simpl;
    constructor.
  - destruct previous as [p|]; [|exact I].
    apply pct100_over_nonzero. apply Hprev. discriminate.
  - apply (IH (Some t)).
    + intros Hne. destruct rest as [|t' rest']; [contradiction|].
      simpl in Hrest. now inversion Hrest.
    + destruct rest as [|t' rest']; [constructor|].
      simpl in Hrest. now inversion Hrest.
Qed.

(** ** The order of the rows *)

Lemma StronglySorted_map {A B : Type} (R : B -> B -> Prop) (f : A -> B) (l : list A) :
  StronglySorted R (map f l) -> StronglySorted (fun a b => R (f a) (f b)) l.
Proof.
  induction l as [|x l IH]; simpl; intros Hs; [constructor|].
  inversion Hs as [|? ? Hl Hx]; subst. constructor; [now apply IH|].
  rewrite Forall_forall in *. intros y Hy. apply Hx. now apply in_map.
Qed.

Lemma StronglySorted_filter_in {A : Type} (R R' : A -> A -> Prop) (f : A -> bool)
    (l : list A) :
  (forall a b, f a = true -> f b = true -> R a b -> R' a b) ->
  StronglySorted R l -> StronglySorted R' (filter f l).
Proof.
  intros Himp. induction 1 as [|x l Hs IH Hx]; simpl; [constructor|].
  destruct (f x) eqn:E; [|exact IH].
  constructor; [exact IH|].
  rewrite Forall_forall in *. intros y Hy. apply filter_In in Hy as [Hy Hfy].
  apply Himp; [exact E | exact Hfy | now apply Hx].
Qed.

Lemma cmp_eqb_string (a b : string) : cmp_eqb a b = String.eqb a b.
Proof.
  destruct (String.eqb_spec a b) as [->|Hne].
  - now apply cmp_eqb_eq.
  - destruct (cmp_eqb a b) eqn:E; [|reflexivity].
    apply cmp_eqb_eq in E. contradiction.
Qed.

Section TableFacts.

Context {P G : Type} `{CmpLaws P} `{CmpLaws G}.
Variable by_ : P * string -> G.
Variable items : list (option (P * string) * option Q).

(** The rows of a table are in the order of period and group value. *)
Lemma table_sorted :
  StronglySorted (fun a b => cmp (row_key a) (row_key b) = Lt)
                 (with_growth by_ (groupby_sum items)).
Proof.
  destruct (groupby_sum_cells items) as (Hsorted & _).
  rewrite with_growth_rows.
  rewrite <- (growth_rows_cells by_ [] (groupby_sum items)) in Hsorted.
  apply (StronglySorted_map key_lt cell_of_row) in Hsorted.
  exact Hsorted.
Qed.

(** The rows of one group value are in the order of their periods. *)
Lemma group_rows_sorted (g : string) :
  StronglySorted (fun a b => cmp (period a) (period b) = Lt)
    (filter (fun r => String.eqb (group_value r) g)
            (with_growth by_ (groupby_sum items))).
Proof.
  eapply StronglySorted_filter_in; [|exact table_sorted].
  intros a b Ha Hb. apply String.eqb_eq in Ha, Hb.
  unfold row_key. rewrite Ha, Hb.
  unfold cmp at 1, cmp_pair. simpl.
  destruct (cmp (period a) (period b)); [|reflexivity|discriminate].
  change (string_compare g g) with (cmp g g). rewrite cmp_refl. discriminate.
Qed.

End TableFacts.

(** The changes of the rows of one group value, in a table whose change
    is taken by group value. *)
Lemma growth_by_group_value {P : Type} (cells : list ((P * string) * Q)) (g : string) :
  let rows_g := filter (fun r => String.eqb (group_value r) g)
                       (with_growth by_group cells) in
  map growth_pct rows_g = chained_growth NaN (map total_registrations rows_g).
Proof.
  cbv zeta. rewrite with_growth_rows.
  rewrite (filter_ext (fun r => String.eqb (group_value r) g)
                      (fun r => cmp_eqb (by_group (row_key r)) g))
    by (intros r; symmetry; apply cmp_eqb_string).
  apply (growth_of_group by_group g cells []).
Qed.

Lemma calculate_growth_metrics_tables df date_col value_col group_col t :
  calculate_growth_metrics df date_col value_col group_col = inr t ->
  exists obs,
    observations df date_col value_col group_col = inr obs
    /\ t = growth_tables obs.
Proof.
  unfold calculate_growth_metrics.
  destruct (observations df date_col value_col group_col) as [e|obs];
    [discriminate|].
  intros [= <-]. now exists obs.
Qed.

Lemma col_index_found (name : string) (cols : list string) :
  in_columns name cols = true -> exists i, col_index name cols = Some i.
Proof.
  unfold in_columns. induction cols as [|c t IH]; simpl; [discriminate|].
  destruct (String.eqb name c); simpl.
  - intros _. now exists O.
  - intros Hin. destruct (IH Hin) as (i & ->). now exists (S i).
Qed.

(** With its three columns in the frame, [calculate_growth_metrics] raises
    no exception: it returns the three tables. *)
Lemma calculate_growth_metrics_returns df date_col value_col group_col :
  in_columns date_col (columns df) = true ->
  in_columns group_col (columns df) = true ->
  in_columns value_col (columns df) = true ->
  exists t, calculate_growth_metrics df date_col value_col group_col = inr t.
Proof.
  intros Hd Hg Hv. unfold calculate_growth_metrics, observations.
  destruct (col_index_found _ _ Hd) as (di & ->).
  destruct (col_index_found _ _ Hg) as (gi & ->).
  destruct (col_index_found _ _ Hv) as (vi & ->).
  eexists. reflexivity.
Qed.

(** The periods of the rows that a table has for a group value are the
    periods in which the frame has a row of that group value with a date. *)
Lemma group_periods {P G : Type} `{CmpLaws P} `{CmpLaws G}
    (period_of : date -> P) (by_ : P * string -> G) (obs : list Observation)
    (g : string) (p : P) :
  In p (map period
            (filter (fun r => String.eqb (group_value r) g)
                    (with_growth by_ (groupby_sum (map (keyed period_of) obs)))))
  <-> exists o d, In o obs /\ ob_date o = Some d /\ ob_group o = Some g
                  /\ period_of d = p.
Proof.
  destruct (groupby_sum_cells (map (keyed period_of) obs)) as (_ & Hsum & Hall).
  rewrite with_growth_rows. split.
  - intros Hp. apply in_map_iff in Hp as (r & Hr & Hin).
    apply filter_In in Hin as [Hin Hg]. apply String.eqb_eq in Hg.
    apply (in_map cell_of_row) in Hin. rewrite growth_rows_cells in Hin.
    destruct (Hsum _ _ Hin) as (_ & v & Hv).
    apply in_map_iff in Hv as (o & Ho & Hobs). exists o.
    unfold keyed in Ho. destruct (ob_date o) as [d|]; [|discriminate].
    destruct (ob_group o) as [g'|]; [|discriminate].
    unfold row_key in Ho. injection Ho as Hperiod Hgroup _.
    exists d. repeat split; [exact Hobs | congruence | congruence].
  - intros (o & d & Ho & Hd & Hg & Hp).
    assert (Hkey : In (period_of d, g)
                      (map fst (groupby_sum (map (keyed period_of) obs)))).
    { apply (Hall _ (ob_value o)). apply in_map_iff. exists o.
      split; [|exact Ho]. unfold keyed. now rewrite Hd, Hg. }
    rewrite <- (growth_rows_cells by_ [] (groupby_sum (map (keyed period_of) obs)))
      in Hkey.
    rewrite map_map in Hkey. apply in_map_iff in Hkey as (r & Hr & Hin).
    unfold cell_of_row, row_key in Hr. cbn [fst] in Hr. injection Hr as Hperiod Hgroup.
    apply in_map_iff. exists r. split; [congruence|].
    apply filter_In. split; [exact Hin|]. now apply String.eqb_eq.
Qed.

(** C4. The monthly and the yearly table are made from the rows of the
    frame: for every group value the table has one row for each period in
    which the frame has a row of that group value with a date, and no
    other, in the order of the periods; when every total of the group but
    the last is not zero, the growth of the first period is absent and the
    growth of each later period is (total - previous) / previous * 100,
    previous being the total of the period just before for the same group
    value. Totals 100, 150, 0 give absent, 50, -100. *)
Theorem growth_is_change_over_preceding_period :
  forall (df : DataFrame) (date_col value_col group_col : string)
         (t : GrowthTables) (g : string),
    calculate_growth_metrics df date_col value_col group_col = inr t ->
    exists obs,
      observations df date_col value_col group_col = inr obs
      /\ List.length obs = List.length (rows df)
      /\ let rows_m := filter (fun r => String.eqb (group_value r) g) (monthly t) in
         let rows_y := filter (fun r => String.eqb (group_value r) g) (yearly t) in
         (forall p, In p (map period rows_m) <->
                    exists o d, In o obs /\ ob_date o = Some d /\ ob_group o = Some g
                                /\ year_month d = p)
         /\ StronglySorted (fun a b => cmp (period a) (period b) = Lt) rows_m
         /\ (Forall (fun x => ~ (x == 0)%Q) (removelast (map total_registrations rows_m)) ->
             Forall2 feq (map growth_pct rows_m)
                         (growth_formula None (map total_registrations rows_m)))
         /\ (forall p, In p (map period rows_y) <->
                       exists o d, In o obs /\ ob_date o = Some d /\ ob_group o = Some g
                                   /\ year d = p)
         /\ StronglySorted (fun a b => cmp (period a) (period b) = Lt) rows_y
         /\ (Forall (fun x => ~ (x == 0)%Q) (removelast (map total_registrations rows_y)) ->
             Forall2 feq (map growth_pct rows_y)
                         (growth_formula None (map total_registrations rows_y))).
Proof.
  intros df date_col value_col group_col t g Ht.
  apply calculate_growth_metrics_tables in Ht as (obs & Hobs & ->).
  exists obs. split; [exact Hobs|]. split.
  { revert Hobs. unfold observations.
    destruct (col_index date_col (columns df)); [|discriminate].
    destruct (col_index group_col (columns df)); [|discriminate].
    destruct (col_index value_col (columns df)); [|discriminate].
    intros [= <-]. apply length_map. }
  cbv zeta. cbn [growth_tables monthly yearly]. unfold monthly_growth, yearly_growth.
  split; [|split; [|split; [|split; [|split]]]].
  - intros p. apply group_periods.
  - apply group_rows_sorted.
  - intros Hnz. rewrite (growth_by_group_value _ g).
    now apply (chained_growth_formula _ None).
  - intros p. apply group_periods.
  - apply group_rows_sorted.
  - intros Hnz. rewrite (growth_by_group_value _ g).
    now apply (chained_growth_formula _ None).
Qed.

(** The scenario of C4 over two years: the two-wheelers have the monthly
    totals 100, 150 and 0, with the growth absent, 50 and -100, and the
    yearly totals 100 and 150, with the growth absent and 50. *)
Lemma growth_scenario_witness :
  let rows_m := filter (fun r => String.eqb (group_value r) "2W")
                       (monthly two_year_scenario_tables) in
  let rows_y := filter (fun r => String.eqb (group_value r) "2W")
                       (yearly two_year_scenario_tables) in
  calculate_growth_metrics (clean_data iso_date two_year_scenario)
                           "date" "registrations" "category"
  = inr two_year_scenario_tables
  /\ map period rows_m = [(2022, 12); (2023, 1); (2023, 2)]
  /\ map total_registrations rows_m = [100; 150; 0]%Q
  /\ Forall2 feq (map growth_pct rows_m) (growth_formula None [100; 150; 0]%Q)
  /\ Forall2 feq (map growth_pct rows_m) [NaN; Fin 50; Fin (-100)]
  /\ map period rows_y = [2022; 2023]
  /\ map total_registrations rows_y = [100; 150]%Q
  /\ Forall2 feq (map growth_pct rows_y) (growth_formula None [100; 150]%Q)
  /\ Forall2 feq (map growth_pct rows_y) [NaN; Fin 50].
Proof.
  cbv zeta.
  assert (E : calculate_growth_metrics (clean_data iso_date two_year_scenario)
                                       "date" "registrations" "category"
              = inr two_year_scenario_tables) by (vm_compute; reflexivity).
  destruct (growth_is_change_over_preceding_period _ _ _ _ _ "2W" E)
    as (obs & _ & _ & _ & _ & Hm & _ & _ & Hy).
  split; [exact E|]. split; [reflexivity|]. split; [reflexivity|]. split.
  { apply Hm. repeat constructor; discriminate. }
  split; [repeat constructor|]. split; [reflexivity|]. split; [reflexivity|]. split.
  { apply Hy. repeat constructor; discriminate. }
  repeat constructor.
Defined.

(** C2, as the code has it. With its three columns in the frame,
    [calculate_growth_metrics] raises no exception and returns its tables;
    in each of the three, when the row just before in the same group (the
    group value, and the year too in the quarterly table) has a total of
    zero, the growth is absent only when the total of the row is zero too;
    otherwise it is infinite, with the sign of the total. *)
Theorem growth_over_zero_total :
  forall (df : DataFrame) (date_col value_col group_col : string),
    in_columns date_col (columns df) = true ->
    in_columns group_col (columns df) = true ->
    in_columns value_col (columns df) = true ->
    exists t,
      calculate_growth_metrics df date_col value_col group_col = inr t
      /\ (forall p r, precedes (same_by by_group) (monthly t) p r ->
                      (total_registrations p == 0)%Q ->
                      growth_pct r = if Qzero (total_registrations r) then NaN
                                     else Inf (Qneg (total_registrations r)))
      /\ (forall p r, precedes (same_by by_group) (yearly t) p r ->
                      (total_registrations p == 0)%Q ->
                      growth_pct r = if Qzero (total_registrations r) then NaN
                                     else Inf (Qneg (total_registrations r)))
      /\ (forall p r, precedes (same_by by_group_and_year) (quarterly t) p r ->
                      (total_registrations p == 0)%Q ->
                      growth_pct r = if Qzero (total_registrations r) then NaN
                                     else Inf (Qneg (total_registrations r))).
Proof.
  intros df date_col value_col group_col Hd Hg Hv.
  destruct (calculate_growth_metrics_returns _ _ _ _ Hd Hg Hv) as (t & Ht).
  exists t. split; [exact Ht|].
  apply calculate_growth_metrics_tables in Ht as (obs & _ & ->).
  cbn [growth_tables monthly yearly quarterly].
  unfold monthly_growth, yearly_growth, quarterly_growth.
  repeat split; intros p r Hpr Hzero;
    rewrite (growth_of_next _ _ _ _ Hpr); now apply pct100_over_zero.
Qed.

(** A month of total 100 after a month of total zero: the growth is
    positive infinity. *)
Lemma growth_over_zero_total_witness :
  let df := clean_data iso_date zero_scenario in
  let p := mkGrowth (2023, 1) "2W" 0 NaN in
  let r := mkGrowth (2023, 2) "2W" 100 (Inf false) in
  in_columns "date" (columns df) = true
  /\ in_columns "category" (columns df) = true
  /\ in_columns "registrations" (columns df) = true
  /\ calculate_growth_metrics df "date" "registrations" "category"
     = inr zero_scenario_tables
  /\ precedes (same_by by_group) (monthly zero_scenario_tables) p r
  /\ (total_registrations p == 0)%Q
  /\ growth_pct r = (if Qzero (total_registrations r) then NaN
                     else Inf (Qneg (total_registrations r))).
Proof.
  cbv zeta.
  assert (E : calculate_growth_metrics (clean_data iso_date zero_scenario)
                                       "date" "registrations" "category"
              = inr zero_scenario_tables) by (vm_compute; reflexivity).
  assert (Hpr : precedes (same_by by_group) (monthly zero_scenario_tables)
                         (mkGrowth (2023, 1) "2W" 0 NaN)
                         (mkGrowth (2023, 2) "2W" 100 (Inf false)))
    by (exists [], [], []; repeat split).
  split; [reflexivity|]. split; [reflexivity|]. split; [reflexivity|].
  split; [exact E|]. split; [exact Hpr|]. split; [reflexivity|].
  destruct (growth_over_zero_total (clean_data iso_date zero_scenario)
              "date" "registrations" "category" eq_refl eq_refl eq_refl)
    as (t & Ht & Hm & _ & _).
  rewrite E in Ht. injection Ht as <-.
  apply (Hm _ _ Hpr). reflexivity.
Defined.

(** C2 as stated fails: with monthly totals 0 and then 100 the growth of
    the second month is positive infinity, not absent. *)
Lemma growth_over_zero_is_infinite :
  calculate_growth_metrics (clean_data iso_date zero_scenario)
                           "date" "registrations" "category"
  = inr zero_scenario_tables
  /\ monthly zero_scenario_tables
     = [ mkGrowth (2023, 1) "2W" 0 NaN; mkGrowth (2023, 2) "2W" 100 (Inf false) ]
  /\ precedes (same_by by_group) (monthly zero_scenario_tables)
              (mkGrowth (2023, 1) "2W" 0 NaN) (mkGrowth (2023, 2) "2W" 100 (Inf false))
  /\ isna (Inf false) = false
  /\ isinf (Inf false) = true.
Proof.
  split; [vm_compute; reflexivity|]. split; [reflexivity|]. split.
  - exists [], [], []. repeat split.
  - split; reflexivity.
Qed.

(** ** The quarterly table *)

Lemma sorted_before {A : Type} (R : A -> A -> Prop) (above below : list A) (r : A) :
  StronglySorted R (above ++ r :: below) -> forall m, In m above -> R m r.
Proof.
  induction above as [|x above IH]; simpl; intros Hs m Hm; [contradiction|].
  inversion Hs as [|? ? Hl Hx]; subst. destruct Hm as [->|Hm].
  - rewrite Forall_forall in Hx. apply Hx. apply in_or_app. right. now left.
  - now apply IH.
Qed.

Lemma sorted_after {A : Type} (R : A -> A -> Prop) (above below : list A) (r : A) :
  StronglySorted R (above ++ r :: below) -> forall m, In m below -> R r m.
Proof.
  induction above as [|x above IH]; simpl; intros Hs m Hm.
  - inversion Hs as [|? ? Hl Hx]; subst. rewrite Forall_forall in Hx. now apply Hx.
  - inversion Hs; subst. now apply IH.
Qed.

(** Two rows of the quarterly table in one group of the change: the same
    group value and the same year. *)
Lemma same_group_and_year (p r : GrowthRow (Z * Z)) :
  same_by by_group_and_year p r = true
  <-> group_value p = group_value r /\ fst (period p) = fst (period r).
Proof.
  unfold same_by. rewrite cmp_eqb_eq. unfold by_group_and_year, row_key. simpl.
  split; [intros [= -> ->]; now split | intros [-> ->]; reflexivity].
Qed.

(** Within a group value and a year the order of the rows is the order of
    the quarters. *)
Lemma quarter_order (p r : GrowthRow (Z * Z)) :
  group_value p = group_value r -> fst (period p) = fst (period r) ->
  cmp (row_key p) (row_key r) = Lt -> snd (period p) < snd (period r).
Proof.
  destruct p as [[yp qp] gp tp xp], r as [[yr qr] gr tr xr]. simpl.
  intros -> ->. unfold row_key. cbn [period group_value].
  unfold cmp at 1, cmp_pair at 1. cbn [fst snd].
  destruct (cmp (yr, qp) (yr, qr)) eqn:E.
  - rewrite cmp_refl. discriminate.
  - intros _. unfold cmp, cmp_pair, cmp_Z in E. cbn [fst snd] in E.
    rewrite Z.compare_refl in E. now apply Z.compare_lt_iff.
  - discriminate.
Qed.

Lemma not_same_forallb {A : Type} (same : A -> A -> bool) (r : A) (l : list A) :
  (forall m, In m l -> same m r = true -> False) ->
  forallb (fun m => negb (same m r)) l = true.
Proof.
  intros Hno. apply forallb_forall. intros m Hm.
  destruct (same m r) eqn:E; [exfalso; now apply (Hno m) | reflexivity].
Qed.

(** C1, as the code has it. The quarterly change is taken within the group
    value and the year (line 123): a quarter with no earlier quarter of its
    year observed for its group value has no growth, whatever was observed
    in the years before, so the first quarter of a year is never compared
    with the last quarter of the year before; any other quarter is compared
    with the latest earlier quarter of its year observed for its group
    value. *)
Theorem quarterly_growth_is_within_the_year :
  forall (df : DataFrame) (date_col value_col group_col : string)
         (t : GrowthTables) (r : GrowthRow (Z * Z)),
    calculate_growth_metrics df date_col value_col group_col = inr t ->
    In r (quarterly t) ->
    ((forall p, In p (quarterly t) ->
                group_value p = group_value r -> fst (period p) = fst (period r) ->
                snd (period r) <= snd (period p)) ->
     growth_pct r = NaN)
    /\ (forall p, In p (quarterly t) ->
                  group_value p = group_value r -> fst (period p) = fst (period r) ->
                  snd (period p) < snd (period r) ->
                  (forall m, In m (quarterly t) ->
                             group_value m = group_value r ->
                             fst (period m) = fst (period r) ->
                             ~ (snd (period p) < snd (period m) < snd (period r))) ->
                  growth_pct r = pct100 (total_registrations r)
                                        (Fin (total_registrations p))).
Proof.
  intros df date_col value_col group_col t r Ht Hr.
  apply calculate_growth_metrics_tables in Ht as (obs & _ & ->).
  cbn [growth_tables quarterly] in *. unfold quarterly_growth in *.
  set (items := map (keyed year_quarter) obs) in *.
  pose proof (table_sorted by_group_and_year items) as Hsorted.
  destruct (in_split _ _ Hr) as (above & below & Htable).
  split.
  - intros Hfirst. apply (growth_of_first by_group_and_year (groupby_sum items)).
    exists above, below. split; [exact Htable|].
    apply not_same_forallb. intros m Hm Hsame.
    apply same_group_and_year in Hsame as [Hg Hy].
    rewrite Htable in Hsorted.
    pose proof (quarter_order _ _ Hg Hy (sorted_before _ _ _ _ Hsorted m Hm)) as Hlt.
    assert (Hin : In m (with_growth by_group_and_year (groupby_sum items)))
      by (rewrite Htable; apply in_or_app; now left).
    specialize (Hfirst m Hin Hg Hy). lia.
  - intros p Hp Hg Hy Hlt Hlatest.
    apply (growth_of_next by_group_and_year (groupby_sum items) p r).
    rewrite Htable in Hp, Hsorted.
    apply in_app_or in Hp as [Hp|[Hp|Hp]].
    + destruct (in_split _ _ Hp) as (above' & between & ->).
      exists above', between, below. split; [|split].
      * rewrite Htable, <- app_assoc. reflexivity.
      * apply same_group_and_year. now split.
      * apply not_same_forallb. intros m Hm Hsame.
        apply same_group_and_year in Hsame as [Hgm Hym].
        rewrite <- app_assoc in Hsorted. simpl in Hsorted.
        assert (Hpm : cmp (row_key p) (row_key m) = Lt).
        { apply (sorted_after _ _ _ _ Hsorted). apply in_or_app. now left. }
        assert (Hmr : cmp (row_key m) (row_key r) = Lt).
        { replace (above' ++ p :: between ++ r :: below)%list
            with ((above' ++ p :: between) ++ r :: below)%list in Hsorted
            by (rewrite <- app_assoc; reflexivity).
          apply (sorted_before _ _ _ _ Hsorted). apply in_or_app. right. now right. }
        apply (Hlatest m).
        -- rewrite Htable. apply in_or_app. left. apply in_or_app. right. now right.
        -- exact Hgm.
        -- exact Hym.
        -- split.
           ++ apply quarter_order; [congruence | congruence | exact Hpm].
           ++ apply quarter_order; [exact Hgm | exact Hym | exact Hmr].
    + subst p. lia.
    + pose proof (quarter_order _ _ (eq_sym Hg) (eq_sym Hy)
                                (sorted_after _ _ _ _ Hsorted p Hp)). lia.
Qed.

(** The first quarter of 2023 after the last quarter of 2022: no growth. *)
Lemma quarterly_growth_is_within_the_year_witness :
  let r := mkGrowth (2023, 1) "2W" 150 NaN in
  calculate_growth_metrics (clean_data iso_date new_year_scenario)
                           "date" "registrations" "category"
  = inr new_year_scenario_tables
  /\ In r (quarterly new_year_scenario_tables)
  /\ growth_pct r = NaN.
Proof.
  cbv zeta.
  assert (E : calculate_growth_metrics (clean_data iso_date new_year_scenario)
                                       "date" "registrations" "category"
              = inr new_year_scenario_tables) by (vm_compute; reflexivity).
  assert (Hr : In (mkGrowth (2023, 1) "2W" 150 NaN)
                  (quarterly new_year_scenario_tables))
    by (right; left; reflexivity).
  split; [exact E|]. split; [exact Hr|].
  destruct (quarterly_growth_is_within_the_year _ _ _ _ _ _ E Hr) as (Hfirst & _).
  apply Hfirst. intros p [<-|[<-|[]]]; simpl; intros _ Hy; [discriminate Hy | lia].
Defined.

(** C1 as stated fails: with 100 registrations in the last quarter of 2022
    and 150 in the first quarter of 2023, the first quarter of 2023 has no
    quarterly growth, although the last quarter of 2022 is the period
    observed just before it; the claim gives (150 - 100) / 100 * 100 = 50.
    The monthly table of the same rows does compare across the years. *)
Lemma quarterly_growth_absent_after_year_end :
  calculate_growth_metrics (clean_data iso_date new_year_scenario)
                           "date" "registrations" "category"
  = inr new_year_scenario_tables
  /\ quarterly new_year_scenario_tables
     = [ mkGrowth (2022, 4) "2W" 100 NaN; mkGrowth (2023, 1) "2W" 150 NaN ]
  /\ ~ feq NaN (Fin 50)
  /\ Forall2 feq (map growth_pct (monthly new_year_scenario_tables)) [NaN; Fin 50].
Proof.
  split; [vm_compute; reflexivity|]. split; [reflexivity|]. split.
  - intros H. exact H.
  - repeat constructor.
Qed.

(** ** The totals *)

Section TotalFacts.

Context {P G : Type} `{CmpLaws P} `{CmpLaws G}.
Variable period_of : date -> P.
Variable by_ : P * string -> G.
Variable obs : list Observation.

Lemma present_values_cells (k : P * string) :
  present_values period_of k obs = cell_values k (map (keyed period_of) obs).
Proof.
  unfold present_values, cell_values, keyed.
  induction obs as [|[[d|] [g|] [v|]] l IH]; simpl; try exact IH; try reflexivity.
  now rewrite IH.
Qed.

Lemma zero_filled_values_cells (k : P * string) :
  zero_filled_values period_of k obs
  = cell_values_zero_filled k (map (keyed period_of) obs).
Proof.
  unfold zero_filled_values, cell_values_zero_filled, keyed.
  induction obs as [|[[d|] [g|] v] l IH]; simpl; try exact IH; try reflexivity.
  now rewrite IH.
Qed.

(** A row of a table holds the sum of the values present in its cell, which
    is also the sum with the missing values counted as zero, and its cell
    has a row of the frame. *)
Lemma table_row_total (r : GrowthRow P) :
  In r (with_growth by_ (groupby_sum (map (keyed period_of) obs))) ->
  (total_registrations r == sumQ (present_values period_of (row_key r) obs))%Q
  /\ (total_registrations r == sumQ (zero_filled_values period_of (row_key r) obs))%Q
  /\ exists o d, In o obs /\ ob_date o = Some d
                 /\ ob_group o = Some (group_value r) /\ period_of d = period r.
Proof.
  intros Hr. rewrite with_growth_rows in Hr.
  apply (in_map cell_of_row) in Hr. rewrite growth_rows_cells in Hr.
  destruct (groupby_sum_cells (map (keyed period_of) obs)) as (_ & Hsum & _).
  destruct (Hsum _ _ Hr) as (Ht & v & Hv).
  rewrite present_values_cells, zero_filled_values_cells, cell_values_zero_filled_sum.
  split; [exact Ht|]. split; [exact Ht|].
  apply in_map_iff in Hv as (o & Ho & Hin). exists o.
  unfold keyed in Ho. destruct (ob_date o) as [d|]; [|discriminate].
  destruct (ob_group o) as [g|]; [|discriminate].
  unfold row_key in Ho. injection Ho as Hp Hg _.
  exists d. subst. now repeat split.
Qed.

(** Every row of the frame that has a date and a group value has its cell
    in the table, whether it has a value or not. *)
Lemma table_has_cell (o : Observation) (d : date) (g : string) :
  In o obs -> ob_date o = Some d -> ob_group o = Some g ->
  In (period_of d, g)
     (map row_key (with_growth by_ (groupby_sum (map (keyed period_of) obs)))).
Proof.
  intros Ho Hd Hg.
  destruct (groupby_sum_cells (map (keyed period_of) obs)) as (_ & _ & Hall).
  rewrite with_growth_rows.
  rewrite <- (growth_rows_cells by_ [] (groupby_sum (map (keyed period_of) obs))) in Hall.
  rewrite map_map in Hall. apply (Hall _ (ob_value o)).
  apply in_map_iff. exists o. split; [|exact Ho].
  unfold keyed. now rewrite Hd, Hg.
Qed.

End TotalFacts.

(** A sum of registrations of some of the rows is, in absolute value, at
    most the sum of the absolute values of all the registrations. *)
Lemma present_values_bound {P : Type} `{Cmp P} (period_of : date -> P)
    (k : P * string) (obs : list Observation) :
  (Qabs (sumQ (present_values period_of k obs)) <= sumQ (map Qabs (values_of obs)))%Q.
Proof.
  unfold present_values, values_of.
  induction obs as [|[[d|] [g|] [v|]] l IH]; cbn [flat_map ob_date ob_group ob_value app];
    try exact IH.
  - discriminate.
  - destruct (cmp_eqb (period_of d, g) k); cbn [app map sumQ fold_right].
    + eapply Qle_trans; [apply Qabs_triangle|].
      apply Qplus_le_compat; [apply Qle_refl | exact IH].
    + rewrite <- (Qplus_0_l (Qabs _)).
      apply Qplus_le_compat; [apply Qabs_nonneg | exact IH].
  - cbn [map sumQ fold_right]. rewrite <- (Qplus_0_l (Qabs _)).
    apply Qplus_le_compat; [apply Qabs_nonneg | exact IH].
  - cbn [map sumQ fold_right]. rewrite <- (Qplus_0_l (Qabs _)).
    apply Qplus_le_compat; [apply Qabs_nonneg | exact IH].
  - cbn [map sumQ fold_right]. rewrite <- (Qplus_0_l (Qabs _)).
    apply Qplus_le_compat; [apply Qabs_nonneg | exact IH].
Qed.

(** With registrations that fit, every total is within the range of a
    64-bit integer. *)
Lemma total_fits_int64 {P : Type} `{Cmp P} (period_of : date -> P)
    (k : P * string) (obs : list Observation) (total : Q) :
  sums_fit_int64 obs ->
  (total == sumQ (present_values period_of k obs))%Q ->
  int64_range total.
Proof.
  unfold sums_fit_int64, int64_range. intros Hfit Htotal.
  assert (Habs : (Qabs total < inject_Z (2 ^ 63))%Q).
  { rewrite Htotal. eapply Qle_lt_trans; [apply present_values_bound | exact Hfit]. }
  apply Qabs_Qlt_condition in Habs as [Hlow Hhigh].
  split; [now apply Qlt_le_weak | exact Hhigh].
Qed.

(** C5, as the code has it. In each of the three tables, when the
    registrations add up in absolute value to less than 2^63 (the sum of a
    column of whole numbers is a 64-bit integer, which wraps around beyond
    that), the total of a cell is, in exact arithmetic, the sum of the
    registrations of exactly the rows that fall in its period and group and
    have a registrations value, and it is within the range of a 64-bit
    integer; a row without a date or without a group value is in no cell.
    A row without a registrations value adds nothing, so the total is also
    the total with the missing values counted as zero: leaving a value out
    of a sum and counting it as zero are the same. Every period and group
    that some row has makes a cell, even when none of its rows has a
    value. *)
Theorem totals_sum_the_present_values :
  forall (df : DataFrame) (date_col value_col group_col : string) (t : GrowthTables),
    calculate_growth_metrics df date_col value_col group_col = inr t ->
    exists obs,
      observations df date_col value_col group_col = inr obs
      /\ List.length obs = List.length (rows df)
      /\ (sums_fit_int64 obs ->
          (forall r, In r (monthly t) ->
             (total_registrations r == sumQ (present_values year_month (row_key r) obs))%Q
             /\ (total_registrations r
                 == sumQ (zero_filled_values year_month (row_key r) obs))%Q
             /\ int64_range (total_registrations r))
          /\ (forall r, In r (yearly t) ->
                (total_registrations r == sumQ (present_values year (row_key r) obs))%Q
                /\ (total_registrations r
                    == sumQ (zero_filled_values year (row_key r) obs))%Q
                /\ int64_range (total_registrations r))
          /\ (forall r, In r (quarterly t) ->
                (total_registrations r
                 == sumQ (present_values year_quarter (row_key r) obs))%Q
                /\ (total_registrations r
                    == sumQ (zero_filled_values year_quarter (row_key r) obs))%Q
                /\ int64_range (total_registrations r)))
      /\ (forall r, In r (monthly t) ->
            exists o d, In o obs /\ ob_date o = Some d
                        /\ ob_group o = Some (group_value r)
                        /\ year_month d = period r)
      /\ (forall r, In r (yearly t) ->
            exists o d, In o obs /\ ob_date o = Some d
                        /\ ob_group o = Some (group_value r)
                        /\ year d = period r)
      /\ (forall r, In r (quarterly t) ->
            exists o d, In o obs /\ ob_date o = Some d
                        /\ ob_group o = Some (group_value r)
                        /\ year_quarter d = period r)
      /\ (forall o d g, In o obs -> ob_date o = Some d -> ob_group o = Some g ->
            In (year_month d, g) (map row_key (monthly t))
            /\ In (year d, g) (map row_key (yearly t))
            /\ In (year_quarter d, g) (map row_key (quarterly t))).
Proof.
  intros df date_col value_col group_col t Ht.
  apply calculate_growth_metrics_tables in Ht as (obs & Hobs & ->).
  exists obs. split; [exact Hobs|]. split.
  { revert Hobs. unfold observations.
    destruct (col_index date_col (columns df)); [|discriminate].
    destruct (col_index group_col (columns df)); [|discriminate].
    destruct (col_index value_col (columns df)); [|discriminate].
    intros [= <-]. apply length_map. }
  cbn [growth_tables monthly yearly quarterly].
  unfold monthly_growth, yearly_growth, quarterly_growth.
  split; [|split; [|split; [|split]]].
  - intros Hfit. split; [|split]; intros r Hr.
    + destruct (table_row_total year_month by_group obs r Hr) as (Hp & Hz & _).
      split; [exact Hp|]. split; [exact Hz|].
      exact (total_fits_int64 year_month (row_key r) obs _ Hfit Hp).
    + destruct (table_row_total year by_group obs r Hr) as (Hp & Hz & _).
      split; [exact Hp|]. split; [exact Hz|].
      exact (total_fits_int64 year (row_key r) obs _ Hfit Hp).
    + destruct (table_row_total year_quarter by_group_and_year obs r Hr) as (Hp & Hz & _).
      split; [exact Hp|]. split; [exact Hz|].
      exact (total_fits_int64 year_quarter (row_key r) obs _ Hfit Hp).
  - intros r Hr. exact (proj2 (proj2 (table_row_total year_month by_group obs r Hr))).
  - intros r Hr. exact (proj2 (proj2 (table_row_total year by_group obs r Hr))).
  - intros r Hr.
    exact (proj2 (proj2 (table_row_total year_quarter by_group_and_year obs r Hr))).
  - intros o d g Ho Hd Hg. repeat split; now apply (table_has_cell _ _ _ o).
Qed.

(** A cell with a row of 100 registrations and a row without value. *)
Lemma totals_sum_the_present_values_witness :
  calculate_growth_metrics (clean_data iso_date missing_scenario)
                           "date" "registrations" "category"
  = inr missing_scenario_tables
  /\ exists obs,
       observations (clean_data iso_date missing_scenario)
                    "date" "registrations" "category" = inr obs
       /\ map ob_value obs = [Some 100%Q; None]
       /\ sums_fit_int64 obs
       /\ forall r, In r (monthly missing_scenario_tables) ->
            (total_registrations r == sumQ (present_values year_month (row_key r) obs))%Q
            /\ int64_range (total_registrations r).
Proof.
  assert (E : calculate_growth_metrics (clean_data iso_date missing_scenario)
                                       "date" "registrations" "category"
              = inr missing_scenario_tables) by (vm_compute; reflexivity).
  split; [exact E|].
  destruct (totals_sum_the_present_values _ _ _ _ _ E) as (obs & Hobs & _ & Hsums & _).
  exists obs. split; [exact Hobs|].
  pose proof Hobs as Hrows. vm_compute in Hrows. injection Hrows as Hrows.
  assert (Hvalues : map ob_value obs = [Some 100%Q; None])
    by (now rewrite <- Hrows).
  assert (Hfit : sums_fit_int64 obs) by (now rewrite <- Hrows).
  split; [exact Hvalues|]. split; [exact Hfit|].
  intros r Hr. destruct (Hsums Hfit) as (Hm & _).
  destruct (Hm r Hr) as (Hp & _ & Hrange). now split.
Defined.

(** C5 as stated fails in its last part: of two rows of one cell, with 100
    registrations and with none, the cell has the total 100, and the frame
    with the missing value filled with zero gives the same tables, so the
    total does not differ from the zero-filled total. *)
Lemma missing_value_total_is_zero_filled_total :
  rows (clean_data iso_date missing_scenario)
  = [ [Date (mkDate 2023 1 15); Str "2W"; Num 100];
      [Date (mkDate 2023 1 20); Str "2W"; NA] ]
  /\ calculate_growth_metrics (clean_data iso_date missing_scenario)
                              "date" "registrations" "category"
     = inr missing_scenario_tables
  /\ monthly missing_scenario_tables = [ mkGrowth (2023, 1) "2W" 100 NaN ]
  /\ rows (fillna_zero "registrations" (clean_data iso_date missing_scenario))
     = [ [Date (mkDate 2023 1 15); Str "2W"; Num 100];
         [Date (mkDate 2023 1 20); Str "2W"; Num 0] ]
  /\ calculate_growth_metrics
       (fillna_zero "registrations" (clean_data iso_date missing_scenario))
       "date" "registrations" "category"
     = inr missing_scenario_tables.
Proof.
  repeat split; vm_compute; reflexivity.
Qed.

(* ================================================================== *)
(** * Further properties of the pipeline *)

(** ** Numbers after cleaning *)

Lemma digit_value_range (c : ascii) :
  Py.is_digit c = true -> 0 <= Z.of_N (Py.code c) - 48 <= 9.
Proof.
  unfold Py.is_digit. intros H. apply andb_prop in H as [H1 H2].
  apply N.leb_le in H1, H2. lia.
Qed.

Lemma digits_value_nonneg (s : string) :
  forall acc, Py.all_chars Py.is_digit s = true -> 0 <= acc ->
              0 <= Py.digits_value acc s.
Proof.
  induction s as [|c t IH]; cbn [Py.digits_value Py.all_chars];
    intros acc Hall Hacc; [exact Hacc|].
  apply andb_prop in Hall as [Hc Ht].
  apply IH; [exact Ht|]. pose proof (digit_value_range c Hc). lia.
Qed.

Lemma split_point_digits (s : string) :
  Py.all_chars (fun c => Py.is_digit c || Ascii.eqb c "."%char) s = true ->
  Py.all_chars Py.is_digit (fst (Py.split_point s)) = true.
Proof.
  induction s as [|c t IH]; simpl; [reflexivity|].
  intros H. apply andb_prop in H as [Hc Ht].
  destruct (Ascii.eqb c "."%char) eqn:E; [reflexivity|].
  specialize (IH Ht). destruct (Py.split_point t) as [a b]. simpl in *.
  rewrite orb_false_r in Hc. now rewrite Hc.
Qed.

Lemma to_numeric_nonneg (s : string) (q : Q) : to_numeric s = Some q -> (0 <= q)%Q.
Proof.
  unfold to_numeric.
  destruct (Py.all_chars (fun c => Py.is_digit c || Ascii.eqb c "."%char) s) eqn:Hall;
    [|discriminate].
  pose proof (split_point_digits s Hall) as Hip. simpl negb. cbv iota.
  destruct (Py.split_point s) as [ip [fp|]]; simpl in Hip.
  - destruct (Py.all_chars Py.is_digit fp) eqn:Hfp; [|discriminate].
    destruct (negb (Nat.eqb (String.length ip + String.length fp) 0)); [|discriminate].
    simpl. intros [= <-].
    pose proof (digits_value_nonneg ip 0 Hip (Z.le_refl 0)).
    pose proof (digits_value_nonneg fp 0 Hfp (Z.le_refl 0)).
    unfold Qle, Qplus, inject_Z. simpl. nia.
  - pose proof (digits_value_nonneg ip 0 Hip (Z.le_refl 0)) as Hv.
    remember (Py.digits_value 0 ip) as v eqn:Ev. clear Ev.
    destruct ip; [discriminate|]. intros [= <-].
    unfold Qle, inject_Z. simpl. lia.
Qed.

Lemma strip_and_parse_nonneg (s : string) (q : Q) :
  strip_and_parse s = Num q -> (0 <= q)%Q.
Proof.
  unfold strip_and_parse.
  destruct (to_numeric (Py.keep_digits_and_points s)) as [q'|] eqn:E; [|discriminate].
  intros [= <-]. exact (to_numeric_nonneg _ _ E).
Qed.

(** The number pass on a cell of a text frame, after the date pass, gives
    no negative number. *)
Lemma clean_cell_number_nonneg (to_datetime : string -> option date)
    (name : string) (x : option string) (q : Q) :
  is_numeric_col name = true ->
  clean_cell to_datetime name (of_raw x) = Num q -> (0 <= q)%Q.
Proof.
  intros Hn. unfold clean_cell. rewrite Hn.
  label_cases name.
  destruct (is_date_col name); destruct x as [s|]; simpl;
    try (apply strip_and_parse_nonneg).
  destruct (to_datetime s); simpl; apply strip_and_parse_nonneg.
Qed.

Lemma map_row_nth_error_inv f cols r i name c' :
  nth_error cols i = Some name -> nth_error (map_row f cols r) i = Some c' ->
  exists c, nth_error r i = Some c /\ c' = f name c.
Proof.
  revert cols i. induction r as [|x xs IH]; intros [|n ns] [|i]; simpl;
    try discriminate.
  - intros [= <-] [= <-]. now exists x.
  - apply IH.
Qed.

(** A number in a numeric-vocabulary column of a cleaned frame is not
    negative. *)
Lemma clean_data_number_nonneg (to_datetime : string -> option date) (df : RawFrame)
    (row : list cell) (i : nat) (name : string) (q : Q) :
  In row (rows (clean_data to_datetime df)) ->
  nth_error (columns (clean_data to_datetime df)) i = Some name ->
  is_numeric_col name = true ->
  nth_error row i = Some (Num q) ->
  (0 <= q)%Q.
Proof.
  intros Hrow Hname Hnum Hcell.
  rewrite clean_data_by_cell in Hrow, Hname. cbv zeta in Hrow, Hname.
  cbn [rows columns] in Hrow, Hname.
  apply in_map_iff in Hrow as (raw & <- & _).
  destruct (map_row_nth_error_inv _ _ _ _ _ _ Hname Hcell) as (c & Hc & Hq).
  rewrite nth_error_map in Hc.
  destruct (nth_error raw i) as [x|]; [|discriminate].
  injection Hc as <-. symmetry in Hq.
  exact (clean_cell_number_nonneg _ _ _ _ Hnum Hq).
Qed.

(** X1. In a frame cleaned by [clean_data] from a frame whose labels stay
    distinct, no cell of a numeric-vocabulary column is a negative number:
    the stripping of line 63 removes the minus sign with everything that is
    not a digit or a point, so a text and the same text with a minus sign in
    front are cleaned to the same cell. *)
Theorem cleaned_numbers_are_not_negative :
  forall (to_datetime : string -> option date) (df : RawFrame)
         (row : list cell) (i : nat) (name : string) (q : Q),
    distinct_labels df ->
    In row (rows (clean_data to_datetime df)) ->
    nth_error (columns (clean_data to_datetime df)) i = Some name ->
    is_numeric_col name = true ->
    nth_error row i = Some (Num q) ->
    (0 <= q)%Q
    /\ forall s, to_numeric_cell (Str (String "-" s)) = to_numeric_cell (Str s).
Proof.
  intros to_datetime df row i name q _ Hrow Hname Hnum Hcell.
  split; [|reflexivity].
  exact (clean_data_number_nonneg to_datetime df row i name q Hrow Hname Hnum Hcell).
Qed.

(** A count of -250 is cleaned to 250. *)
Lemma cleaned_numbers_are_not_negative_witness :
  distinct_labels signed_scenario
  /\ In [Date (mkDate 2023 1 15); Str "2W"; Num 250]
        (rows (clean_data iso_date signed_scenario))
  /\ nth_error (columns (clean_data iso_date signed_scenario)) 2 = Some "registrations"
  /\ is_numeric_col "registrations" = true
  /\ (0 <= 250)%Q.
Proof.
  assert (Hlabels : distinct_labels signed_scenario).
  { unfold distinct_labels. vm_compute.
    repeat (constructor; [cbn [In]; intuition discriminate|]). constructor. }
  assert (Hrow : In [Date (mkDate 2023 1 15); Str "2W"; Num 250]
                    (rows (clean_data iso_date signed_scenario)))
    by (left; reflexivity).
  split; [exact Hlabels|]. split; [exact Hrow|]. split; [reflexivity|].
  split; [reflexivity|].
  exact (proj1 (cleaned_numbers_are_not_negative iso_date signed_scenario _ 2%nat
                  "registrations" 250 Hlabels Hrow eq_refl eq_refl eq_refl)).
Defined.

(** ** Totals and growth of cleaned data *)

Lemma sumQ_nonneg (l : list Q) : Forall (fun v => (0 <= v)%Q) l -> (0 <= sumQ l)%Q.
Proof.
  induction 1 as [|v l Hv Hl IH]; simpl; [apply Qle_refl|].
  rewrite <- (Qplus_0_l 0). now apply Qplus_le_compat.
Qed.

Lemma Qneg_nonneg (t : Q) : (0 <= t)%Q -> Qneg t = false.
Proof.
  unfold Qneg. intros Ht. destruct (Qcompare t 0) eqn:E; try reflexivity.
  apply Qlt_alt in E. exfalso. exact (Qlt_not_le _ _ E Ht).
Qed.

(** The change of a total that is not negative over one that is not
    negative. *)
Lemma pct100_bounds (t p : Q) :
  (0 <= t)%Q -> (0 <= p)%Q -> not_below_minus_100 (pct100 t (Fin p)).
Proof.
  intros Ht Hp. destruct (Qzero p) eqn:Ez.
  - apply Qzero_iff in Ez. rewrite (pct100_over_zero t p Ez).
    destruct (Qzero t); simpl; [exact I | now apply Qneg_nonneg].
  - unfold pct100, fdiv. rewrite Ez. simpl.
    assert (Hpos : (0 < p)%Q).
    { apply Qle_lteq in Hp as [Hp|Hp]; [exact Hp|].
      symmetry in Hp. apply Qzero_iff in Hp. congruence. }
    assert (Hdiv : (0 <= t / p)%Q).
    { apply Qle_shift_div_l; [exact Hpos|]. now rewrite Qmult_0_l. }
    setoid_replace (-100)%Q with ((0 - 1) * 100)%Q by reflexivity.
    apply Qmult_le_compat_r; [|discriminate].
    apply Qplus_le_compat; [exact Hdiv | apply Qle_refl].
Qed.

Section BoundFacts.

Context {P G : Type} `{CmpLaws P} `{CmpLaws G}.
Variable by_ : P * string -> G.

Lemma cell_values_In (k : P * string) (items : list (option (P * string) * option Q))
    (v : Q) :
  In v (cell_values k items) -> exists k', In (Some k', Some v) items.
Proof.
  unfold cell_values. intros Hin. apply in_flat_map in Hin as ([[k'|] [x|]] & Hit & Hv);
    simpl in Hv; try contradiction.
  destruct (cmp_eqb k' k); [|contradiction].
  destruct Hv as [<-|[]]. now exists k'.
Qed.

(** When no value is negative, no total is negative and no growth is below
    -100 or minus infinity. *)
Lemma table_bounds (items : list (option (P * string) * option Q)) :
  (forall k v, In (k, Some v) items -> (0 <= v)%Q) ->
  forall r, In r (with_growth by_ (groupby_sum items)) ->
            (0 <= total_registrations r)%Q /\ not_below_minus_100 (growth_pct r).
Proof.
  intros Hvalues.
  assert (Htotal : forall r, In r (with_growth by_ (groupby_sum items)) ->
                             (0 <= total_registrations r)%Q).
  { intros r Hr. rewrite with_growth_rows in Hr.
    apply (in_map cell_of_row) in Hr. rewrite growth_rows_cells in Hr.
    destruct (groupby_sum_cells items) as (_ & Hsum & _).
    destruct (Hsum _ _ Hr) as (Ht & _). rewrite Ht.
    apply sumQ_nonneg, Forall_forall. intros v Hv.
    apply cell_values_In in Hv as (k' & Hv). exact (Hvalues _ _ Hv). }
  intros r Hr. split; [now apply Htotal|].
  destruct (in_split _ _ Hr) as (above & below & Htable).
  pose proof Htable as Hrows. rewrite with_growth_rows in Hrows.
  rewrite (growth_of_row by_ _ _ _ _ Hrows). unfold shifted.
  destruct (find _ (rev (map cell_of_row above))) as [c|] eqn:E; [|exact I].
  apply find_some in E as [Hc _].
  apply in_rev, in_map_iff in Hc as (p & <- & Hp).
  apply pct100_bounds; [now apply Htotal|].
  apply Htotal. rewrite Htable. apply in_or_app. now left.
Qed.

End BoundFacts.

Lemma col_index_nth_error (name : string) (cols : list string) (i : nat) :
  col_index name cols = Some i -> nth_error cols i = Some name.
Proof.
  revert i. induction cols as [|c t IH]; simpl; intros i; [discriminate|].
  destruct (String.eqb_spec name c) as [->|Hne].
  - intros [= <-]. reflexivity.
  - destruct (col_index name t) as [j|]; [|discriminate].
    intros [= <-]. simpl. now apply IH.
Qed.

(** In a cleaned frame every value read from a numeric-vocabulary column is
    a number that is not negative. *)
Lemma cleaned_observations_nonneg (to_datetime : string -> option date)
    (df : RawFrame) (date_col value_col group_col : string) (obs : list Observation) :
  is_numeric_col value_col = true ->
  observations (clean_data to_datetime df) date_col value_col group_col = inr obs ->
  forall o v, In o obs -> ob_value o = Some v -> (0 <= v)%Q.
Proof.
  intros Hnum. unfold observations.
  destruct (col_index date_col _) as [di|]; [|discriminate].
  destruct (col_index group_col _) as [gi|]; [|discriminate].
  destruct (col_index value_col _) as [vi|] eqn:Evi; [|discriminate].
  intros [= <-] o v Ho Hv.
  apply in_map_iff in Ho as (row & <- & Hrow). simpl in Hv.
  unfold get_cell in Hv.
  destruct (nth_error row vi) as [c|] eqn:Ec.
  - rewrite (nth_error_nth _ _ NA Ec) in Hv.
    destruct c as [|s|q|d]; try discriminate. injection Hv as ->.
    exact (clean_data_number_nonneg to_datetime df row vi value_col v Hrow
             (col_index_nth_error _ _ _ Evi) Hnum Ec).
  - rewrite nth_overflow in Hv; [discriminate|].
    now apply nth_error_None.
Qed.

(** X2. On a frame cleaned by [clean_data] from a frame whose labels stay
    distinct, with the dates taken from a date-named column and the values
    from a numeric-vocabulary column whose values add up to less than 2^63
    (so that no sum wraps around as a 64-bit integer), in exact arithmetic:
    no total of the three growth tables is negative or leaves the range of
    a 64-bit integer, and every growth is absent, positive infinity or a
    number that is at least -100; minus infinity and a fall of more than
    100 percent do not occur. *)
Theorem cleaned_growth_is_at_least_minus_100 :
  forall (to_datetime : string -> option date) (df : RawFrame)
         (date_col value_col group_col : string) (obs : list Observation)
         (t : GrowthTables),
    distinct_labels df ->
    is_date_col date_col = true ->
    is_numeric_col value_col = true ->
    observations (clean_data to_datetime df) date_col value_col group_col = inr obs ->
    sums_fit_int64 obs ->
    calculate_growth_metrics (clean_data to_datetime df) date_col value_col group_col
    = inr t ->
    (forall r, In r (monthly t) ->
               (0 <= total_registrations r)%Q
               /\ (total_registrations r < inject_Z (2 ^ 63))%Q
               /\ not_below_minus_100 (growth_pct r))
    /\ (forall r, In r (yearly t) ->
                  (0 <= total_registrations r)%Q
                  /\ (total_registrations r < inject_Z (2 ^ 63))%Q
                  /\ not_below_minus_100 (growth_pct r))
    /\ (forall r, In r (quarterly t) ->
                  (0 <= total_registrations r)%Q
                  /\ (total_registrations r < inject_Z (2 ^ 63))%Q
                  /\ not_below_minus_100 (growth_pct r)).
Proof.
  intros to_datetime df date_col value_col group_col obs t _ _ Hnum Hobs Hfit Ht.
  apply calculate_growth_metrics_tables in Ht as (obs' & Hobs' & ->).
  rewrite Hobs in Hobs'. injection Hobs' as <-.
  pose proof (cleaned_observations_nonneg _ _ _ _ _ _ Hnum Hobs) as Hvalues.
  assert (Hitems : forall {P : Type} (period_of : date -> P) k v,
             In (k, Some v) (map (keyed period_of) obs) -> (0 <= v)%Q).
  { intros P period_of k v Hin. apply in_map_iff in Hin as (o & Ho & Hin).
    unfold keyed in Ho. injection Ho as _ Hv. exact (Hvalues o v Hin Hv). }
  cbn [growth_tables monthly yearly quarterly].
  unfold monthly_growth, yearly_growth, quarterly_growth.
  split; [|split]; intros r Hr.
  - destruct (table_bounds by_group _ (Hitems _ year_month) r Hr) as [H0 Hg].
    split; [exact H0|]. split; [|exact Hg].
    destruct (table_row_total year_month by_group obs r Hr) as (Hp & _).
    exact (proj2 (total_fits_int64 year_month (row_key r) obs _ Hfit Hp)).
  - destruct (table_bounds by_group _ (Hitems _ year) r Hr) as [H0 Hg].
    split; [exact H0|]. split; [|exact Hg].
    destruct (table_row_total year by_group obs r Hr) as (Hp & _).
    exact (proj2 (total_fits_int64 year (row_key r) obs _ Hfit Hp)).
  - destruct (table_bounds by_group_and_year _ (Hitems _ year_quarter) r Hr) as [H0 Hg].
    split; [exact H0|]. split; [|exact Hg].
    destruct (table_row_total year_quarter by_group_and_year obs r Hr) as (Hp & _).
    exact (proj2 (total_fits_int64 year_quarter (row_key r) obs _ Hfit Hp)).
Qed.

(** The totals 100, 150 and 0 of one category: the growth of the last month
    is -100. *)
Lemma cleaned_growth_is_at_least_minus_100_witness :
  distinct_labels growth_scenario
  /\ is_date_col "date" = true
  /\ is_numeric_col "registrations" = true
  /\ calculate_growth_metrics (clean_data iso_date growth_scenario)
                              "date" "registrations" "category"
     = inr growth_scenario_tables
  /\ In (mkGrowth (2023, 3) "2W" 0 (Fin (-15000 # 150))) (monthly growth_scenario_tables)
  /\ not_below_minus_100 (Fin (-15000 # 150)).
Proof.
  assert (Hlabels : distinct_labels growth_scenario).
  { unfold distinct_labels. vm_compute.
    repeat (constructor; [cbn [In]; intuition discriminate|]). constructor. }
  assert (E : calculate_growth_metrics (clean_data iso_date growth_scenario)
                                       "date" "registrations" "category"
              = inr growth_scenario_tables) by (vm_compute; reflexivity).
  assert (Hr : In (mkGrowth (2023, 3) "2W" 0 (Fin (-15000 # 150)))
                  (monthly growth_scenario_tables))
    by (right; right; left; reflexivity).
  destruct (observations (clean_data iso_date growth_scenario)
                         "date" "registrations" "category") as [e|obs] eqn:Hobs;
    [vm_compute in Hobs; discriminate|].
  assert (Hfit : sums_fit_int64 obs).
  { pose proof Hobs as Hrows. vm_compute in Hrows. injection Hrows as Hrows.
    now rewrite <- Hrows. }
  split; [exact Hlabels|]. split; [reflexivity|]. split; [reflexivity|].
  split; [exact E|]. split; [exact Hr|].
  destruct (cleaned_growth_is_at_least_minus_100 iso_date growth_scenario
              "date" "registrations" "category" obs _ Hlabels eq_refl eq_refl Hobs Hfit E)
    as (Hm & _ & _).
  exact (proj2 (proj2 (Hm _ Hr))).
Defined.

(** ** Manufacturers cleaned twice *)

Lemma title_char_facts (c : ascii) :
  Py.is_cased (Py.upper_char c) = Py.is_cased c
  /\ Py.is_cased (Py.lower_char c) = Py.is_cased c
  /\ Py.lower_char (Py.lower_char c) = Py.lower_char c.
Proof.
  destruct c as [b0 b1 b2 b3 b4 b5 b6 b7].
  destruct b0, b1, b2, b3, b4, b5, b6, b7; repeat split; reflexivity.
Qed.

Lemma title_from_idem (s : string) :
  forall prev_cased,
    Py.title_from prev_cased (Py.title_from prev_cased s) = Py.title_from prev_cased s.
Proof.
  induction s as [|c t IH]; intros prev_cased; simpl; [reflexivity|].
  destruct (title_char_facts c) as (Hu & Hl & Hll).
  destruct (Py.is_cased c) eqn:Ec; simpl.
  - destruct prev_cased.
    + rewrite Hl, Hll, IH. reflexivity.
    + rewrite Hu, upper_char_idem, IH. reflexivity.
  - rewrite Ec, IH. reflexivity.
Qed.

Lemma title_idem (s : string) : Py.title (Py.title s) = Py.title s.
Proof. apply title_from_idem. Qed.

(** X4. Cleaning a manufacturer of ASCII characters a second time changes
    it exactly when the first cleaning gave Hero MotoCorp, that is when its
    title-cased text is the alias Hero: every other ASCII label, alias or
    not, is left as it is by a second cleaning.  (Beyond ASCII the title
    case of Python is not idempotent.) *)
Theorem manufacturer_recleaning_changes_only_hero :
  forall s : string,
    is_ascii_text s = true ->
    (normalize_manufacturer (normalize_manufacturer s) = normalize_manufacturer s
     <-> Py.title s <> "Hero").
Proof.
  intros s _. unfold normalize_manufacturer.
  assert (Hnot : Py.title s <> "Hero MotoCorp").
  { intros E. pose proof (title_idem s) as Hi. rewrite E in Hi.
    vm_compute in Hi. discriminate Hi. }
  split.
  - intros Hidem E. rewrite E in Hidem. vm_compute in Hidem. discriminate Hidem.
  - intros Hne.
    destruct (replace_value_hit_or_miss manufacturer_aliases (Py.title s))
      as [Hmiss|Hhit].
    + rewrite (replace_value_miss _ _ Hmiss), title_idem.
      now rewrite (replace_value_miss _ _ Hmiss).
    + change (map snd manufacturer_aliases)
        with ["Hero MotoCorp"; "Bajaj Auto"; "Tata Motors"; "Mahindra & Mahindra";
              "Mahindra & Mahindra"] in Hhit.
      cbn [In] in Hhit.
      destruct Hhit as [Hhit|Hhit].
      * exfalso. revert Hhit. unfold manufacturer_aliases. cbn [replace_value].
        destruct (String.eqb_spec (Py.title s) "Hero"); [contradiction|].
        repeat (match goal with
                | |- context [String.eqb (Py.title s) ?k] =>
                    destruct (String.eqb (Py.title s) k); [discriminate|]
                end).
        intros E. now apply Hnot.
      * repeat (destruct Hhit as [Hhit|Hhit]; [rewrite <- Hhit; reflexivity|]).
        contradiction.
Qed.

(** The label hero is cleaned to Hero MotoCorp, which a second cleaning
    changes; the label bajaj is cleaned to Bajaj Auto, which it keeps. *)
Lemma manufacturer_recleaning_changes_only_hero_witness :
  is_ascii_text "bajaj" = true
  /\ is_ascii_text "hero" = true
  /\ normalize_manufacturer (normalize_manufacturer "bajaj") = normalize_manufacturer "bajaj"
  /\ normalize_manufacturer (normalize_manufacturer "hero") <> normalize_manufacturer "hero".
Proof.
  split; [reflexivity|]. split; [reflexivity|]. split.
  - apply (proj2 (manufacturer_recleaning_changes_only_hero "bajaj" eq_refl)). discriminate.
  - intros E. apply (proj1 (manufacturer_recleaning_changes_only_hero "hero" eq_refl) E).
    reflexivity.
Defined.

(** ** Column labels *)

Lemma lstrip_head_ok (s : string) : head_ok (Py.lstrip s) = true.
Proof.
  induction s as [|c t IH]; simpl; [reflexivity|].
  destruct (Py.is_space c) eqn:E; [exact IH|]. simpl. now rewrite E.
Qed.

Lemma head_ok_lstrip (s : string) : head_ok s = true -> Py.lstrip s = s.
Proof.
  destruct s as [|c t]; simpl; [reflexivity|].
  intros H. apply negb_true_iff in H. now rewrite H.
Qed.

Lemma rstrip_head_ok (s : string) : head_ok s = true -> head_ok (Py.rstrip s) = true.
Proof.
  destruct s as [|c t]; simpl; [reflexivity|].
  intros H. destruct (Py.rstrip t); simpl; [|exact H].
  apply negb_true_iff in H. rewrite H. simpl. now rewrite H.
Qed.

Lemma rstrip_last_ok (s : string) : last_ok (Py.rstrip s) = true.
Proof.
  induction s as [|c t IH]; simpl; [reflexivity|].
  destruct (Py.rstrip t) as [|a b] eqn:E.
  - destruct (Py.is_space c) eqn:Ec; simpl; [reflexivity | now rewrite Ec].
  - exact IH.
Qed.

Lemma last_ok_rstrip (s : string) : last_ok s = true -> Py.rstrip s = s.
Proof.
  induction s as [|c t IH]; [reflexivity|].
  intros H. cbn [Py.rstrip]. destruct t as [|a b].
  - simpl in *. apply negb_true_iff in H. now rewrite H.
  - rewrite (IH H). reflexivity.
Qed.

Lemma standardize_char_facts (c : ascii) :
  standardize_char (standardize_char c) = standardize_char c
  /\ (Py.is_space c = false -> Py.is_space (standardize_char c) = false)
  /\ Ascii.eqb (standardize_char c) " "%char = false
  /\ Py.is_upper (standardize_char c) = false.
Proof.
  destruct c as [b0 b1 b2 b3 b4 b5 b6 b7].
  destruct b0, b1, b2, b3, b4, b5, b6, b7; repeat split; try reflexivity;
    intros H; try discriminate H; reflexivity.
Qed.

Lemma standardize_column_chars (col : string) :
  standardize_column col = Py.map_chars standardize_char (Py.strip col).
Proof.
  unfold standardize_column, Py.replace_char, Py.lower.
  induction (Py.strip col) as [|c t IH]; simpl; [reflexivity|].
  now rewrite IH.
Qed.

Lemma map_chars_head_ok (s : string) :
  head_ok s = true -> head_ok (Py.map_chars standardize_char s) = true.
Proof.
  destruct s as [|c t]; simpl; [reflexivity|].
  intros H. apply negb_true_iff in H. apply negb_true_iff.
  now apply (standardize_char_facts c).
Qed.

Lemma map_chars_last_ok (s : string) :
  last_ok s = true -> last_ok (Py.map_chars standardize_char s) = true.
Proof.
  induction s as [|c t IH]; [reflexivity|].
  destruct t as [|a b].
  - simpl. intros H. apply negb_true_iff in H. apply negb_true_iff.
    now apply (standardize_char_facts c).
  - intros H. specialize (IH H). exact IH.
Qed.

(** X5. The standard form of a column label (line 46) has no space and no
    upper-case letter, and standardizing it again changes nothing: the
    labels of a cleaned frame are left as they are by a second cleaning. *)
Theorem standardize_column_is_idempotent :
  forall col : string,
    standardize_column (standardize_column col) = standardize_column col
    /\ Py.contains " " (standardize_column col) = false
    /\ Py.all_chars (fun c => negb (Py.is_upper c)) (standardize_column col) = true.
Proof.
  intros col. rewrite !standardize_column_chars.
  set (u := Py.strip col).
  assert (Hhead : head_ok (Py.map_chars standardize_char u) = true).
  { apply map_chars_head_ok. apply rstrip_head_ok, lstrip_head_ok. }
  assert (Hlast : last_ok (Py.map_chars standardize_char u) = true).
  { apply map_chars_last_ok. apply rstrip_last_ok. }
  split; [|split].
  - unfold Py.strip at 1. rewrite (head_ok_lstrip _ Hhead), (last_ok_rstrip _ Hlast).
    clear. induction u as [|c t IH]; simpl; [reflexivity|].
    rewrite IH. f_equal. apply (standardize_char_facts c).
  - clear. induction u as [|c t IH]; [reflexivity|].
    destruct (standardize_char_facts c) as (_ & _ & Hsp & _).
    cbn [Py.map_chars Py.contains]. rewrite IH, orb_false_r.
    cbn [String.prefix].
    destruct (ascii_dec " "%char (standardize_char c)) as [E|E]; [|reflexivity].
    rewrite <- E in Hsp. discriminate Hsp.
  - clear. induction u as [|c t IH]; simpl; [reflexivity|].
    destruct (standardize_char_facts c) as (_ & _ & _ & Hup).
    now rewrite Hup, IH.
Qed.

(** ** Frames put together *)

Lemma union_columns_In (dfs : list RawFrame) (c : string) :
  In c (union_columns dfs) <-> exists df, In df dfs /\ In c (raw_columns df).
Proof.
  unfold union_columns.
  assert (Hgen : forall acc,
             In c (fold_left
                     (fun acc df =>
                        (acc ++ filter (fun c => negb (in_columns c acc)) (raw_columns df))%list)
                     dfs acc)
             <-> In c acc \/ exists df, In df dfs /\ In c (raw_columns df)).
  { induction dfs as [|df dfs IH]; intros acc; simpl.
    - split; [now left | intros [H|(df & [] & _)]; exact H].
    - rewrite IH, in_app_iff, filter_In. split.
      + intros [[H|[H _]]|(df' & Hin & Hc)].
        * now left.
        * right. exists df. split; [now left | exact H].
        * right. exists df'. split; [now right | exact Hc].
      + intros [H|(df' & [->|Hin] & Hc)].
        * left. now left.
        * left. destruct (in_columns c acc) eqn:E.
          -- left. now apply in_columns_In.
          -- right. now split.
        * right. exists df'. now split. }
  rewrite Hgen. split; [intros [[]|H]; exact H | now right].
Qed.

Lemma concat_frames_rows_length (dfs : list RawFrame) :
  List.length (raw_rows (concat_frames dfs))
  = list_sum (map (fun df => List.length (raw_rows df)) dfs).
Proof.
  unfold concat_frames. cbn [raw_rows]. generalize (union_columns dfs) as cols.
  intros cols. induction dfs as [|df dfs IH]; simpl; [reflexivity|].
  now rewrite length_app, length_map, IH.
Qed.

(** X6. [pd.concat] of line 31, on frames of different labels: the result
    has as many rows as the frames together and every label of every frame;
    a row of a frame is in the result, as long as the labels of the result,
    holding under each label the cell it has under that label in its frame,
    and a missing value under a label that its frame does not have. *)
Theorem concat_frames_keeps_cells :
  forall (dfs : list RawFrame) (df : RawFrame) (r : list (option string)),
    In df dfs -> In r (raw_rows df) ->
    let cols := raw_columns (concat_frames dfs) in
    let r' := reindex_row (raw_columns df) cols r in
    In r' (raw_rows (concat_frames dfs))
    /\ List.length r' = List.length cols
    /\ (forall c, In c (raw_columns df) -> In c cols)
    /\ (forall c j, col_index c cols = Some j ->
          nth_error r' j
          = Some (match col_index c (raw_columns df) with
                  | Some i => nth i r None
                  | None => None
                  end))
    /\ List.length (raw_rows (concat_frames dfs))
       = list_sum (map (fun df => List.length (raw_rows df)) dfs).
Proof.
  intros dfs df r Hdf Hr. cbv zeta. cbn [concat_frames raw_columns raw_rows].
  split; [|split; [|split; [|split]]].
  - apply in_flat_map. exists df. split; [exact Hdf|]. now apply in_map.
  - unfold reindex_row. now rewrite length_map.
  - intros c Hc. apply union_columns_In. now exists df.
  - intros c j Hj. unfold reindex_row.
    rewrite nth_error_map, (col_index_nth_error _ _ _ Hj). reflexivity.
  - apply concat_frames_rows_length.
Qed.

(** A file with a date and a count after a file with a date and a category:
    its row has no category. *)
Lemma concat_frames_keeps_cells_witness :
  let df := mkRaw ["Date"; "Count"] [ [Some "2023-01-15"; Some "100"] ] in
  In [Some "2023-01-15"; None; Some "100"]
     (raw_rows (concat_frames [mkRaw ["Date"; "Category"] [ [Some "2023-01-10"; Some "2W"] ];
                               df]))
  /\ raw_columns (concat_frames [mkRaw ["Date"; "Category"] [ [Some "2023-01-10"; Some "2W"] ];
                                 df])
     = ["Date"; "Category"; "Count"].
Proof.
  cbv zeta. split; [|reflexivity].
  exact (proj1 (concat_frames_keeps_cells
                  [mkRaw ["Date"; "Category"] [ [Some "2023-01-10"; Some "2W"] ];
                   mkRaw ["Date"; "Count"] [ [Some "2023-01-15"; Some "100"] ]]
                  (mkRaw ["Date"; "Count"] [ [Some "2023-01-15"; Some "100"] ])
                  [Some "2023-01-15"; Some "100"]
                  (or_intror (or_introl eq_refl)) (or_introl eq_refl))).
Defined.

(** ** One row for each period and group value *)

Section KeyFacts.

Context {K : Type} `{CmpLaws K}.

Lemma sorted_keys_NoDup {A : Type} (key : A -> K) (l : list A) :
  StronglySorted (fun a b => cmp (key a) (key b) = Lt) l -> NoDup (map key l).
Proof.
  induction 1 as [|x l Hs IH Hx]; simpl; constructor; [|exact IH].
  intros Hin. apply in_map_iff in Hin as (y & Hy & Hin).
  rewrite Forall_forall in Hx. specialize (Hx y Hin).
  rewrite Hy, cmp_refl in Hx. discriminate.
Qed.

End KeyFacts.

(** X7. Each of the three growth tables has its rows in the order of the
    keys of its [groupby], the period first and the group value second, and
    has one row only for a period and a group value. *)
Theorem growth_tables_have_one_row_per_cell :
  forall (df : DataFrame) (date_col value_col group_col : string) (t : GrowthTables),
    calculate_growth_metrics df date_col value_col group_col = inr t ->
    (StronglySorted (fun a b => cmp (row_key a) (row_key b) = Lt) (monthly t)
     /\ NoDup (map row_key (monthly t)))
    /\ (StronglySorted (fun a b => cmp (row_key a) (row_key b) = Lt) (yearly t)
        /\ NoDup (map row_key (yearly t)))
    /\ (StronglySorted (fun a b => cmp (row_key a) (row_key b) = Lt) (quarterly t)
        /\ NoDup (map row_key (quarterly t))).
Proof.
  intros df date_col value_col group_col t Ht.
  apply calculate_growth_metrics_tables in Ht as (obs & _ & ->).
  cbn [growth_tables monthly yearly quarterly].
  unfold monthly_growth, yearly_growth, quarterly_growth.
  split; [|split]; (split; [apply table_sorted | apply sorted_keys_NoDup, table_sorted]).
Qed.

(** The tables of the scenario of two years: the quarterly table has its
    two rows in the order of their periods. *)
Lemma growth_tables_have_one_row_per_cell_witness :
  calculate_growth_metrics (clean_data iso_date new_year_scenario)
                           "date" "registrations" "category"
  = inr new_year_scenario_tables
  /\ NoDup (map row_key (quarterly new_year_scenario_tables))
  /\ map row_key (quarterly new_year_scenario_tables)
     = [ ((2022, 4), "2W"); ((2023, 1), "2W") ].
Proof.
  assert (E : calculate_growth_metrics (clean_data iso_date new_year_scenario)
                                       "date" "registrations" "category"
              = inr new_year_scenario_tables) by (vm_compute; reflexivity).
  split; [exact E|]. split; [|reflexivity].
  destruct (growth_tables_have_one_row_per_cell _ _ _ _ _ E) as (_ & _ & _ & Hq).
  exact Hq.
Defined.

(** ** The yearly totals and the totals of the months and quarters *)

Lemma sumQ_map_plus {A : Type} (f g : A -> Q) (l : list A) :
  (sumQ (map (fun a => f a + g a) l) == sumQ (map f l) + sumQ (map g l))%Q.
Proof.
  induction l as [|a l IH]; simpl; [ring|]. rewrite IH. ring.
Qed.

Lemma sumQ_map_ext {A : Type} (f g : A -> Q) (l : list A) :
  (forall a, In a l -> (f a == g a)%Q) -> (sumQ (map f l) == sumQ (map g l))%Q.
Proof.
  induction l as [|a l IH]; simpl; intros Hfg; [reflexivity|].
  rewrite (Hfg a (or_introl eq_refl)), IH; [reflexivity|].
  intros b Hb. apply Hfg. now right.
Qed.

Lemma sumQ_map_zero {A : Type} (f : A -> Q) (l : list A) :
  (forall a, In a l -> (f a == 0)%Q) -> (sumQ (map f l) == 0)%Q.
Proof.
  induction l as [|a l IH]; simpl; intros Hf; [reflexivity|].
  rewrite (Hf a (or_introl eq_refl)), IH; [ring|].
  intros b Hb. apply Hf. now right.
Qed.

Lemma NoDup_map_filter {Row Key : Type} (key : Row -> Key) (keep : Row -> bool)
    (table : list Row) (Hnd : NoDup (map key table)) :
  NoDup (map key (filter keep table)).
Proof.
  revert Hnd. induction table as [|a l IH]; simpl; intros Hnd; [constructor|].
  inversion Hnd as [|? ? Hnotin Hl]; subst.
  destruct (keep a); simpl; [|now apply IH].
  constructor; [|now apply IH].
  intros Hin. apply Hnotin. apply in_map_iff in Hin as (b & Hb & Hin).
  apply filter_In in Hin as [Hin _]. apply in_map_iff. now exists b.
Qed.

Lemma cmp_eqb_false {K : Type} `{CmpLaws K} (a b : K) : a <> b -> cmp_eqb a b = false.
Proof.
  intros Hne. destruct (cmp_eqb a b) eqn:E; [|reflexivity].
  apply cmp_eqb_eq in E. contradiction.
Qed.

Section CoarserPeriods.

Context {F C G1 G0 : Type} `{CmpLaws F} `{CmpLaws C} `{CmpLaws G1} `{CmpLaws G0}.
Variable fine : date -> F.
Variable coarsen : F -> C.
Variable by1 : F * string -> G1.
Variable by0 : C * string -> G0.

Lemma sumQ_one_key_out (k1 : F * string) (v : Q) (ks : list (F * string)) :
  ~ In k1 ks ->
  (sumQ (map (fun k => sumQ (if cmp_eqb k1 k then [v] else [])) ks) == 0)%Q.
Proof.
  intros Hout. apply sumQ_map_zero. intros k Hk.
  rewrite cmp_eqb_false; [reflexivity|]. intros ->. contradiction.
Qed.

Lemma sumQ_one_key_in (k1 : F * string) (v : Q) (ks : list (F * string)) :
  NoDup ks -> In k1 ks ->
  (sumQ (map (fun k => sumQ (if cmp_eqb k1 k then [v] else [])) ks) == v)%Q.
Proof.
  induction 1 as [|k ks Hnotin Hnd IH]; simpl; [contradiction|].
  intros [->|Hin].
  - rewrite (proj2 (cmp_eqb_eq k1 k1) eq_refl), (sumQ_one_key_out _ _ _ Hnotin).
    simpl. ring.
  - rewrite cmp_eqb_false by (intros ->; contradiction).
    rewrite (IH Hin). simpl. ring.
Qed.

Lemma present_values_cons {P : Type} `{Cmp P} (period_of : date -> P)
    (k : P * string) (o : Observation) (l : list Observation) :
  present_values period_of k (o :: l)
  = (present_values period_of k [o] ++ present_values period_of k l)%list.
Proof.
  unfold present_values. change (o :: l) with ([o] ++ l)%list. apply flat_map_app.
Qed.

(** One row of the frame counts in the fine cells under a coarser cell as
    it counts in the coarser cell. *)
Lemma fine_cells_sum_one (k0 : C * string) (ks : list (F * string)) (o : Observation) :
  NoDup ks ->
  (forall k, In k ks -> (coarsen (fst k), snd k) = k0) ->
  (forall d g, ob_date o = Some d -> ob_group o = Some g ->
               (coarsen (fine d), g) = k0 -> In (fine d, g) ks) ->
  (sumQ (map (fun k => sumQ (present_values fine k [o])) ks)
   == sumQ (present_values (fun d => coarsen (fine d)) k0 [o]))%Q.
Proof.
  intros Hnd Hks Hcover. unfold present_values. cbn [flat_map].
  destruct (ob_date o) as [d|]; [|now apply sumQ_map_zero].
  destruct (ob_group o) as [g|]; [|now apply sumQ_map_zero].
  destruct (ob_value o) as [v|]; [|now apply sumQ_map_zero].
  specialize (Hcover d g eq_refl eq_refl).
  rewrite (sumQ_map_ext _ (fun k => sumQ (if cmp_eqb (fine d, g) k then [v] else [])))
    by (intros k _; now rewrite app_nil_r).
  rewrite app_nil_r.
  destruct (cmp_eqb (coarsen (fine d), g) k0) eqn:E.
  - apply cmp_eqb_eq in E. rewrite (sumQ_one_key_in _ _ _ Hnd (Hcover E)).
    simpl. ring.
  - rewrite sumQ_one_key_out; [reflexivity|].
    intros Hin. specialize (Hks _ Hin). simpl in Hks.
    rewrite Hks, (proj2 (cmp_eqb_eq k0 k0) eq_refl) in E. discriminate.
Qed.

(** The cells of a fine period that make up a cell of a coarser period hold
    together the values of the coarser cell. *)
Lemma fine_cells_sum (k0 : C * string) (ks : list (F * string)) (l : list Observation) :
  NoDup ks ->
  (forall k, In k ks -> (coarsen (fst k), snd k) = k0) ->
  (forall o d g, In o l -> ob_date o = Some d -> ob_group o = Some g ->
                 (coarsen (fine d), g) = k0 -> In (fine d, g) ks) ->
  (sumQ (map (fun k => sumQ (present_values fine k l)) ks)
   == sumQ (present_values (fun d => coarsen (fine d)) k0 l))%Q.
Proof.
  intros Hnd Hks. induction l as [|o l IH]; intros Hcover.
  - apply sumQ_map_zero. reflexivity.
  - assert (IH' := IH (fun o' d g Hin => Hcover o' d g (or_intror Hin))). clear IH.
    rewrite (sumQ_map_ext _ (fun k => sumQ (present_values fine k [o])
                                      + sumQ (present_values fine k l))%Q)
      by (intros k _; rewrite present_values_cons; apply sumQ_app).
    rewrite sumQ_map_plus, present_values_cons, sumQ_app, IH'.
    rewrite (fine_cells_sum_one k0 ks o Hnd Hks
               (fun d g => Hcover o d g (or_introl eq_refl))).
    reflexivity.
Qed.

Variable obs : list Observation.

(** The total of a row of the coarser table is the sum of the totals of the
    rows of the finer table that fall in its period and group value. *)
Lemma coarse_total_is_sum_of_fine (r0 : GrowthRow C) :
  In r0 (with_growth by0 (groupby_sum (map (keyed (fun d => coarsen (fine d))) obs))) ->
  (total_registrations r0
   == sumQ (map total_registrations
                (filter (fun r => cmp_eqb (coarsen (period r), group_value r) (row_key r0))
                        (with_growth by1 (groupby_sum (map (keyed fine) obs))))))%Q.
Proof.
  intros Hr0.
  destruct (table_row_total (fun d => coarsen (fine d)) by0 obs r0 Hr0) as (Ht0 & _).
  rewrite Ht0.
  set (T1 := with_growth by1 (groupby_sum (map (keyed fine) obs))).
  set (sel := fun r : GrowthRow F =>
                cmp_eqb (coarsen (period r), group_value r) (row_key r0)).
  rewrite (sumQ_map_ext total_registrations
             (fun r => sumQ (present_values fine (row_key r) obs))).
  - rewrite <- (map_map row_key (fun k => sumQ (present_values fine k obs))).
    symmetry. apply fine_cells_sum.
    + apply NoDup_map_filter. apply sorted_keys_NoDup. apply table_sorted.
    + intros k Hk. apply in_map_iff in Hk as (r & <- & Hr).
      apply filter_In in Hr as [_ Hsel]. unfold sel in Hsel.
      now apply cmp_eqb_eq in Hsel.
    + intros o d g Ho Hd Hg Hk0.
      pose proof (table_has_cell fine by1 obs o d g Ho Hd Hg) as Hcell.
      apply in_map_iff in Hcell as (r & Hkey & Hr).
      apply in_map_iff. exists r. split; [exact Hkey|].
      apply filter_In. split; [exact Hr|].
      unfold sel. unfold row_key in Hkey. injection Hkey as -> ->.
      now apply cmp_eqb_eq.
  - intros r Hr. apply filter_In in Hr as [Hr _].
    now destruct (table_row_total fine by1 obs r Hr) as (Ht & _).
Qed.

End CoarserPeriods.

Lemma cmp_eqb_year_group (a b : Z) (s s' : string) :
  cmp_eqb (a, s) (b, s') = Z.eqb a b && String.eqb s s'.
Proof.
  destruct (Z.eqb_spec a b) as [->|Ha]; destruct (String.eqb_spec s s') as [->|Hs]; simpl.
  - now apply cmp_eqb_eq.
  - apply cmp_eqb_false. congruence.
  - apply cmp_eqb_false. congruence.
  - apply cmp_eqb_false. congruence.
Qed.

(** X8. The three tables agree, when the registrations add up in absolute
    value to less than 2^63 (so that no sum wraps around as a 64-bit
    integer) and in exact arithmetic: the total of a year and group value
    in the yearly table is within the range of a 64-bit integer, and it is
    the sum of the totals that the monthly table has for the months of that
    year and that group value, and also the sum of the totals that the
    quarterly table has for the quarters of that year and group value. *)
Theorem yearly_total_is_sum_of_months_and_quarters :
  forall (df : DataFrame) (date_col value_col group_col : string)
         (obs : list Observation) (t : GrowthTables) (ry : GrowthRow Z),
    observations df date_col value_col group_col = inr obs ->
    sums_fit_int64 obs ->
    calculate_growth_metrics df date_col value_col group_col = inr t ->
    In ry (yearly t) ->
    int64_range (total_registrations ry)
    /\ (total_registrations ry
        == sumQ (map total_registrations
                     (filter (fun r => Z.eqb (fst (period r)) (period ry)
                                       && String.eqb (group_value r) (group_value ry))
                             (monthly t))))%Q
    /\ (total_registrations ry
        == sumQ (map total_registrations
                     (filter (fun r => Z.eqb (fst (period r)) (period ry)
                                       && String.eqb (group_value r) (group_value ry))
                             (quarterly t))))%Q.
Proof.
  intros df date_col value_col group_col obs t ry Hobs Hfit Ht Hry.
  apply calculate_growth_metrics_tables in Ht as (obs' & Hobs' & ->).
  rewrite Hobs in Hobs'. injection Hobs' as <-.
  cbn [growth_tables monthly yearly quarterly] in *.
  unfold monthly_growth, quarterly_growth, yearly_growth in *.
  split; [|split].
  - destruct (table_row_total year by_group obs ry Hry) as (Hp & _).
    exact (total_fits_int64 year (row_key ry) obs _ Hfit Hp).
  - rewrite (filter_ext _ (fun r => cmp_eqb (fst (period r), group_value r) (row_key ry)))
      by (intros r; symmetry; apply cmp_eqb_year_group).
    exact (coarse_total_is_sum_of_fine year_month fst by_group by_group obs ry Hry).
  - rewrite (filter_ext _ (fun r => cmp_eqb (fst (period r), group_value r) (row_key ry)))
      by (intros r; symmetry; apply cmp_eqb_year_group).
    exact (coarse_total_is_sum_of_fine year_quarter fst by_group_and_year by_group
             obs ry Hry).
Qed.

(** The year 2023 of the scenario: 250 is 100 + 150 + 0. *)
Lemma yearly_total_is_sum_of_months_and_quarters_witness :
  calculate_growth_metrics (clean_data iso_date growth_scenario)
                           "date" "registrations" "category"
  = inr growth_scenario_tables
  /\ In (mkGrowth 2023 "2W" 250 NaN) (yearly growth_scenario_tables)
  /\ map total_registrations (monthly growth_scenario_tables) = [100; 150; 0]%Q
  /\ (250 == sumQ [100; 150; 0])%Q.
Proof.
  assert (E : calculate_growth_metrics (clean_data iso_date growth_scenario)
                                       "date" "registrations" "category"
              = inr growth_scenario_tables) by (vm_compute; reflexivity).
  assert (Hry : In (mkGrowth 2023 "2W" 250 NaN) (yearly growth_scenario_tables))
    by (left; reflexivity).
  destruct (observations (clean_data iso_date growth_scenario)
                         "date" "registrations" "category") as [e|obs] eqn:Hobs;
    [vm_compute in Hobs; discriminate|].
  assert (Hfit : sums_fit_int64 obs).
  { pose proof Hobs as Hrows. vm_compute in Hrows. injection Hrows as Hrows.
    now rewrite <- Hrows. }
  split; [exact E|]. split; [exact Hry|]. split; [reflexivity|].
  exact (proj1 (proj2 (yearly_total_is_sum_of_months_and_quarters
                         _ _ _ _ obs _ _ Hobs Hfit E Hry))).
Defined.

(** ** What [save_to_sqlite] writes *)






(** ** When [process_data] returns *)

Lemma col_index_in_columns (name : string) (cols : list string) (i : nat) :
  col_index name cols = Some i -> in_columns name cols = true.
Proof.
  intros Hi. apply in_columns_In. eapply nth_error_In.
  exact (col_index_nth_error _ _ _ Hi).
Qed.

Lemma calculate_growth_metrics_columns df date_col value_col group_col t :
  calculate_growth_metrics df date_col value_col group_col = inr t ->
  in_columns date_col (columns df) = true
  /\ in_columns group_col (columns df) = true
  /\ in_columns value_col (columns df) = true.
Proof.
  unfold calculate_growth_metrics, observations.
  destruct (col_index date_col (columns df)) as [di|] eqn:Ed; [|discriminate].
  destruct (col_index group_col (columns df)) as [gi|] eqn:Eg; [|discriminate].
  destruct (col_index value_col (columns df)) as [vi|] eqn:Ev; [|discriminate].
  intros _. repeat split; eapply col_index_in_columns; eassumption.
Qed.

(** When [process_data] returns tables, [clean_data] has raised nothing. *)
Lemma process_data_returns_clean
    (to_datetime : string -> option date) (data_dir : Directory)
    (output_dir timestamp : string) (w : World) v :
  fst (process_data to_datetime data_dir output_dir timestamp w) = inr (Some v) ->
  clean_data_raises (concat_frames (readable_frames data_dir)) = None.
Proof.
  unfold process_data. intros H.
  apply bind_inr in H as (loaded & w1 & Hload & H).
  rewrite load_data_spec in Hload.
  destruct data_dir as [entries|]; [|discriminate Hload].
  injection Hload as Hloaded _.
  destruct loaded as [raw|]; [|discriminate H].
  assert (Hraw : raw = concat_frames (readable_frames (Some entries)))
    by (destruct (readable_frames (Some entries)); [discriminate | congruence]).
  subst raw.
  destruct (clean_data_raises _); [discriminate H | reflexivity].
Qed.

(** X11. On a directory whose frames, put together, have labels that stay
    distinct: [process_data] returns the cleaned frame and its tables
    exactly when some CSV file of the directory can be read, [clean_data]
    raises nothing (the category and the manufacturer column hold texts)
    and the cleaned frame has the four columns date, registrations,
    category and manufacturer; in every other case it returns [None] or
    raises. *)
Theorem process_data_returns_exactly_with_four_columns :
  forall (to_datetime : string -> option date) (data_dir : Directory)
         (output_dir timestamp : string) (w : World),
    let raw := concat_frames (readable_frames data_dir) in
    let df := clean_data to_datetime raw in
    distinct_labels raw ->
    ((exists v, fst (process_data to_datetime data_dir output_dir timestamp w)
                = inr (Some v))
     <-> (readable_frames data_dir <> []
          /\ clean_data_raises raw = None
          /\ in_columns "date" (columns df) = true
          /\ in_columns "registrations" (columns df) = true
          /\ in_columns "category" (columns df) = true
          /\ in_columns "manufacturer" (columns df) = true)).
Proof.
  intros to_datetime data_dir output_dir timestamp w. cbv zeta. intros _.
  destruct data_dir as [entries|];
    [|split; [intros (v & Hv); discriminate Hv
             |intros (Hs & _); exfalso; apply Hs; reflexivity]].
  split.
  - intros ([[df tc] tm] & Hret). split; [|split].
    + intros Hnone. unfold process_data, bind in Hret.
      rewrite load_data_spec, Hnone in Hret. discriminate Hret.
    + exact (process_data_returns_clean _ _ _ _ _ _ Hret).
    + destruct (process_data_returns _ _ _ _ _ _ _ _ Hret) as (<- & Hc & Hm & Htc & _).
      destruct (calculate_growth_metrics_columns _ _ _ _ _ Htc) as (Hd & _ & Hr).
      now repeat split.
  - intros (Hsome & Hclean & Hd & Hr & Hc & Hm).
    set (df := clean_data to_datetime (concat_frames (readable_frames (Some entries))))
      in *.
    destruct (calculate_growth_metrics_returns df "date" "registrations" "category"
                Hd Hc Hr) as (tc & Etc).
    destruct (calculate_growth_metrics_returns df "date" "registrations" "manufacturer"
                Hd Hm Hr) as (tm & Etm).
    exists (df, tc, tm).
    unfold process_data. unfold bind at 1. rewrite load_data_spec.
    destruct (readable_frames (Some entries)) as [|f fs] eqn:E; [contradiction|].
    rewrite Hclean. cbv zeta. fold df.
    unfold save_to_sqlite, growth_to_csv, save_growth, bind, to_csv, to_sql, print.
    rewrite Hc, Hm, Etc, Etm. reflexivity.
Qed.

(** A directory whose file has the four columns. *)
Lemma process_data_returns_exactly_with_four_columns_witness :
  distinct_labels (concat_frames (readable_frames full_dir))
  /\ readable_frames full_dir <> []
  /\ clean_data_raises (concat_frames (readable_frames full_dir)) = None
  /\ exists v, fst (process_data iso_date full_dir "processed_data" "20230115_120000"
                                 empty_world) = inr (Some v).
Proof.
  assert (Hlabels : distinct_labels (concat_frames (readable_frames full_dir))).
  { unfold distinct_labels. vm_compute.
    repeat (constructor; [cbn [In]; intuition discriminate|]). constructor. }
  assert (Hsome : readable_frames full_dir <> []) by discriminate.
  split; [exact Hlabels|]. split; [exact Hsome|]. split; [reflexivity|].
  apply (proj2 (process_data_returns_exactly_with_four_columns iso_date full_dir
                  "processed_data" "20230115_120000" empty_world Hlabels)).
  split; [exact Hsome|]. repeat split; reflexivity.
Defined.

(** ** The return statement of [process_data] *)

(** X12. On a directory whose frames, put together, have labels that stay
    distinct, with some CSV file read, [clean_data] raising nothing and a
    cleaned frame that lacks the category or the manufacturer column,
    [process_data] never returns: when no [KeyError] comes first (the date
    and registrations columns are there, or neither dimension is), it
    raises [UnboundLocalError] at its return statement, for monthly_cat when
    the category column is absent and for monthly_man otherwise, after it
    has replaced the relation vehicle_registrations by the cleaned frame. *)
Theorem process_data_raises_unbound_local :
  forall (to_datetime : string -> option date) (data_dir : Directory)
         (output_dir timestamp : string) (w : World),
    let raw := concat_frames (readable_frames data_dir) in
    let df := clean_data to_datetime raw in
    let r := process_data to_datetime data_dir output_dir timestamp w in
    distinct_labels raw ->
    readable_frames data_dir <> [] ->
    clean_data_raises raw = None ->
    in_columns "category" (columns df) = false
    \/ in_columns "manufacturer" (columns df) = false ->
    (in_columns "date" (columns df) = true
     /\ in_columns "registrations" (columns df) = true)
    \/ (in_columns "category" (columns df) = false
        /\ in_columns "manufacturer" (columns df) = false) ->
    fst r = inl (UnboundLocalError
                   (if in_columns "category" (columns df)
                    then "monthly_man" else "monthly_cat"))
    /\ lookup "vehicle_registrations" (db (snd r)) = Some (TFrame df).
Proof.
  intros to_datetime data_dir output_dir timestamp w. cbv zeta.
  intros _ Hsome Hclean Habsent Hkeys.
  destruct data_dir as [entries|]; [|exfalso; apply Hsome; reflexivity].
  set (df := clean_data to_datetime (concat_frames (readable_frames (Some entries))))
    in *.
  destruct (process_data to_datetime (Some entries) output_dir timestamp w) as [res w']
    eqn:Hrun.
  cbn [fst snd]. revert Hrun.
  unfold process_data. unfold bind at 1. rewrite load_data_spec.
  destruct (readable_frames (Some entries)) as [|f fs] eqn:E; [contradiction|].
  rewrite Hclean. cbv zeta. fold df.
  unfold save_to_sqlite, growth_to_csv, save_growth, bind, to_csv, to_sql, print.
  destruct (in_columns "category" (columns df)) eqn:Hc;
    destruct (in_columns "manufacturer" (columns df)) eqn:Hm.
  - destruct Habsent; discriminate.
  - destruct Hkeys as [[Hd Hr]|[Hx _]]; [|discriminate].
    destruct (calculate_growth_metrics_returns df "date" "registrations" "category"
                Hd Hc Hr) as (tc & ->).
    intros [= <- <-]. split; reflexivity.
  - destruct Hkeys as [[Hd Hr]|[_ Hx]]; [|discriminate].
    destruct (calculate_growth_metrics_returns df "date" "registrations" "manufacturer"
                Hd Hm Hr) as (tm & ->).
    intros [= <- <-]. split; reflexivity.
  - intros [= <- <-]. split; reflexivity.
Qed.

(** The directory whose file has a date and a count only. *)
Lemma process_data_raises_unbound_local_witness :
  distinct_labels (concat_frames (readable_frames date_count_dir))
  /\ readable_frames date_count_dir <> []
  /\ clean_data_raises (concat_frames (readable_frames date_count_dir)) = None
  /\ fst (process_data iso_date date_count_dir "processed_data" "20230115_120000"
                       empty_world)
     = inl (UnboundLocalError "monthly_cat").
Proof.
  assert (Hlabels : distinct_labels (concat_frames (readable_frames date_count_dir))).
  { unfold distinct_labels. vm_compute.
    repeat (constructor; [cbn [In]; intuition discriminate|]). constructor. }
  assert (Hsome : readable_frames date_count_dir <> []) by discriminate.
  split; [exact Hlabels|]. split; [exact Hsome|]. split; [reflexivity|].
  exact (proj1 (process_data_raises_unbound_local iso_date date_count_dir
                  "processed_data" "20230115_120000" empty_world Hlabels Hsome eq_refl
                  (or_introl eq_refl) (or_intror (conj eq_refl eq_refl)))).
Defined.

(** ** The groups of a table do not depend on each other *)

Section SelectedKeys.

Context {K : Type} `{CmpLaws K}.
Variable keep : K -> bool.

Lemma add_to_cell_below (k : K) (v : option Q) (cells : list (K * Q)) :
  Forall (fun c => cmp k (fst c) = Lt) cells ->
  add_to_cell k v cells = (k, match v with Some x => x | None => 0%Q end) :: cells.
Proof.
  destruct cells as [|[k' t] rest]; simpl; [reflexivity|].
  intros Hall. inversion Hall as [|? ? Hk _]; subst. simpl in Hk. now rewrite Hk.
Qed.

Lemma add_to_cell_kept (k : K) (v : option Q) (cells : list (K * Q)) :
  keep k = true -> StronglySorted key_lt cells ->
  filter (fun c => keep (fst c)) (add_to_cell k v cells)
  = add_to_cell k v (filter (fun c => keep (fst c)) cells).
Proof.
  intros Hk. induction 1 as [|[k' t] rest Hs IH Hall]; simpl.
  - now rewrite Hk.
  - destruct (cmp k k') eqn:E.
    + apply cmp_eq in E. subst k'. simpl. rewrite Hk. simpl.
      now rewrite cmp_refl.
    + simpl. rewrite Hk. destruct (keep k') eqn:Hk'; simpl.
      * now rewrite E.
      * rewrite add_to_cell_below; [reflexivity|].
        apply Forall_forall. intros c Hc. apply filter_In in Hc as [Hc _].
        rewrite Forall_forall in Hall. specialize (Hall c Hc).
        unfold key_lt in Hall. simpl in Hall. eapply cmp_trans; eassumption.
    + simpl. destruct (keep k') eqn:Hk'; simpl.
      * now rewrite E, IH.
      * exact IH.
Qed.

Lemma add_to_cell_dropped (k : K) (v : option Q) (cells : list (K * Q)) :
  keep k = false ->
  filter (fun c => keep (fst c)) (add_to_cell k v cells)
  = filter (fun c => keep (fst c)) cells.
Proof.
  intros Hk. induction cells as [|[k' t] rest IH]; simpl.
  - now rewrite Hk.
  - destruct (cmp k k') eqn:E; simpl.
    + apply cmp_eq in E. subst k'. now rewrite Hk.
    + now rewrite Hk.
    + now rewrite IH.
Qed.

(** The cells of the rows picked are the cells picked. *)
Lemma groupby_sum_filter {A : Type} (key : A -> option K * option Q) (pick : A -> bool)
    (l : list A) :
  (forall a k, fst (key a) = Some k -> pick a = keep k) ->
  groupby_sum (map key (filter pick l))
  = filter (fun c => keep (fst c)) (groupby_sum (map key l)).
Proof.
  intros Hpick. unfold groupby_sum.
  change (@nil (K * Q)) with (filter (fun c : K * Q => keep (fst c)) []) at 1.
  assert (Hs : StronglySorted key_lt (@nil (K * Q))) by constructor.
  revert Hs. generalize (@nil (K * Q)) as cells.
  induction l as [|a l IH]; intros cells Hs; [reflexivity|].
  cbn [map fold_left].
  destruct (fst (key a)) as [k|] eqn:Ek.
  - rewrite <- (IH _ (add_to_cell_sorted k (snd (key a)) cells Hs)).
    cbn [filter]. rewrite (Hpick a k Ek).
    destruct (keep k) eqn:Hk.
    + cbn [map fold_left]. rewrite Ek. now rewrite add_to_cell_kept.
    + now rewrite add_to_cell_dropped.
  - rewrite <- (IH _ Hs). cbn [filter].
    destruct (pick a); [|reflexivity].
    cbn [map fold_left]. now rewrite Ek.
Qed.

End SelectedKeys.

Lemma find_filter {A : Type} (f g : A -> bool) (l : list A) :
  (forall x, f x = true -> g x = true) -> find f (filter g l) = find f l.
Proof.
  intros Himp. induction l as [|x l IH]; simpl; [reflexivity|].
  destruct (g x) eqn:Eg; simpl.
  - now rewrite IH.
  - destruct (f x) eqn:Ef; [|exact IH].
    rewrite (Himp x Ef) in Eg. discriminate.
Qed.

Section SelectedGroups.

Context {P G : Type} `{CmpLaws G}.
Variable by_ : P * string -> G.
Hypothesis by_group_value : forall k1 k2, by_ k1 = by_ k2 -> snd k1 = snd k2.
Variable keep : string -> bool.

Lemma growth_rows_filter (seen cells : list ((P * string) * Q)) :
  filter (fun r => keep (group_value r)) (growth_rows by_ seen cells)
  = growth_rows by_ (filter (fun c => keep (snd (fst c))) seen)
                    (filter (fun c => keep (snd (fst c))) cells).
Proof.
  revert seen. induction cells as [|[[p g] v] tl IH]; intros seen; [reflexivity|].
  cbn [growth_rows filter group_value fst snd].
  destruct (keep g) eqn:Hk.
  - cbn [growth_rows fst snd]. rewrite IH. cbn [filter fst snd]. rewrite Hk.
    f_equal. f_equal. f_equal. unfold shifted. rewrite find_filter; [reflexivity|].
    intros [k' v'] Hsame. apply cmp_eqb_eq in Hsame.
    apply by_group_value in Hsame. cbn [fst snd] in *. now rewrite Hsame.
  - rewrite IH. cbn [filter fst snd]. now rewrite Hk.
Qed.

End SelectedGroups.

Lemma selected_growth {P G : Type} `{CmpLaws P} `{CmpLaws G}
    (by_ : P * string -> G) (period_of : date -> P) (selected : list string)
    (di gi vi : nat) (l : list (list cell)) :
  (forall k1 k2, by_ k1 = by_ k2 -> snd k1 = snd k2) ->
  let read := fun r => keyed period_of
                         (mkObs (date_of (get_cell di r)) (label_of (get_cell gi r))
                                (number_of (get_cell vi r))) in
  with_growth by_
    (groupby_sum (map read (filter (fun r => isin_cell selected (get_cell gi r)) l)))
  = select_groups selected (with_growth by_ (groupby_sum (map read l))).
Proof.
  intros Hby read.
  rewrite (groupby_sum_filter (fun k => isin selected (snd k)) read).
  - rewrite !with_growth_rows. unfold select_groups.
    now rewrite (growth_rows_filter by_ Hby (isin selected)).
  - intros r k. unfold read, keyed. cbn [fst ob_date ob_group].
    destruct (date_of (get_cell di r)); [|discriminate].
    destruct (get_cell gi r); cbn [label_of]; try discriminate.
    now intros [= <-].
Qed.

(** X13. The rows of a group value in the growth tables depend on the
    rows of that group value alone: the tables of the frame restricted to
    the rows of the selected group values (lines 196, 208 of the
    dashboard) are the tables of the whole frame restricted to the selected
    group values (lines 227, 248, 272, 295), growth included. *)
Theorem growth_of_selected_groups :
  forall (df : DataFrame) (date_col value_col group_col : string)
         (selected : list string) (t : GrowthTables),
    calculate_growth_metrics df date_col value_col group_col = inr t ->
    exists df_selected,
      select_rows group_col selected df = inr df_selected
      /\ calculate_growth_metrics df_selected date_col value_col group_col
         = inr (select_tables selected t).
Proof.
  intros df date_col value_col group_col selected t.
  unfold calculate_growth_metrics, observations, select_rows.
  destruct (col_index date_col (columns df)) as [di|] eqn:Ed; [|discriminate].
  destruct (col_index group_col (columns df)) as [gi|] eqn:Eg; [|discriminate].
  destruct (col_index value_col (columns df)) as [vi|] eqn:Ev; [|discriminate].
  intros [= <-]. eexists. split; [reflexivity|].
  cbn [columns rows]. rewrite Ed, Eg, Ev. f_equal.
  unfold growth_tables, select_tables, monthly_growth, yearly_growth, quarterly_growth.
  cbn [monthly yearly quarterly]. rewrite !map_map.
  f_equal.
  - apply (selected_growth by_group year_month). now intros k1 k2.
  - apply (selected_growth by_group year). now intros k1 k2.
  - apply (selected_growth by_group_and_year year_quarter).
    unfold by_group_and_year. now intros k1 k2 [= -> _].
Qed.

(** Of two categories, the two-wheelers are selected. *)
Lemma growth_of_selected_groups_witness :
  exists t df_selected,
    calculate_growth_metrics (clean_data iso_date two_category_scenario)
                             "date" "registrations" "category" = inr t
    /\ select_rows "category" ["2W"] (clean_data iso_date two_category_scenario)
       = inr df_selected
    /\ calculate_growth_metrics df_selected "date" "registrations" "category"
       = inr (select_tables ["2W"] t).
Proof.
  eexists.
  assert (Ht : calculate_growth_metrics (clean_data iso_date two_category_scenario)
                 "date" "registrations" "category"
               = inr (tables_by_category two_category_scenario))
    by (vm_compute; reflexivity).
  destruct (growth_of_selected_groups _ _ _ _ ["2W"] _ Ht) as (df_selected & Hsel & Hcalc).
  exists df_selected. split; [exact Ht|]. split; [exact Hsel | exact Hcalc].
Defined.

(** ** Market share *)

Lemma sumQ_scaled (whole : Q) (ts : list Q) :
  ~ (whole == 0)%Q ->
  (sumQ (map (fun t => t / whole * 100) ts) == sumQ ts / whole * 100)%Q.
Proof.
  intros Hw. induction ts as [|t ts IH]; simpl; [field; exact Hw|].
  rewrite IH. field. exact Hw.
Qed.

Lemma sumQ_member_le (ts : list Q) (t : Q) :
  Forall (fun v => (0 <= v)%Q) ts -> In t ts -> (t <= sumQ ts)%Q.
Proof.
  induction 1 as [|v l Hv Hl IH]; simpl; [contradiction|]. intros [->|Hin].
  - rewrite <- (Qplus_0_r t) at 1.
    apply Qplus_le_compat; [apply Qle_refl | now apply sumQ_nonneg].
  - rewrite <- (Qplus_0_l t).
    apply Qplus_le_compat; [exact Hv | now apply IH].
Qed.

Lemma group_sums_not_negative (items : list (option string * option Q)) :
  (forall k v, In (k, Some v) items -> (0 <= v)%Q) ->
  Forall (fun t => (0 <= t)%Q) (map snd (groupby_sum items)).
Proof.
  intros Hvalues. apply Forall_forall. intros t Ht.
  apply in_map_iff in Ht as ([k t'] & <- & Hin). cbn [snd].
  destruct (groupby_sum_cells items) as (_ & Hsum & _).
  destruct (Hsum _ _ Hin) as (-> & _).
  apply sumQ_nonneg, Forall_forall. intros v Hv.
  unfold cell_values in Hv.
  apply in_flat_map in Hv as ([[k'|] [x|]] & Hit & Hv); simpl in Hv; try contradiction.
  destruct (cmp_eqb k' k); [|contradiction].
  destruct Hv as [<-|[]]. exact (Hvalues _ _ Hit).
Qed.

(** X14. The market shares of the dashboard, on a frame whose
    registrations are not negative (as [clean_data] leaves them): when the
    registrations do not sum to zero, every share is a number between 0 and
    100 and the shares add up to 100; when they sum to zero, every share is
    not a number. *)
Theorem market_shares_add_up_to_100 :
  forall (df : DataFrame) (group_col : string) (shares : list ShareRow),
    market_share df group_col = Some shares ->
    column_not_negative "registrations" df ->
    let whole := sumQ (map share_registrations shares) in
    (~ (whole == 0)%Q ->
       exists qs, map share shares = map Fin qs
                  /\ Forall (fun q => (0 <= q)%Q /\ (q <= 100)%Q) qs
                  /\ (sumQ qs == 100)%Q)
    /\ ((whole == 0)%Q -> Forall (fun s => share s = NaN) shares).
Proof.
  intros df group_col shares. unfold market_share.
  destruct (col_index group_col (columns df)) as [gi|]; [|discriminate].
  destruct (col_index "registrations" (columns df)) as [vi|] eqn:Ev; [|discriminate].
  cbv zeta.
  set (items := map (fun r => (label_of (get_cell gi r), number_of (get_cell vi r)))
                    (rows df)).
  intros [= <-] Hcol. rewrite map_map. cbn [share_registrations].
  change (map (fun c : string * Q => snd c) (groupby_sum items))
    with (map snd (groupby_sum items)).
  assert (Hsums : Forall (fun t => (0 <= t)%Q) (map snd (groupby_sum items))).
  { apply group_sums_not_negative. intros k v Hin.
    apply in_map_iff in Hin as (r & [= _ Hv] & Hr).
    destruct (get_cell vi r) as [|s|q|d] eqn:Ec; try discriminate.
    injection Hv as <-. exact (Hcol vi r q Ev Hr Ec). }
  set (whole := sumQ (map snd (groupby_sum items))) in *.
  split.
  - intros Hw.
    assert (Hpos : (0 < whole)%Q).
    { pose proof (sumQ_nonneg _ Hsums) as Hle. fold whole in Hle.
      apply Qle_lteq in Hle as [Hlt|Heq]; [exact Hlt|].
      exfalso. apply Hw. now symmetry. }
    exists (map (fun t => (t / whole * 100)%Q) (map snd (groupby_sum items))). split.
    + rewrite !map_map. apply map_ext. intros c. cbn [share].
      unfold fdiv. now rewrite (Qzero_false _ Hw).
    + split.
      * apply Forall_forall. intros q Hq.
        apply in_map_iff in Hq as (t & <- & Ht).
        pose proof (proj1 (Forall_forall _ _) Hsums t Ht) as Ht0.
        pose proof (sumQ_member_le _ _ Hsums Ht) as Htw. fold whole in Htw.
        assert (Hdiv0 : (0 <= t / whole)%Q)
          by (apply Qle_shift_div_l; [exact Hpos | now rewrite Qmult_0_l]).
        assert (Hdiv1 : (t / whole <= 1)%Q)
          by (apply Qle_shift_div_r; [exact Hpos | now rewrite Qmult_1_l]).
        split.
        -- setoid_replace 0%Q with (0 * 100)%Q by reflexivity.
           apply Qmult_le_compat_r; [exact Hdiv0 | discriminate].
        -- setoid_replace 100%Q with (1 * 100)%Q at 2 by reflexivity.
           apply Qmult_le_compat_r; [exact Hdiv1 | discriminate].
      * rewrite (sumQ_scaled whole _ Hw). fold whole. field. exact Hw.
  - intros Hw. apply Forall_forall. intros s Hs.
    apply in_map_iff in Hs as ([k t] & <- & Hin). cbn [share fst snd].
    assert (Ht : In t (map snd (groupby_sum items)))
      by (apply in_map_iff; now exists (k, t)).
    pose proof (proj1 (Forall_forall _ _) Hsums t Ht) as Ht0.
    pose proof (sumQ_member_le _ _ Hsums Ht) as Htw. fold whole in Htw.
    rewrite Hw in Htw.
    assert (Hz : (t == 0)%Q) by (now apply Qle_antisym).
    unfold fdiv. rewrite (proj2 (Qzero_iff whole) Hw), (proj2 (Qzero_iff t) Hz).
    reflexivity.
Qed.

(** Two categories with 370 and 70 registrations. *)
Lemma market_shares_add_up_to_100_witness :
  exists shares,
    market_share (clean_data iso_date two_category_scenario) "category" = Some shares
    /\ map share_group shares = ["2W"; "4W"]
    /\ exists qs, map share shares = map Fin qs /\ (sumQ qs == 100)%Q.
Proof.
  destruct (market_share (clean_data iso_date two_category_scenario) "category")
    as [shares|] eqn:Hm; [|vm_compute in Hm; discriminate].
  pose proof Hm as Hshares. vm_compute in Hshares. injection Hshares as Hshares.
  exists shares. split; [reflexivity|].
  split; [now rewrite <- Hshares|].
  assert (Hcol : column_not_negative "registrations"
                   (clean_data iso_date two_category_scenario)).
  { intros i r q Hi Hr Hq. vm_compute in Hi. injection Hi as <-.
    vm_compute in Hr.
    repeat (destruct Hr as [<-|Hr];
            [vm_compute in Hq; injection Hq as <-; discriminate|]).
    contradiction. }
  destruct (proj1 (market_shares_add_up_to_100 _ "category" shares Hm Hcol))
    as (qs & Hqs & _ & Hsum).
  - rewrite <- Hshares. intros Hzero. vm_compute in Hzero. discriminate.
  - exists qs. split; [exact Hqs | exact Hsum].
Defined.

(** ** The order of the rows of the frame *)

(** Sums of rationals do not depend on the order of their terms, as
    fractions and not only as numbers. *)
Lemma Qplus_swap_eq (t x y : Q) : (t + x + y = t + y + x)%Q.
Proof.
  destruct t as [a b], x as [c d], y as [e f]. unfold Qplus. cbn [Qnum Qden].
  f_equal; [rewrite !Pos2Z.inj_mul; ring | lia].
Qed.

Lemma Qplus_comm_eq (x y : Q) : (x + y = y + x)%Q.
Proof.
  destruct x as [c d], y as [e f]. unfold Qplus. cbn [Qnum Qden].
  f_equal; [ring | lia].
Qed.

Lemma Qplus_zero_eq (x : Q) : (0 + x = x)%Q.
Proof.
  destruct x as [c d]. unfold Qplus. cbn [Qnum Qden]. f_equal. lia.
Qed.

Section RowOrder.

Context {K : Type} `{CmpLaws K}.

Lemma add_to_cell_new_or_old (v1 v2 : option Q) :
  match v1 with Some x => (match v2 with Some y => y | None => 0%Q end + x)%Q | None => match v2 with Some y => y | None => 0%Q end end
  = match v2 with Some x => (match v1 with Some y => y | None => 0%Q end + x)%Q | None => match v1 with Some y => y | None => 0%Q end end.
Proof.
  destruct v1 as [a|], v2 as [b|]; simpl; try reflexivity.
  - apply Qplus_comm_eq.
  - apply Qplus_zero_eq.
  - symmetry. apply Qplus_zero_eq.
Qed.

Lemma add_to_cell_twice (t : Q) (v1 v2 : option Q) :
  match v1 with
  | Some x => (match v2 with Some y => (t + y)%Q | None => t end + x)%Q
  | None => match v2 with Some y => (t + y)%Q | None => t end
  end
  = match v2 with
    | Some y => (match v1 with Some x => (t + x)%Q | None => t end + y)%Q
    | None => match v1 with Some x => (t + x)%Q | None => t end
    end.
Proof.
  destruct v1 as [a|], v2 as [b|]; try reflexivity. apply Qplus_swap_eq.
Qed.

Lemma cmp_lt_gt (a b : K) : cmp a b = Lt -> cmp b a = Gt.
Proof. intros E. now rewrite cmp_antisym, E. Qed.

Lemma add_to_cell_swap (k1 k2 : K) (v1 v2 : option Q) (cells : list (K * Q)) :
  add_to_cell k1 v1 (add_to_cell k2 v2 cells)
  = add_to_cell k2 v2 (add_to_cell k1 v1 cells).
Proof.
  induction cells as [|[k' t] rest IH].
  - cbn [add_to_cell]. rewrite (cmp_antisym k1 k2).
    destruct (cmp k1 k2) eqn:E12; cbn [CompOpp]; [|reflexivity|reflexivity].
    apply cmp_eq in E12. subst k2. f_equal. f_equal. apply add_to_cell_new_or_old.
  - cbn [add_to_cell].
    destruct (cmp k2 k') eqn:E2; destruct (cmp k1 k') eqn:E1; cbn [add_to_cell];
      rewrite ?E1, ?E2.
    + f_equal. f_equal. apply add_to_cell_twice.
    + apply cmp_eq in E2. subst k'. rewrite (cmp_lt_gt _ _ E1).
      cbn [add_to_cell]. rewrite ?cmp_refl. reflexivity.
    + reflexivity.
    + apply cmp_eq in E1. subst k'. rewrite (cmp_lt_gt _ _ E2).
      cbn [add_to_cell]. rewrite ?cmp_refl. reflexivity.
    + rewrite (cmp_antisym k1 k2).
      destruct (cmp k1 k2) eqn:E12; cbn [CompOpp add_to_cell]; rewrite ?E1, ?E2;
        [|reflexivity|reflexivity].
      apply cmp_eq in E12. subst k2. f_equal. f_equal. apply add_to_cell_new_or_old.
    + rewrite (cmp_lt_gt _ _ (cmp_trans _ _ _ E2 (cmp_gt_lt _ _ E1))).
      cbn [add_to_cell]. rewrite ?E1. reflexivity.
    + reflexivity.
    + rewrite (cmp_lt_gt _ _ (cmp_trans _ _ _ E1 (cmp_gt_lt _ _ E2))).
      cbn [add_to_cell]. rewrite ?E2. reflexivity.
    + now rewrite IH.
Qed.

Lemma groupby_sum_Permutation (items items' : list (option K * option Q)) :
  Permutation items items' -> groupby_sum items = groupby_sum items'.
Proof.
  intros Hperm. unfold groupby_sum. generalize (@nil (K * Q)).
  induction Hperm as [|it l l' _ IH|a b l|l l' l'' _ IH1 _ IH2]; intros cells.
  - reflexivity.
  - cbn [fold_left]. apply IH.
  - cbn [fold_left]. f_equal.
    destruct (fst a) as [ka|], (fst b) as [kb|]; try reflexivity.
    apply add_to_cell_swap.
  - now rewrite IH1.
Qed.

End RowOrder.

(** X15. The growth tables do not depend on the order of the rows of the
    frame, in exact arithmetic: two frames with the same labels whose rows
    are a permutation of each other give the same result of
    [calculate_growth_metrics], tables or [KeyError], whatever the three
    columns named. *)
Theorem growth_tables_ignore_row_order :
  forall (df df' : DataFrame) (date_col value_col group_col : string),
    columns df' = columns df ->
    Permutation (rows df) (rows df') ->
    calculate_growth_metrics df' date_col value_col group_col
    = calculate_growth_metrics df date_col value_col group_col.
Proof.
  intros df df' date_col value_col group_col Hcols Hrows.
  unfold calculate_growth_metrics, observations. rewrite Hcols.
  destruct (col_index date_col (columns df)) as [di|]; [|reflexivity].
  destruct (col_index group_col (columns df)) as [gi|]; [|reflexivity].
  destruct (col_index value_col (columns df)) as [vi|]; [|reflexivity].
  unfold growth_tables, monthly_growth, yearly_growth, quarterly_growth.
  f_equal. f_equal; f_equal; symmetry; apply groupby_sum_Permutation;
    repeat apply Permutation_map; exact Hrows.
Qed.

(** The cleaned rows of the two categories, in the reverse order. *)
Lemma growth_tables_ignore_row_order_witness :
  let df := clean_data iso_date two_category_scenario in
  calculate_growth_metrics (mkFrame (columns df) (rev (rows df)))
                           "date" "registrations" "category"
  = calculate_growth_metrics df "date" "registrations" "category".
Proof.
  cbv zeta. apply growth_tables_ignore_row_order; [reflexivity|].
  exact (Permutation_rev (rows (clean_data iso_date two_category_scenario))).
Defined.

(** ** The chart of the latest quarter *)

Lemma series_max_spec (l : list Z) (m : Z) :
  series_max l = Some m -> In m l /\ forall x, In x l -> x <= m.
Proof.
  destruct l as [|x t]; [discriminate|]. cbn [series_max]. intros [= <-].
  revert x. induction t as [|y t IH]; intros x; cbn [fold_left].
  - split; [now left | intros z [<-|[]]; lia].
  - destruct (IH (Z.max x y)) as [Hin Hmax]. split.
    + destruct Hin as [Hin|Hin]; [|right; now right].
      rewrite <- Hin. destruct (Z.max_spec x y) as [[_ ->]|[_ ->]];
        [right; now left | now left].
    + intros z Hz. pose proof (Hmax (Z.max x y) (or_introl eq_refl)) as Hm.
      destruct Hz as [Hz|[Hz|Hz]]; [subst; lia | subst; lia | apply Hmax; now right].
Qed.

Lemma series_max_some (l : list Z) (x : Z) :
  In x l -> exists m, series_max l = Some m.
Proof. destruct l as [|y t]; [contradiction|]. intros _. now eexists. Qed.

Lemma one_period_NoDup {P : Type} (l : list (GrowthRow P)) (p : P) :
  (forall r, In r l -> period r = p) ->
  NoDup (map row_key l) -> NoDup (map group_value l).
Proof.
  intros Hp. induction l as [|a l IH]; cbn [map]; intros Hnd; [constructor|].
  inversion Hnd as [|? ? Hnotin Hl]; subst. constructor.
  - intros Hin. apply Hnotin. apply in_map_iff in Hin as (b & Hb & Hin).
    apply in_map_iff. exists b. split; [|exact Hin].
    unfold row_key. rewrite Hb, (Hp a (or_introl eq_refl)), (Hp b (or_intror Hin)).
    reflexivity.
  - apply IH; [|exact Hl]. intros r Hr. apply Hp. now right.
Qed.

(** A quarter with no earlier quarter of its year for its group value has
    no growth. *)
Lemma first_quarter_of_year (items : list (option ((Z * Z) * string) * option Q))
    (r : GrowthRow (Z * Z)) :
  let table := with_growth by_group_and_year (groupby_sum items) in
  In r table ->
  (forall p, In p table ->
             group_value p = group_value r -> fst (period p) = fst (period r) ->
             snd (period r) <= snd (period p)) ->
  growth_pct r = NaN.
Proof.
  cbv zeta. intros Hr Hfirst.
  pose proof (table_sorted by_group_and_year items) as Hsorted.
  destruct (in_split _ _ Hr) as (above & below & Htable).
  apply (growth_of_first by_group_and_year (groupby_sum items)).
  exists above, below. split; [exact Htable|].
  apply not_same_forallb. intros m Hm Hsame.
  apply same_group_and_year in Hsame as [Hg Hy].
  rewrite Htable in Hsorted.
  pose proof (quarter_order _ _ Hg Hy (sorted_before _ _ _ _ Hsorted m Hm)) as Hlt.
  assert (Hin : In m (with_growth by_group_and_year (groupby_sum items)))
    by (rewrite Htable; apply in_or_app; now left).
  specialize (Hfirst m Hin Hg Hy). lia.
Qed.

(** X16. The bar chart of the quarter-over-quarter growth, on the
    quarterly table that [calculate_growth_metrics] makes: it shows exactly
    the rows of the selected group values whose quarter is the latest among
    the rows of the selected group values, with one bar at most for a group
    value; and the bar of a group value that has no earlier quarter in that
    year has no value, so that in the first quarter of a year with data
    every bar is empty, whatever the quarters of the years before. *)
Theorem qoq_chart_shows_latest_quarter :
  forall (df : DataFrame) (date_col value_col group_col : string) (t : GrowthTables)
         (selected : list string) (chart : list (GrowthRow (Z * Z))),
    calculate_growth_metrics df date_col value_col group_col = inr t ->
    qoq_latest selected (quarterly t) = Some chart ->
    (forall r, In r chart <->
               In r (quarterly t) /\ isin selected (group_value r) = true
               /\ forall p, In p (quarterly t) -> isin selected (group_value p) = true ->
                            not_after p r)
    /\ NoDup (map group_value chart)
    /\ (forall r, In r chart ->
          (forall p, In p (quarterly t) ->
                     group_value p = group_value r -> fst (period p) = fst (period r) ->
                     snd (period r) <= snd (period p)) ->
          growth_pct r = NaN).
Proof.
  intros df date_col value_col group_col t selected chart Ht.
  apply calculate_growth_metrics_tables in Ht as (obs & _ & ->).
  cbn [growth_tables quarterly]. unfold quarterly_growth.
  set (items := map (keyed year_quarter) obs).
  set (table := with_growth by_group_and_year (groupby_sum items)).
  unfold qoq_latest. destruct selected as [|s0 selected']; [discriminate|].
  set (selected := s0 :: selected'). cbv zeta.
  set (filtered := select_groups selected table).
  assert (Hfiltered : forall r, In r filtered <->
                                In r table /\ isin selected (group_value r) = true)
    by (intros r; apply filter_In).
  intros [= <-].
  assert (Hmember :
    forall r,
      In r match series_max (map (fun r => fst (period r)) filtered) with
           | None => []
           | Some latest_year =>
               match series_max
                       (map (fun r => snd (period r))
                            (filter (fun r => Z.eqb (fst (period r)) latest_year)
                                    filtered))
               with
               | None => []
               | Some latest_quarter =>
                   filter (fun r => Z.eqb (fst (period r)) latest_year
                                    && Z.eqb (snd (period r)) latest_quarter)
                          filtered
               end
           end
      <-> In r table /\ isin selected (group_value r) = true
          /\ forall p, In p table -> isin selected (group_value p) = true ->
                       not_after p r).
  { intros r. split.
    - destruct (series_max (map (fun r => fst (period r)) filtered)) as [ly|] eqn:Ey;
        [|contradiction].
      destruct (series_max_spec _ _ Ey) as [_ Hy].
      destruct (series_max _) as [lq|] eqn:Eq in |- *; [|contradiction].
      destruct (series_max_spec _ _ Eq) as [_ Hq].
      intros Hr. apply filter_In in Hr as [Hr Hlatest].
      apply andb_prop in Hlatest as [Hry Hrq].
      apply Z.eqb_eq in Hry, Hrq.
      apply Hfiltered in Hr as [Hr Hsel]. split; [exact Hr|]. split; [exact Hsel|].
      intros p Hp Hpsel.
      assert (Hpf : In p filtered) by (apply Hfiltered; now split).
      assert (Hpy : fst (period p) <= ly)
        by (apply Hy; apply in_map_iff; now exists p).
      unfold not_after. rewrite Hry, Hrq.
      destruct (Z.eq_dec (fst (period p)) ly) as [Heq|Hne]; [|left; lia].
      right. split; [exact Heq|].
      apply Hq. apply in_map_iff. exists p. split; [reflexivity|].
      apply filter_In. split; [exact Hpf | now apply Z.eqb_eq].
    - intros (Hr & Hsel & Hlatest).
      assert (Hrf : In r filtered) by (apply Hfiltered; now split).
      destruct (series_max_some (map (fun r => fst (period r)) filtered)
                                (fst (period r))) as (ly & Ey);
        [apply in_map_iff; now exists r|].
      rewrite Ey. destruct (series_max_spec _ _ Ey) as [Hyin Hy].
      apply in_map_iff in Hyin as (py & Hpy & Hpyf).
      assert (Hry : fst (period r) = ly).
      { assert (fst (period r) <= ly) by (apply Hy; apply in_map_iff; now exists r).
        apply Hfiltered in Hpyf as [Hpyt Hpysel].
        destruct (Hlatest py Hpyt Hpysel) as [Hlt|[Heq _]]; lia. }
      assert (Hrfy : In r (filter (fun r => Z.eqb (fst (period r)) ly) filtered))
        by (apply filter_In; split; [exact Hrf | now apply Z.eqb_eq]).
      destruct (series_max_some
                  (map (fun r => snd (period r))
                       (filter (fun r => Z.eqb (fst (period r)) ly) filtered))
                  (snd (period r))) as (lq & Eq);
        [apply in_map_iff; now exists r|].
      rewrite Eq. destruct (series_max_spec _ _ Eq) as [Hqin Hq].
      apply in_map_iff in Hqin as (pq & Hpq & Hpqf).
      apply filter_In in Hpqf as [Hpqf Hpqy]. apply Z.eqb_eq in Hpqy.
      assert (Hrq : snd (period r) = lq).
      { assert (snd (period r) <= lq) by (apply Hq; apply in_map_iff; now exists r).
        apply Hfiltered in Hpqf as [Hpqt Hpqsel].
        destruct (Hlatest pq Hpqt Hpqsel) as [Hlt|[_ Hle]]; lia. }
      apply filter_In. split; [exact Hrf|].
      apply andb_true_intro. split; now apply Z.eqb_eq. }
  split; [exact Hmember|]. split.
  - destruct (series_max (map (fun r => fst (period r)) filtered)) as [ly|];
      [|constructor].
    destruct (series_max _) as [lq|]; [|constructor].
    apply (one_period_NoDup _ (ly, lq)).
    + intros r Hr. apply filter_In in Hr as [_ Hlatest].
      apply andb_prop in Hlatest as [Hry Hrq]. apply Z.eqb_eq in Hry, Hrq.
      destruct (period r) as [y q]. cbn [fst snd] in *. now subst.
    + apply NoDup_map_filter. unfold filtered, select_groups. apply NoDup_map_filter.
      apply (sorted_keys_NoDup row_key). exact (table_sorted by_group_and_year items).
  - intros r Hr Hfirst. apply Hmember in Hr as (Hr & _).
    exact (first_quarter_of_year items r Hr Hfirst).
Qed.

(** The two categories have data until April: the chart is that of the
    second quarter, in which the two-wheelers alone have data. *)
Lemma qoq_chart_shows_latest_quarter_witness :
  exists t chart,
    calculate_growth_metrics (clean_data iso_date two_category_scenario)
                             "date" "registrations" "category" = inr t
    /\ qoq_latest ["2W"; "4W"] (quarterly t) = Some chart
    /\ map group_value chart = ["2W"]
    /\ NoDup (map group_value chart).
Proof.
  exists (tables_by_category two_category_scenario).
  destruct (qoq_latest ["2W"; "4W"] (quarterly (tables_by_category two_category_scenario)))
    as [chart|] eqn:Hchart; [|discriminate].
  exists chart.
  assert (Ht : calculate_growth_metrics (clean_data iso_date two_category_scenario)
                 "date" "registrations" "category"
               = inr (tables_by_category two_category_scenario))
    by (vm_compute; reflexivity).
  split; [exact Ht|]. split; [reflexivity|]. split.
  - vm_compute in Hchart. injection Hchart as <-. reflexivity.
  - exact (proj1 (proj2 (qoq_chart_shows_latest_quarter _ _ _ _ _ _ _ Ht Hchart))).
Defined.
